(** * Position accounting of the Polymarket subgraph

    A shallow embedding of the AssemblyScript mappings
    [ConditionalTokensMapping] (handlers of the ConditionalTokens events),
    [NegRiskAdapterMapping] (the audit rows of the adapter's own events),
    [utils/market-positions-utils] (the position ledger) and
    [utils/global-utils] (the protocol-wide aggregate), followed by the
    properties of the ledger.

    The entity store of graph-node is a family of finite maps from entity
    id to entity, one map per entity type.  A handler is a computation
    over the store that either finishes or aborts; the log is part of the
    state so that what was reported before an abort stays visible. *)

From Stdlib Require Import ZArith Lia QArith Qcanon Ascii String.
From stdpp Require Import gmap strings list pretty.

Local Open Scope Z_scope.

(** ** Machine integers

    AssemblyScript's [i32]: a signed 32-bit integer, all arithmetic
    wrapping; the shift count of [<<] is taken modulo 32. *)

Module I32.
Definition min_int : Z := - 2 ^ 31.
Definition max_int : Z := 2 ^ 31 - 1.

Definition fits (x : Z) : Prop := min_int <= x <= max_int.

Definition fitsb (x : Z) : bool := (min_int <=? x) && (x <=? max_int).

Definition wrap (x : Z) : Z := (x + 2 ^ 31) mod 2 ^ 32 - 2 ^ 31.

Definition add (a b : Z) : Z := wrap (a + b).
Definition sub (a b : Z) : Z := wrap (a - b).
Definition shl (a b : Z) : Z := wrap (Z.shiftl a (Z.land b 31)).
End I32.

(** ** Byte strings

    [Bytes] and [Address] values of graph-ts.  [toHexString] is the
    lower-case hexadecimal rendering with the [0x] prefix.  [toString]
    is the host's reading of the bytes as UTF-8 text: well-formed
    sequences are taken as they are, every maximal ill-formed run is
    replaced by one U+FFFD, and the NUL characters at the end are
    dropped.  The text is kept here in its UTF-8 bytes. *)

Module Bytes.
Definition t := list Byte.byte.

Definition hexDigit (n : N) : ascii :=
  ascii_of_N (if (n <? 10)%N then 48 + n else 87 + n)%N.

Definition hexByte (b : Byte.byte) : string :=
  let n := Byte.to_N b in
  String (hexDigit (n / 16)%N) (String (hexDigit (n mod 16)%N) EmptyString).

Fixpoint hexBytes (bs : t) : string :=
  match bs with
  | [] => EmptyString
  | b :: bs' => hexByte b +:+ hexBytes bs'
  end.

Definition toHexString (bs : t) : string := "0x" +:+ hexBytes bs.

(** A continuation byte, [10xxxxxx]. *)
Definition continues (b : N) : bool := ((128 <=? b) && (b <=? 191))%N.

(** The second byte allowed after the lead byte of a sequence of three
    or of four bytes: no overlong form, no surrogate, nothing above
    U+10FFFF. *)
Definition second3 (lead b : N) : bool :=
  (if lead =? 224 then (160 <=? b) && (b <=? 191)
   else if lead =? 237 then (128 <=? b) && (b <=? 159)
   else continues b)%N.

Definition second4 (lead b : N) : bool :=
  (if lead =? 240 then (144 <=? b) && (b <=? 191)
   else if lead =? 244 then (128 <=? b) && (b <=? 143)
   else continues b)%N.

Definition char (b : N) (s : string) : string := String (ascii_of_N b) s.

(** U+FFFD, the replacement character. *)
Definition replacement (s : string) : string :=
  char 239 (char 191 (char 189 s)).

Fixpoint fromUtf8Lossy (bs : list N) : string :=
  match bs with
  | [] => EmptyString
  | b :: bs1 =>
      if (b <? 128)%N then char b (fromUtf8Lossy bs1)
      else if ((194 <=? b) && (b <=? 223))%N then
        match bs1 with
        | c :: bs2 =>
            if continues c then char b (char c (fromUtf8Lossy bs2))
            else replacement (fromUtf8Lossy bs1)
        | [] => replacement EmptyString
        end
      else if ((224 <=? b) && (b <=? 239))%N then
        match bs1 with
        | c :: bs2 =>
            if second3 b c then
              match bs2 with
              | d :: bs3 =>
                  if continues d
                  then char b (char c (char d (fromUtf8Lossy bs3)))
                  else replacement (fromUtf8Lossy bs2)
              | [] => replacement EmptyString
              end
            else replacement (fromUtf8Lossy bs1)
        | [] => replacement EmptyString
        end
      else if ((240 <=? b) && (b <=? 244))%N then
        match bs1 with
        | c :: bs2 =>
            if second4 b c then
              match bs2 with
              | d :: bs3 =>
                  if continues d then
                    match bs3 with
                    | e :: bs4 =>
                        if continues e
                        then char b (char c (char d
                               (char e (fromUtf8Lossy bs4))))
                        else replacement (fromUtf8Lossy bs3)
                    | [] => replacement EmptyString
                    end
                  else replacement (fromUtf8Lossy bs2)
              | [] => replacement EmptyString
              end
            else replacement (fromUtf8Lossy bs1)
        | [] => replacement EmptyString
        end
      else replacement (fromUtf8Lossy bs1)
  end.

(** The text without the NUL characters at its end. *)
Fixpoint trimNul (s : string) : string :=
  match s with
  | EmptyString => EmptyString
  | String c s' =>
      match trimNul s' with
      | EmptyString =>
          if (N_of_ascii c =? 0)%N then EmptyString
          else String c EmptyString
      | rest => String c rest
      end
  end.

Definition toString (bs : t) : string :=
  trimNul (fromUtf8Lossy (map Byte.to_N bs)).
End Bytes.

(** ** Arbitrary-precision numbers

    graph-ts [BigInt] is an unbounded integer: [Z].  [div] truncates
    towards zero and the host aborts on a zero divisor.  [toI32] reads
    the low four bytes of the value's signed little-endian byte form and
    aborts only when a byte past the fourth is not the sign byte: a value
    from [-2^32] to [2^32 - 1] is accepted, and outside the [i32] range
    it comes out wrapped ([2^31] as [-2^31], [2^32 - 1] as [-1]).
    [BigDecimal] values are kept as exact
    rationals: the rounding of the host's decimal division to its working
    precision is not modelled, so a stored fraction is exact whenever the
    quotient has a finite decimal expansion within that precision. *)

Module BigInt.
Definition t := Z.

Definition plus (a b : t) : t := a + b.
Definition minus (a b : t) : t := a - b.
Definition times (a b : t) : t := a * b.
Definition lt (a b : t) : bool := a <? b.
Definition gt (a b : t) : bool := b <? a.

Definition div (a b : t) : option t :=
  if b =? 0 then None else Some (a ÷ b).

Definition fromI32 (x : Z) : t := x.

Definition toI32 (a : t) : option Z :=
  if (- 2 ^ 32 <=? a) && (a <? 2 ^ 32) then Some (I32.wrap a) else None.

Definition toString (a : t) : string := pretty a.

Definition toBigDecimal (a : t) : Qc := Q2Qc (inject_Z a).

Definition divDecimal (a : t) (d : Qc) : option Qc :=
  if decide (d = Q2Qc 0) then None else Some (toBigDecimal a / d)%Qc.
End BigInt.

Definition bigZero : BigInt.t := 0.

(** ** Entities

    One module per entity type of the schema, with the fields the
    mappings read or write.  A nullable field is an [option]. *)

Module MarketPosition.
Record t := mk {
  id : string;
  market : string;
  user : string;
  outcomeIndex : BigInt.t;
  quantityBought : BigInt.t;
  quantitySold : BigInt.t;
  netQuantity : BigInt.t;
  valueBought : BigInt.t;
  valueSold : BigInt.t;
  netValue : BigInt.t
}.
End MarketPosition.

Module Condition.
Record t := mk {
  id : string;
  oracle : Bytes.t;
  questionId : Bytes.t;
  fixedProductMarketMakers : list string;
  outcomeSlotCount : Z;
  resolutionTimestamp : option BigInt.t;
  payouts : option (list Qc);
  payoutNumerators : option (list BigInt.t);
  payoutDenominator : option BigInt.t;
  resolutionHash : option Bytes.t
}.
End Condition.

Module FixedProductMarketMaker.
Record t := mk {
  id : string;
  outcomeSlotCount : Z;
  outcomeTokenPrices : list Qc
}.
End FixedProductMarketMaker.

Module Transaction.
Record t := mk {
  id : string;
  type : string;
  user : string;
  market : string;
  outcomeIndex : BigInt.t;
  outcomeTokensAmount : BigInt.t;
  tradeAmount : BigInt.t
}.
End Transaction.

Module Split.
Record t := mk {
  id : string;
  timestamp : BigInt.t;
  stakeholder : string;
  collateralToken : string;
  parentCollectionId : Bytes.t;
  condition : string;
  partition : list BigInt.t;
  amount : BigInt.t
}.
End Split.

Module Merge.
Record t := mk {
  id : string;
  timestamp : BigInt.t;
  stakeholder : string;
  collateralToken : string;
  parentCollectionId : Bytes.t;
  condition : string;
  partition : list BigInt.t;
  amount : BigInt.t
}.
End Merge.

Module Redemption.
Record t := mk {
  id : string;
  timestamp : BigInt.t;
  redeemer : string;
  collateralToken : string;
  parentCollectionId : Bytes.t;
  condition : string;
  indexSets : list BigInt.t;
  payout : BigInt.t
}.
End Redemption.

Module Account.
Record t := mk {
  id : string;
  creationTimestamp : BigInt.t;
  lastSeenTimestamp : BigInt.t
}.
End Account.

Module Global.
Record t := mk {
  id : string;
  numConditions : Z;
  numOpenConditions : Z;
  numClosedConditions : Z;
  numTraders : BigInt.t;
  tradesQuantity : BigInt.t;
  buysQuantity : BigInt.t;
  sellsQuantity : BigInt.t;
  collateralVolume : BigInt.t;
  scaledCollateralVolume : Qc;
  collateralFees : BigInt.t;
  scaledCollateralFees : Qc;
  collateralBuyVolume : BigInt.t;
  scaledCollateralBuyVolume : Qc;
  collateralSellVolume : BigInt.t;
  scaledCollateralSellVolume : Qc;
  openInterest : BigInt.t;
  scaledOpenInterest : Qc
}.
End Global.

(** ** Events *)

Module Event.
(** The part of [ethereum.Event] the mappings look at. *)
Record t := mk {
  address : Bytes.t;
  logIndex : BigInt.t;
  block_timestamp : BigInt.t;
  transaction_hash : Bytes.t
}.
End Event.

Module PositionSplit.
Record t := mk {
  event : Event.t;
  stakeholder : Bytes.t;
  collateralToken : Bytes.t;
  parentCollectionId : Bytes.t;
  conditionId : Bytes.t;
  partition : list BigInt.t;
  amount : BigInt.t
}.
End PositionSplit.

Module PositionsMerge.
Record t := mk {
  event : Event.t;
  stakeholder : Bytes.t;
  collateralToken : Bytes.t;
  parentCollectionId : Bytes.t;
  conditionId : Bytes.t;
  partition : list BigInt.t;
  amount : BigInt.t
}.
End PositionsMerge.

Module PayoutRedemption.
Record t := mk {
  event : Event.t;
  redeemer : Bytes.t;
  collateralToken : Bytes.t;
  parentCollectionId : Bytes.t;
  conditionId : Bytes.t;
  indexSets : list BigInt.t;
  payout : BigInt.t
}.
End PayoutRedemption.

Module ConditionResolution.
Record t := mk {
  event : Event.t;
  conditionId : Bytes.t;
  oracle : Bytes.t;
  questionId : Bytes.t;
  outcomeSlotCount : BigInt.t;
  payoutNumerators : list BigInt.t
}.
End ConditionResolution.

(** ** The store and the log *)

Module Log.
Inductive level := Error | Warning | Info | Debug.

Record entry := mk {
  lvl : level;
  message : string;
  args : list string
}.
End Log.

Record World := mkWorld {
  marketPositions : gmap string MarketPosition.t;
  conditions : gmap string Condition.t;
  marketMakers : gmap string FixedProductMarketMaker.t;
  transactions : gmap string Transaction.t;
  splits : gmap string Split.t;
  merges : gmap string Merge.t;
  redemptions : gmap string Redemption.t;
  accounts : gmap string Account.t;
  globals : gmap string Global.t;
  logs : list Log.entry
}.

Definition emptyWorld : World :=
  mkWorld ∅ ∅ ∅ ∅ ∅ ∅ ∅ ∅ ∅ [].

(** ** Handler computations

    A handler runs against the store.  It finishes ([Ok]) or stops early
    ([Abort]): by a [throw], by using a null reference or an array index
    out of range, by a host error (zero divisor, [toI32] overflow), or by
    never leaving a loop.  The store at the point of the stop is kept. *)

Inductive Failure :=
| Thrown (msg : string)
| NullReference
| IndexOutOfRange
| DivisionByZero
| I32Overflow
| Diverges.

Inductive Outcome (A : Type) :=
| Ok (a : A) (w : World)
| Abort (f : Failure) (w : World).
Arguments Ok {A} a w.
Arguments Abort {A} f w.

Definition M (A : Type) : Type := World -> Outcome A.

Definition ret {A} (a : A) : M A := fun w => Ok a w.

Definition bind {A B} (c : M A) (k : A -> M B) : M B :=
  fun w => match c w with
           | Ok a w' => k a w'
           | Abort f w' => Abort f w'
           end.

Definition fail {A} (f : Failure) : M A := fun w => Abort f w.

Definition modify (f : World -> World) : M unit := fun w => Ok tt (f w).

#[global] Instance M_ret : MRet M := @ret.
#[global] Instance M_bind : MBind M := fun A B k c => bind c k.

(** A value the code requires to be present: [x as T], [a[i]]. *)
Definition require {A} (f : Failure) (o : option A) : M A :=
  match o with
  | Some a => ret a
  | None => fail f
  end.

(** [for (let i = 0; i < xs.length; i += 1) body(xs[i])]. *)
Fixpoint forEach {A} (xs : list A) (body : A -> M unit) : M unit :=
  match xs with
  | [] => ret tt
  | x :: xs' => body x;; forEach xs' body
  end.

Definition finalWorld {A} (o : Outcome A) : World :=
  match o with
  | Ok _ w => w
  | Abort _ w => w
  end.

Definition appendLog (e : Log.entry) (w : World) : World :=
  mkWorld (marketPositions w) (conditions w) (marketMakers w)
          (transactions w) (splits w) (merges w) (redemptions w)
          (accounts w) (globals w) (logs w ++ [e]).

(** [log.error] writes to the log and goes on; it does not stop the
    handler (that is [log.critical]). *)
Definition log_error (msg : string) (args : list string) : M unit :=
  modify (appendLog (Log.mk Log.Error msg args)).

(** ** Store access: [Entity.load(id)] and [entity.save()] *)

Definition setMarketPositions
    (f : gmap string MarketPosition.t -> gmap string MarketPosition.t)
    (w : World) : World :=
  mkWorld (f (marketPositions w)) (conditions w) (marketMakers w)
          (transactions w) (splits w) (merges w) (redemptions w)
          (accounts w) (globals w) (logs w).

Definition setConditions
    (f : gmap string Condition.t -> gmap string Condition.t)
    (w : World) : World :=
  mkWorld (marketPositions w) (f (conditions w)) (marketMakers w)
          (transactions w) (splits w) (merges w) (redemptions w)
          (accounts w) (globals w) (logs w).

Definition setSplits
    (f : gmap string Split.t -> gmap string Split.t) (w : World) : World :=
  mkWorld (marketPositions w) (conditions w) (marketMakers w)
          (transactions w) (f (splits w)) (merges w) (redemptions w)
          (accounts w) (globals w) (logs w).

Definition setMerges
    (f : gmap string Merge.t -> gmap string Merge.t) (w : World) : World :=
  mkWorld (marketPositions w) (conditions w) (marketMakers w)
          (transactions w) (splits w) (f (merges w)) (redemptions w)
          (accounts w) (globals w) (logs w).

Definition setRedemptions
    (f : gmap string Redemption.t -> gmap string Redemption.t)
    (w : World) : World :=
  mkWorld (marketPositions w) (conditions w) (marketMakers w)
          (transactions w) (splits w) (merges w) (f (redemptions w))
          (accounts w) (globals w) (logs w).

Definition setAccounts
    (f : gmap string Account.t -> gmap string Account.t)
    (w : World) : World :=
  mkWorld (marketPositions w) (conditions w) (marketMakers w)
          (transactions w) (splits w) (merges w) (redemptions w)
          (f (accounts w)) (globals w) (logs w).

Definition setGlobals
    (f : gmap string Global.t -> gmap string Global.t) (w : World) : World :=
  mkWorld (marketPositions w) (conditions w) (marketMakers w)
          (transactions w) (splits w) (merges w) (redemptions w)
          (accounts w) (f (globals w)) (logs w).

Definition MarketPosition_load (id : string) : M (option MarketPosition.t) :=
  fun w => Ok (marketPositions w !! id) w.
Definition MarketPosition_save (p : MarketPosition.t) : M unit :=
  modify (setMarketPositions (insert (MarketPosition.id p) p)).

Definition Condition_load (id : string) : M (option Condition.t) :=
  fun w => Ok (conditions w !! id) w.
Definition Condition_save (c : Condition.t) : M unit :=
  modify (setConditions (insert (Condition.id c) c)).

Definition FixedProductMarketMaker_load (id : string)
    : M (option FixedProductMarketMaker.t) :=
  fun w => Ok (marketMakers w !! id) w.

Definition Transaction_load (id : string) : M (option Transaction.t) :=
  fun w => Ok (transactions w !! id) w.

Definition Split_save (s : Split.t) : M unit :=
  modify (setSplits (insert (Split.id s) s)).
Definition Merge_save (m : Merge.t) : M unit :=
  modify (setMerges (insert (Merge.id m) m)).
Definition Redemption_save (r : Redemption.t) : M unit :=
  modify (setRedemptions (insert (Redemption.id r) r)).

Definition Global_load (id : string) : M (option Global.t) :=
  fun w => Ok (globals w !! id) w.
Definition Global_save (g : Global.t) : M unit :=
  modify (setGlobals (insert (Global.id g) g)).

(** ** utils/global-utils *)

Definition requireGlobal : M Global.t :=
  global ← Global_load "";
  match global with
  | Some global => mret global
  | None =>
      mret (Global.mk "" 0 0 0
              bigZero
              bigZero bigZero bigZero
              bigZero (BigInt.toBigDecimal bigZero)
              bigZero (BigInt.toBigDecimal bigZero)
              bigZero (BigInt.toBigDecimal bigZero)
              bigZero (BigInt.toBigDecimal bigZero)
              bigZero (BigInt.toBigDecimal bigZero))
  end.

(** ** utils/market-positions-utils *)

(** [user + market + outcomeIndex.toString()] *)
Definition positionId (user market : string) (outcomeIndex : BigInt.t)
    : string :=
  (user +:+ market) +:+ BigInt.toString outcomeIndex.

Definition getMarketPosition (user market : string) (outcomeIndex : BigInt.t)
    : M MarketPosition.t :=
  let positionId := positionId user market outcomeIndex in
  position ← MarketPosition_load positionId;
  match position with
  | Some position => mret position
  | None =>
      mret (MarketPosition.mk positionId market user outcomeIndex
              bigZero bigZero bigZero bigZero bigZero bigZero)
  end.

Definition withQuantityBought (v : BigInt.t) (p : MarketPosition.t) :=
  MarketPosition.mk (MarketPosition.id p) (MarketPosition.market p)
    (MarketPosition.user p) (MarketPosition.outcomeIndex p)
    v (MarketPosition.quantitySold p) (MarketPosition.netQuantity p)
    (MarketPosition.valueBought p) (MarketPosition.valueSold p)
    (MarketPosition.netValue p).

Definition withQuantitySold (v : BigInt.t) (p : MarketPosition.t) :=
  MarketPosition.mk (MarketPosition.id p) (MarketPosition.market p)
    (MarketPosition.user p) (MarketPosition.outcomeIndex p)
    (MarketPosition.quantityBought p) v (MarketPosition.netQuantity p)
    (MarketPosition.valueBought p) (MarketPosition.valueSold p)
    (MarketPosition.netValue p).

Definition withValueBought (v : BigInt.t) (p : MarketPosition.t) :=
  MarketPosition.mk (MarketPosition.id p) (MarketPosition.market p)
    (MarketPosition.user p) (MarketPosition.outcomeIndex p)
    (MarketPosition.quantityBought p) (MarketPosition.quantitySold p)
    (MarketPosition.netQuantity p)
    v (MarketPosition.valueSold p) (MarketPosition.netValue p).

Definition withValueSold (v : BigInt.t) (p : MarketPosition.t) :=
  MarketPosition.mk (MarketPosition.id p) (MarketPosition.market p)
    (MarketPosition.user p) (MarketPosition.outcomeIndex p)
    (MarketPosition.quantityBought p) (MarketPosition.quantitySold p)
    (MarketPosition.netQuantity p)
    (MarketPosition.valueBought p) v (MarketPosition.netValue p).

(** The two derived fields, as [updateNetPositionAndSave] sets them. *)
Definition withNet (p : MarketPosition.t) :=
  MarketPosition.mk (MarketPosition.id p) (MarketPosition.market p)
    (MarketPosition.user p) (MarketPosition.outcomeIndex p)
    (MarketPosition.quantityBought p) (MarketPosition.quantitySold p)
    (BigInt.minus (MarketPosition.quantityBought p)
                  (MarketPosition.quantitySold p))
    (MarketPosition.valueBought p) (MarketPosition.valueSold p)
    (BigInt.minus (MarketPosition.valueBought p)
                  (MarketPosition.valueSold p)).

Definition updateNetPositionAndSave (position : MarketPosition.t) : M unit :=
  let position := withNet position in
  (if BigInt.lt (MarketPosition.netQuantity position) bigZero
   then log_error
          "Invalid position: user {} has negative netQuantity on outcome {} on market {}"
          [MarketPosition.user position;
           BigInt.toString (MarketPosition.outcomeIndex position);
           MarketPosition.market position]
   else mret tt);;
  MarketPosition_save position.

Definition updateMarketPositionFromTrade (event : Event.t) : M unit :=
  transaction ←
    Transaction_load (Bytes.toHexString (Event.transaction_hash event));
  match transaction with
  | None =>
      log_error "Could not find a transaction with hash: {}"
                [Bytes.toString (Event.transaction_hash event)];;
      fail (Thrown "Could not find transaction with hash")
  | Some transaction =>
      position ← getMarketPosition (Transaction.user transaction)
                                   (Transaction.market transaction)
                                   (Transaction.outcomeIndex transaction);
      let position :=
        if String.eqb (Transaction.type transaction) "Buy" then
          withValueBought
            (BigInt.plus (MarketPosition.valueBought position)
                         (Transaction.tradeAmount transaction))
            (withQuantityBought
               (BigInt.plus (MarketPosition.quantityBought position)
                            (Transaction.outcomeTokensAmount transaction))
               position)
        else
          withValueSold
            (BigInt.plus (MarketPosition.valueSold position)
                         (Transaction.tradeAmount transaction))
            (withQuantitySold
               (BigInt.plus (MarketPosition.quantitySold position)
                            (Transaction.outcomeTokensAmount transaction))
               position) in
      updateNetPositionAndSave position
  end.

(** [x as T] on a nullable value is a checked cast: on a null the
    handler aborts at the cast itself. *)
Definition deref {A} (o : option A) : M A := require NullReference o.

(** [xs[i]] on an array: out of range aborts. *)
Definition arrayGet {A} (xs : list A) (i : Z) : M A :=
  require IndexOutOfRange
    (if i <? 0 then None else xs !! Z.to_nat i).

(** The body of the loop of [updateMarketPositionsFromSplit], for one
    [outcomeIndex]. *)
Definition splitOutcome (userAddress marketMakerAddress : string)
    (amount : BigInt.t) (totalSlots : Z) (outcomeIndex : Z) : M unit :=
  position ← getMarketPosition userAddress marketMakerAddress
                               (BigInt.fromI32 outcomeIndex);
  let position :=
    withQuantityBought
      (BigInt.plus (MarketPosition.quantityBought position) amount)
      position in
  mergeValue ← require DivisionByZero
                 (BigInt.div amount (BigInt.fromI32 totalSlots));
  let position :=
    withValueBought
      (BigInt.plus (MarketPosition.valueBought position) mergeValue)
      position in
  updateNetPositionAndSave position.

Definition updateMarketPositionsFromSplit
    (marketMakerAddress : string) (event : PositionSplit.t) : M unit :=
  let userAddress := Bytes.toHexString (PositionSplit.stakeholder event) in
  marketMaker ← FixedProductMarketMaker_load marketMakerAddress;
  marketMaker ← deref marketMaker;
  let totalSlots := FixedProductMarketMaker.outcomeSlotCount marketMaker in
  forEach (seqZ 0 totalSlots)
          (splitOutcome userAddress marketMakerAddress
                        (PositionSplit.amount event) totalSlots).

(** The body of the loop of [updateMarketPositionsFromMerge]. *)
Definition mergeOutcome (userAddress marketMakerAddress : string)
    (amount : BigInt.t) (totalSlots : Z) (outcomeIndex : Z) : M unit :=
  position ← getMarketPosition userAddress marketMakerAddress
                               (BigInt.fromI32 outcomeIndex);
  let position :=
    withQuantitySold
      (BigInt.plus (MarketPosition.quantitySold position) amount)
      position in
  mergeValue ← require DivisionByZero
                 (BigInt.div amount (BigInt.fromI32 totalSlots));
  let position :=
    withValueSold
      (BigInt.plus (MarketPosition.valueSold position) mergeValue)
      position in
  updateNetPositionAndSave position.

Definition updateMarketPositionsFromMerge
    (marketMakerAddress : string) (event : PositionsMerge.t) : M unit :=
  let userAddress := Bytes.toHexString (PositionsMerge.stakeholder event) in
  marketMaker ← FixedProductMarketMaker_load marketMakerAddress;
  marketMaker ← deref marketMaker;
  let totalSlots := FixedProductMarketMaker.outcomeSlotCount marketMaker in
  forEach (seqZ 0 totalSlots)
          (mergeOutcome userAddress marketMakerAddress
                        (PositionsMerge.amount event) totalSlots).

(** The loop that turns an index set into an outcome index,
    [while (1 << outcomeIndex < indexSet) outcomeIndex += 1],
    on [i32] values.  [fuel] bounds the number of tests of the condition;
    [None] is a run still inside the loop when the fuel is spent. *)
Fixpoint outcomeIndexLoop (fuel : nat) (indexSet outcomeIndex : Z)
    : option Z :=
  match fuel with
  | O => None
  | S fuel' =>
      if I32.shl 1 outcomeIndex <? indexSet
      then outcomeIndexLoop fuel' indexSet (I32.add outcomeIndex 1)
      else Some outcomeIndex
  end.

(** A run that leaves the loop does so within 31 increments (lemma
    [outcomeIndexLoop_enough] below), so this fuel loses no result. *)
Definition outcomeIndexFuel : nat := 32%nat.

(** [indexSets[i]] to outcome index: [toI32], then the loop from 0. *)
Definition outcomeIndexOf (indexSet : BigInt.t) : M Z :=
  x ← require I32Overflow (BigInt.toI32 indexSet);
  require Diverges (outcomeIndexLoop outcomeIndexFuel x 0).

(** The body of the loop of [updateMarketPositionsFromRedemption], for one
    element of [indexSets]. *)
Definition redeemIndexSet (userAddress marketMakerAddress : string)
    (payoutNumerators : list BigInt.t) (payoutDenominator : BigInt.t)
    (indexSet : BigInt.t) : M unit :=
  outcomeIndex ← outcomeIndexOf indexSet;
  position ← getMarketPosition userAddress marketMakerAddress
                               (BigInt.fromI32 outcomeIndex);
  numerator ← arrayGet payoutNumerators outcomeIndex;
  redemptionValue ←
    require DivisionByZero
      (BigInt.div
         (BigInt.times (MarketPosition.netQuantity position) numerator)
         payoutDenominator);
  let position :=
    withValueSold
      (BigInt.plus (MarketPosition.valueSold position) redemptionValue)
      (withQuantitySold
         (BigInt.plus (MarketPosition.quantitySold position)
                      (MarketPosition.netQuantity position))
         position) in
  updateNetPositionAndSave position.

(** The two payout fields of the condition are nullable and are cast to
    their non-null types as they are read, so an unresolved condition
    aborts the run at the first cast.  The test
    [payoutNumerators == null || payoutDenominator == null] that follows
    the casts is on two values that are not null: it is false, and its
    branch, the "has not resolved" report, is not reached. *)
Definition updateMarketPositionsFromRedemption
    (marketMakerAddress : string) (event : PayoutRedemption.t) : M unit :=
  let userAddress := Bytes.toHexString (PayoutRedemption.redeemer event) in
  condition ←
    Condition_load (Bytes.toHexString (PayoutRedemption.conditionId event));
  condition ← deref condition;
  payoutNumerators ← deref (Condition.payoutNumerators condition);
  payoutDenominator ← deref (Condition.payoutDenominator condition);
  let indexSets := PayoutRedemption.indexSets event in
  forEach indexSets
          (redeemIndexSet userAddress marketMakerAddress
                          payoutNumerators payoutDenominator).

(** ** Collaborators of the handlers *)

(** Modelled from the spec: [partitionCheck] (utils/conditional-utils) is
    not among the sources.  The spec's [isFullPartition]: a partition, a
    list of bitmasks over the outcome slots, is full iff every outcome
    slot from 0 to outcomeSlotCount-1 is covered by exactly one mask. *)
Definition partitionCheck (partition : list BigInt.t) (outcomeSlotCount : Z)
    : bool :=
  forallb
    (fun slot =>
       (length (filter (fun mask => Z.testbit mask slot = true) partition)
        =? 1)%nat)
    (seqZ 0 outcomeSlotCount).

(** Modelled from the spec: [getEventKey] (utils/getEventKey) is not among
    the sources.  The spec's event key: an ordered-event identity,
    transaction hash plus log index. *)
Definition getEventKey (event : Event.t) : string :=
  Bytes.toHexString (Event.transaction_hash event)
  +:+ BigInt.toString (Event.logIndex event).

(** Modelled from the spec: [requireAccount] and [markAccountAsSeen]
    (utils/account-utils) are not among the sources.  The spec's
    collaborator (d): an "ensure account exists / mark seen" upsert keyed
    by account identity plus timestamp. *)
Definition requireAccount (accountAddress : string) (timestamp : BigInt.t)
    : M Account.t :=
  account ← (fun w => Ok (accounts w !! accountAddress) w);
  match account with
  | Some account => mret account
  | None =>
      let account := Account.mk accountAddress timestamp timestamp in
      modify (setAccounts (insert accountAddress account));;
      mret account
  end.

Definition markAccountAsSeen (accountAddress : string) (timestamp : BigInt.t)
    : M unit :=
  account ← requireAccount accountAddress timestamp;
  modify (setAccounts
            (insert accountAddress
               (Account.mk (Account.id account)
                           (Account.creationTimestamp account) timestamp))).

(** Modelled from the spec: [getCollateralDetails] (utils/collateralTokens)
    is not among the sources; the spec keeps collateral configuration
    outside the ledger, and the handler drops the result.  It touches none
    of the entity types of [World]. *)
Definition getCollateralDetails (collateralToken : Bytes.t) : M unit :=
  mret tt.

(** The contract addresses the build substitutes into the mapping
    ([{{lowercase contracts.X.address}}]). *)
Record Contracts := mkContracts {
  NegRiskAdapter_address : string;
  Exchange_address : string;
  NegativeRiskAdapter_address : string;
  USDC_address : string
}.

(** [[a, b].includes(s)] *)
Definition includes (xs : list string) (s : string) : bool :=
  existsb (String.eqb s) xs.

(** ** ConditionalTokensMapping *)

Section ConditionalTokensMapping.
Variable contracts : Contracts.

Definition handlePositionSplit (event : PositionSplit.t) : M unit :=
  let stakeholder := Bytes.toHexString (PositionSplit.stakeholder event) in
  marketMaker ← FixedProductMarketMaker_load stakeholder;
  if marketMaker is Some _ then mret tt else
  if includes [NegRiskAdapter_address contracts;
               Exchange_address contracts] stakeholder
  then mret tt else
  getCollateralDetails (PositionSplit.collateralToken event);;
  requireAccount stakeholder
                 (Event.block_timestamp (PositionSplit.event event));;
  markAccountAsSeen stakeholder
                    (Event.block_timestamp (PositionSplit.event event));;
  let split :=
    Split.mk (getEventKey (PositionSplit.event event))
             (Event.block_timestamp (PositionSplit.event event))
             stakeholder
             (Bytes.toHexString (PositionSplit.collateralToken event))
             (PositionSplit.parentCollectionId event)
             (Bytes.toHexString (PositionSplit.conditionId event))
             (PositionSplit.partition event)
             (PositionSplit.amount event) in
  Split_save split;;
  condition ← Condition_load (Split.condition split);
  match condition with
  | None =>
      log_error
        "Failed to update market positions: condition {} not prepared"
        [Split.condition split]
  | Some condition =>
      if partitionCheck (Split.partition split)
                        (Condition.outcomeSlotCount condition)
      then
        let marketMakers := Condition.fixedProductMarketMakers condition in
        forEach marketMakers (fun marketMaker =>
          updateMarketPositionsFromSplit marketMaker event)
      else mret tt
  end.

Definition handlePositionsMerge (event : PositionsMerge.t) : M unit :=
  let stakeholder := Bytes.toHexString (PositionsMerge.stakeholder event) in
  marketMaker ← FixedProductMarketMaker_load stakeholder;
  if marketMaker is Some _ then mret tt else
  if includes [NegRiskAdapter_address contracts;
               Exchange_address contracts] stakeholder
  then mret tt else
  requireAccount stakeholder
                 (Event.block_timestamp (PositionsMerge.event event));;
  markAccountAsSeen stakeholder
                    (Event.block_timestamp (PositionsMerge.event event));;
  let merge :=
    Merge.mk (getEventKey (PositionsMerge.event event))
             (Event.block_timestamp (PositionsMerge.event event))
             stakeholder
             (Bytes.toHexString (PositionsMerge.collateralToken event))
             (PositionsMerge.parentCollectionId event)
             (Bytes.toHexString (PositionsMerge.conditionId event))
             (PositionsMerge.partition event)
             (PositionsMerge.amount event) in
  Merge_save merge;;
  condition ← Condition_load (Merge.condition merge);
  match condition with
  | None =>
      log_error
        "Failed to update market positions: condition {} not prepared"
        [Merge.condition merge]
  | Some condition =>
      if partitionCheck (Merge.partition merge)
                        (Condition.outcomeSlotCount condition)
      then
        let marketMakers := Condition.fixedProductMarketMakers condition in
        forEach marketMakers (fun marketMaker =>
          updateMarketPositionsFromMerge marketMaker event)
      else mret tt
  end.

Definition handlePayoutRedemption (event : PayoutRedemption.t) : M unit :=
  let redeemer := Bytes.toHexString (PayoutRedemption.redeemer event) in
  if String.eqb redeemer (NegativeRiskAdapter_address contracts)
  then mret tt else
  requireAccount redeemer
                 (Event.block_timestamp (PayoutRedemption.event event));;
  markAccountAsSeen redeemer
                    (Event.block_timestamp (PayoutRedemption.event event));;
  let redemption :=
    Redemption.mk (getEventKey (PayoutRedemption.event event))
                  (Event.block_timestamp (PayoutRedemption.event event))
                  redeemer
                  (Bytes.toHexString (PayoutRedemption.collateralToken event))
                  (PayoutRedemption.parentCollectionId event)
                  (Bytes.toHexString (PayoutRedemption.conditionId event))
                  (PayoutRedemption.indexSets event)
                  (PayoutRedemption.payout event) in
  Redemption_save redemption;;
  condition ← Condition_load (Redemption.condition redemption);
  match condition with
  | None =>
      log_error
        "Failed to update market positions: condition {} not prepared"
        [Redemption.condition redemption]
  | Some condition =>
      let marketMakers := Condition.fixedProductMarketMakers condition in
      forEach marketMakers (fun marketMaker =>
        updateMarketPositionsFromRedemption marketMaker event)
  end.
End ConditionalTokensMapping.

(** [new Array<BigDecimal>(n)] filled in index order. *)
Fixpoint mapM {A B} (f : A -> M B) (xs : list A) : M (list B) :=
  match xs with
  | [] => mret []
  | x :: xs' => y ← f x; ys ← mapM f xs'; mret (y :: ys)
  end.

Definition sumNumerators (payoutNumerators : list BigInt.t) : BigInt.t :=
  fold_left BigInt.plus payoutNumerators bigZero.

Definition handleConditionResolution (event : ConditionResolution.t)
    : M unit :=
  let conditionId := Bytes.toHexString (ConditionResolution.conditionId event) in
  condition ← Condition_load conditionId;
  match condition with
  | None => log_error "could not find condition {} to resolve" [conditionId]
  | Some condition =>
      global ← requireGlobal;
      let global :=
        Global.mk (Global.id global) (Global.numConditions global)
          (I32.sub (Global.numOpenConditions global) 1)
          (I32.add (Global.numClosedConditions global) 1)
          (Global.numTraders global) (Global.tradesQuantity global)
          (Global.buysQuantity global) (Global.sellsQuantity global)
          (Global.collateralVolume global)
          (Global.scaledCollateralVolume global)
          (Global.collateralFees global) (Global.scaledCollateralFees global)
          (Global.collateralBuyVolume global)
          (Global.scaledCollateralBuyVolume global)
          (Global.collateralSellVolume global)
          (Global.scaledCollateralSellVolume global)
          (Global.openInterest global) (Global.scaledOpenInterest global) in
      Global_save global;;
      let payoutNumerators := ConditionResolution.payoutNumerators event in
      let payoutDenominator := sumNumerators payoutNumerators in
      let payoutDenominatorDec := BigInt.toBigDecimal payoutDenominator in
      payouts ← mapM (fun numerator =>
                        require DivisionByZero
                          (BigInt.divDecimal numerator payoutDenominatorDec))
                     payoutNumerators;
      Condition_save
        (Condition.mk (Condition.id condition) (Condition.oracle condition)
           (Condition.questionId condition)
           (Condition.fixedProductMarketMakers condition)
           (Condition.outcomeSlotCount condition)
           (Some (Event.block_timestamp (ConditionResolution.event event)))
           (Some payouts) (Some payoutNumerators) (Some payoutDenominator)
           (Some (Event.transaction_hash (ConditionResolution.event event))))
  end.

(** ** NegRiskAdapterMapping

    The handlers of the NegRiskAdapter's own PositionSplit and
    PositionsMerge events: an audit row per transaction, over the fixed
    partition [1, 2], and no ledger operation.  (The conversion and
    market-preparation handlers of that mapping write entity types that
    play no part in the ledger and are left out.) *)

Module NegRiskAdapterMapping.

Module PositionSplit.
Record t := mk {
event : Event.t;
stakeholder : Bytes.t;
conditionId : Bytes.t;
amount : BigInt.t
}.
End PositionSplit.

Module PositionsMerge.
Record t := mk {
event : Event.t;
stakeholder : Bytes.t;
conditionId : Bytes.t;
amount : BigInt.t
}.
End PositionsMerge.

(** [ByteArray.fromI32(0)]: the four bytes of the [i32] zero. *)
Definition zeroCollectionId : Bytes.t :=
[Byte.x00; Byte.x00; Byte.x00; Byte.x00].

Definition handlePositionSplit (contracts : Contracts)
  (event : PositionSplit.t) : M unit :=
requireAccount (Bytes.toHexString (PositionSplit.stakeholder event))
               (Event.block_timestamp (PositionSplit.event event));;
markAccountAsSeen (Bytes.toHexString (PositionSplit.stakeholder event))
                  (Event.block_timestamp (PositionSplit.event event));;
Split_save
  (Split.mk
     (Bytes.toHexString (Event.transaction_hash (PositionSplit.event event)))
     (Event.block_timestamp (PositionSplit.event event))
     (Bytes.toHexString (PositionSplit.stakeholder event))
     (USDC_address contracts)
     zeroCollectionId
     (Bytes.toHexString (PositionSplit.conditionId event))
     [BigInt.fromI32 1; BigInt.fromI32 2]
     (PositionSplit.amount event)).

Definition handlePositionsMerge (contracts : Contracts)
  (event : PositionsMerge.t) : M unit :=
requireAccount (Bytes.toHexString (PositionsMerge.stakeholder event))
               (Event.block_timestamp (PositionsMerge.event event));;
markAccountAsSeen (Bytes.toHexString (PositionsMerge.stakeholder event))
                  (Event.block_timestamp (PositionsMerge.event event));;
Merge_save
  (Merge.mk
     (Bytes.toHexString (Event.transaction_hash (PositionsMerge.event event)))
     (Event.block_timestamp (PositionsMerge.event event))
     (Bytes.toHexString (PositionsMerge.stakeholder event))
     (USDC_address contracts)
     zeroCollectionId
     (Bytes.toHexString (PositionsMerge.conditionId event))
     [BigInt.fromI32 1; BigInt.fromI32 2]
     (PositionsMerge.amount event)).

End NegRiskAdapterMapping.

(** ** Liquidity events of the market maker *)

Module FPMMFundingAdded.
Record t := mk {
event : Event.t;
funder : Bytes.t;
amountsAdded : list BigInt.t;
sharesMinted : BigInt.t
}.
End FPMMFundingAdded.

Module FPMMFundingRemoved.
Record t := mk {
event : Event.t;
funder : Bytes.t;
amountsRemoved : list BigInt.t;
collateralRemovedFromFeePool : BigInt.t;
sharesBurnt : BigInt.t
}.
End FPMMFundingRemoved.

(** Modelled from the spec: [max] (utils/maths) is not among the sources.
    The spec's numeric helper "max-of-array".  On an empty array its value
    does not matter to its one caller, whose loops do not run then; it is
    taken as zero. *)
Definition max (array : list BigInt.t) : BigInt.t :=
  match array with
  | [] => bigZero
  | x :: xs => fold_left Z.max xs x
  end.

(** Modelled from the spec: [increment] (utils/maths) is not among the
    sources.  The spec's numeric helper "increment", on an unbounded
    integer: one more. *)
Definition increment (num : BigInt.t) : BigInt.t := BigInt.plus num 1.

(** ** utils/market-positions-utils: liquidity *)

Section LiquidityAdded.
(** [refundedAmount.toBigDecimal().times(price).truncate(0).digits]: the
  host's decimal product cut to an integer and read through its digit
  representation.  The mapping only adds the result to valueBought; it
  is kept as a parameter. *)
Variable refundValueOf : BigInt.t -> Qc -> BigInt.t.

(** The body of the second loop of
  [updateMarketPositionFromLiquidityAdded]. *)
Definition liquidityAddedOutcome (funder fpmmAddress : string)
  (amountsAdded : list BigInt.t) (addedFunds : BigInt.t)
  (outcomeTokenPrices : list Qc) (outcomeIndex : Z) : M unit :=
amountAdded ← arrayGet amountsAdded outcomeIndex;
let refundedAmount := BigInt.minus addedFunds amountAdded in
if BigInt.gt refundedAmount bigZero then
  position ← getMarketPosition funder fpmmAddress
                               (BigInt.fromI32 outcomeIndex);
  let position :=
    withQuantityBought
      (BigInt.plus (MarketPosition.quantityBought position) refundedAmount)
      position in
  price ← arrayGet outcomeTokenPrices outcomeIndex;
  let refundValue := refundValueOf refundedAmount price in
  let position :=
    withValueBought
      (BigInt.plus (MarketPosition.valueBought position) refundValue)
      position in
  updateNetPositionAndSave position
else mret tt.

(** The first loop only adds up the refunded amounts into a local that
  is not read again; it reads [amountsAdded] inside its bounds and
  leaves no trace. *)
Definition updateMarketPositionFromLiquidityAdded
  (event : FPMMFundingAdded.t) : M unit :=
let fpmmAddress :=
  Bytes.toHexString (Event.address (FPMMFundingAdded.event event)) in
let funder := Bytes.toHexString (FPMMFundingAdded.funder event) in
let amountsAdded := FPMMFundingAdded.amountsAdded event in
let addedFunds := max amountsAdded in
marketMaker ← FixedProductMarketMaker_load fpmmAddress;
marketMaker ← deref marketMaker;
let outcomeTokenPrices :=
  FixedProductMarketMaker.outcomeTokenPrices marketMaker in
forEach (seqZ 0 (Z.of_nat (length amountsAdded)))
        (liquidityAddedOutcome funder fpmmAddress amountsAdded addedFunds
                               outcomeTokenPrices).
End LiquidityAdded.

(** The body of the loop of [updateMarketPositionFromLiquidityRemoved]. *)
Definition liquidityRemovedOutcome (funder fpmmAddress : string)
    (amountsRemoved : list BigInt.t) (pricePaidForTokens : BigInt.t)
    (outcomeIndex : Z) : M unit :=
  position ← getMarketPosition funder fpmmAddress
                               (BigInt.fromI32 outcomeIndex);
  amountRemoved ← arrayGet amountsRemoved outcomeIndex;
  let position :=
    withQuantityBought
      (BigInt.plus (MarketPosition.quantityBought position) amountRemoved)
      position in
  let position :=
    withValueBought
      (BigInt.plus (MarketPosition.valueBought position) pricePaidForTokens)
      position in
  updateNetPositionAndSave position.

Definition updateMarketPositionFromLiquidityRemoved
    (event : FPMMFundingRemoved.t) : M unit :=
  let fpmmAddress :=
    Bytes.toHexString (Event.address (FPMMFundingRemoved.event event)) in
  let funder := Bytes.toHexString (FPMMFundingRemoved.funder event) in
  let amountsRemoved := FPMMFundingRemoved.amountsRemoved event in
  let sharesBurnt := FPMMFundingRemoved.sharesBurnt event in
  pricePaidForTokens ←
    require DivisionByZero
      (BigInt.div sharesBurnt
                  (BigInt.fromI32 (Z.of_nat (length amountsRemoved))));
  forEach (seqZ 0 (Z.of_nat (length amountsRemoved)))
          (liquidityRemovedOutcome funder fpmmAddress amountsRemoved
                                   pricePaidForTokens).

(** ** utils/global-utils: the aggregate *)

(** The transaction-type constants of utils/constants, which the build
    supplies. *)
Record Constants := mkConstants {
  TRADE_TYPE_BUY : string;
  TRADE_TYPE_SELL : string;
  SPLIT_SHARES : string;
  MERGE_SHARES : string;
  PAYOUT_REDEMPTION : string;
  ADD_FUNDING : string
}.


Definition withOpenInterest (v : BigInt.t) (scaled : Qc) (g : Global.t)
    : Global.t :=
  Global.mk (Global.id g) (Global.numConditions g)
    (Global.numOpenConditions g) (Global.numClosedConditions g)
    (Global.numTraders g) (Global.tradesQuantity g) (Global.buysQuantity g)
    (Global.sellsQuantity g) (Global.collateralVolume g)
    (Global.scaledCollateralVolume g) (Global.collateralFees g)
    (Global.scaledCollateralFees g) (Global.collateralBuyVolume g)
    (Global.scaledCollateralBuyVolume g) (Global.collateralSellVolume g)
    (Global.scaledCollateralSellVolume g) v scaled.

(** Volume and fees, and the count of trades. *)
Definition withVolume (volume : BigInt.t) (scaledVolume : Qc)
    (fees : BigInt.t) (scaledFees : Qc) (trades : BigInt.t) (g : Global.t)
    : Global.t :=
  Global.mk (Global.id g) (Global.numConditions g)
    (Global.numOpenConditions g) (Global.numClosedConditions g)
    (Global.numTraders g) trades (Global.buysQuantity g)
    (Global.sellsQuantity g) volume scaledVolume fees scaledFees
    (Global.collateralBuyVolume g)
    (Global.scaledCollateralBuyVolume g) (Global.collateralSellVolume g)
    (Global.scaledCollateralSellVolume g) (Global.openInterest g)
    (Global.scaledOpenInterest g).

Definition withBuys (buys volume : BigInt.t) (scaledVolume : Qc)
    (g : Global.t) : Global.t :=
  Global.mk (Global.id g) (Global.numConditions g)
    (Global.numOpenConditions g) (Global.numClosedConditions g)
    (Global.numTraders g) (Global.tradesQuantity g) buys
    (Global.sellsQuantity g) (Global.collateralVolume g)
    (Global.scaledCollateralVolume g) (Global.collateralFees g)
    (Global.scaledCollateralFees g) volume scaledVolume
    (Global.collateralSellVolume g)
    (Global.scaledCollateralSellVolume g) (Global.openInterest g)
    (Global.scaledOpenInterest g).

Definition withSells (sells volume : BigInt.t) (scaledVolume : Qc)
    (g : Global.t) : Global.t :=
  Global.mk (Global.id g) (Global.numConditions g)
    (Global.numOpenConditions g) (Global.numClosedConditions g)
    (Global.numTraders g) (Global.tradesQuantity g) (Global.buysQuantity g)
    sells (Global.collateralVolume g)
    (Global.scaledCollateralVolume g) (Global.collateralFees g)
    (Global.scaledCollateralFees g) (Global.collateralBuyVolume g)
    (Global.scaledCollateralBuyVolume g) volume scaledVolume
    (Global.openInterest g) (Global.scaledOpenInterest g).


Section GlobalUtils.
Variable constants : Constants.

Definition updateGlobalVolume (tradeAmount feesAmount : BigInt.t)
  (collateralScaleDec : Qc) (tradeType : string) : M unit :=
global ← requireGlobal;
let collateralVolume :=
  BigInt.plus (Global.collateralVolume global) tradeAmount in
scaledCollateralVolume ←
  require DivisionByZero
    (BigInt.divDecimal collateralVolume collateralScaleDec);
let collateralFees :=
  BigInt.plus (Global.collateralFees global) feesAmount in
scaledCollateralFees ←
  require DivisionByZero
    (BigInt.divDecimal collateralFees collateralScaleDec);
let global :=
  withVolume collateralVolume scaledCollateralVolume
             collateralFees scaledCollateralFees
             (increment (Global.tradesQuantity global)) global in
global ←
  (if String.eqb tradeType (TRADE_TYPE_BUY constants) then
     let collateralBuyVolume :=
       BigInt.plus (Global.collateralBuyVolume global) tradeAmount in
     scaled ← require DivisionByZero
                (BigInt.divDecimal collateralBuyVolume collateralScaleDec);
     mret (withBuys (increment (Global.buysQuantity global))
                    collateralBuyVolume scaled global)
   else if String.eqb tradeType (TRADE_TYPE_SELL constants) then
     let collateralSellVolume :=
       BigInt.plus (Global.collateralSellVolume global) tradeAmount in
     scaled ← require DivisionByZero
                (BigInt.divDecimal collateralSellVolume collateralScaleDec);
     mret (withSells (increment (Global.sellsQuantity global))
                     collateralSellVolume scaled global)
   else mret global);
Global_save global.

Definition updateGlobalOpenInterest (amount : BigInt.t)
  (transactionType : string) : M unit :=
global ← requireGlobal;
let global :=
  if String.eqb transactionType (TRADE_TYPE_BUY constants)
     || String.eqb transactionType (SPLIT_SHARES constants)
     || String.eqb transactionType (ADD_FUNDING constants)
  then
    withOpenInterest
      (BigInt.plus (Global.openInterest global) amount)
      (Global.scaledOpenInterest global + BigInt.toBigDecimal amount)%Qc
      global
  else if String.eqb transactionType (TRADE_TYPE_SELL constants)
          || String.eqb transactionType (MERGE_SHARES constants)
          || String.eqb transactionType (PAYOUT_REDEMPTION constants)
  then
    withOpenInterest
      (BigInt.minus (Global.openInterest global) amount)
      (Global.scaledOpenInterest global - BigInt.toBigDecimal amount)%Qc
      global
  else global in
Global_save global.
End GlobalUtils.
(** * Vocabulary of the statements *)

(** The record [getMarketPosition] makes up for a key not in the store. *)
Definition freshPosition (user market : string) (outcomeIndex : BigInt.t)
    : MarketPosition.t :=
  MarketPosition.mk (positionId user market outcomeIndex) market user
                    outcomeIndex bigZero bigZero bigZero bigZero bigZero
                    bigZero.

(** What [getMarketPosition] returns in [w]. *)
Definition positionOf (w : World) (user market : string)
    (outcomeIndex : BigInt.t) : MarketPosition.t :=
  default (freshPosition user market outcomeIndex)
          (marketPositions w !! positionId user market outcomeIndex).

(** The report of [updateNetPositionAndSave] on a negative net quantity. *)
Definition negativeNetQuantityReport (p : MarketPosition.t) : Log.entry :=
  Log.mk Log.Error
    "Invalid position: user {} has negative netQuantity on outcome {} on market {}"
    [MarketPosition.user p;
     BigInt.toString (MarketPosition.outcomeIndex p);
     MarketPosition.market p].

(** The store after [updateNetPositionAndSave p]. *)
Definition savePosition (p : MarketPosition.t) (w : World) : World :=
  setMarketPositions (insert (MarketPosition.id p) (withNet p))
    (if BigInt.lt (MarketPosition.netQuantity (withNet p)) bigZero
     then appendLog (negativeNetQuantityReport p) w
     else w).

(** The four cumulative balances are zero. *)
Definition balancesZero (p : MarketPosition.t) : Prop :=
  MarketPosition.quantityBought p = 0 /\ MarketPosition.quantitySold p = 0 /\
  MarketPosition.valueBought p = 0 /\ MarketPosition.valueSold p = 0.

(** A stored position sits under its own id and its derived fields are
    up to date. *)
Definition positionWellFormed (key : string) (p : MarketPosition.t) : Prop :=
  MarketPosition.id p = key /\
  MarketPosition.netQuantity p
    = MarketPosition.quantityBought p - MarketPosition.quantitySold p /\
  MarketPosition.netValue p
    = MarketPosition.valueBought p - MarketPosition.valueSold p.

(** The store as graph-node and the ledger keep it: every entity under its
    own id, every position with fresh derived fields. *)
Definition wellFormed (w : World) : Prop :=
  (forall key p, marketPositions w !! key = Some p ->
                 positionWellFormed key p) /\
  (forall key c, conditions w !! key = Some c -> Condition.id c = key).

(** The change one leg of a split, of a merge, of a redemption makes to
    the cumulative balances of a position. *)
Definition splitLeg (amount totalSlots : Z) (p : MarketPosition.t) :=
  withValueBought (MarketPosition.valueBought p + amount ÷ totalSlots)
    (withQuantityBought (MarketPosition.quantityBought p + amount) p).

Definition mergeLeg (amount totalSlots : Z) (p : MarketPosition.t) :=
  withValueSold (MarketPosition.valueSold p + amount ÷ totalSlots)
    (withQuantitySold (MarketPosition.quantitySold p + amount) p).

Definition redeemLeg (numerator denominator : Z) (p : MarketPosition.t) :=
  withValueSold
    (MarketPosition.valueSold p
     + (MarketPosition.netQuantity p * numerator) ÷ denominator)
    (withQuantitySold
       (MarketPosition.quantitySold p + MarketPosition.netQuantity p) p).


(** The audit rows the handlers write. *)
Definition splitOf (event : PositionSplit.t) : Split.t :=
  Split.mk (getEventKey (PositionSplit.event event))
           (Event.block_timestamp (PositionSplit.event event))
           (Bytes.toHexString (PositionSplit.stakeholder event))
           (Bytes.toHexString (PositionSplit.collateralToken event))
           (PositionSplit.parentCollectionId event)
           (Bytes.toHexString (PositionSplit.conditionId event))
           (PositionSplit.partition event)
           (PositionSplit.amount event).

Definition mergeOf (event : PositionsMerge.t) : Merge.t :=
  Merge.mk (getEventKey (PositionsMerge.event event))
           (Event.block_timestamp (PositionsMerge.event event))
           (Bytes.toHexString (PositionsMerge.stakeholder event))
           (Bytes.toHexString (PositionsMerge.collateralToken event))
           (PositionsMerge.parentCollectionId event)
           (Bytes.toHexString (PositionsMerge.conditionId event))
           (PositionsMerge.partition event)
           (PositionsMerge.amount event).

Definition redemptionOf (event : PayoutRedemption.t) : Redemption.t :=
  Redemption.mk (getEventKey (PayoutRedemption.event event))
                (Event.block_timestamp (PayoutRedemption.event event))
                (Bytes.toHexString (PayoutRedemption.redeemer event))
                (Bytes.toHexString (PayoutRedemption.collateralToken event))
                (PayoutRedemption.parentCollectionId event)
                (Bytes.toHexString (PayoutRedemption.conditionId event))
                (PayoutRedemption.indexSets event)
                (PayoutRedemption.payout event).

(** The stakeholders whose splits and merges the handlers skip: a tracked
    market maker, the NegRiskAdapter, the exchange. *)
Definition filteredStakeholder (contracts : Contracts) (w : World)
    (stakeholder : Bytes.t) : Prop :=
  is_Some (marketMakers w !! Bytes.toHexString stakeholder) \/
  Bytes.toHexString stakeholder = NegRiskAdapter_address contracts \/
  Bytes.toHexString stakeholder = Exchange_address contracts.

Definition trackedStakeholder (contracts : Contracts) (w : World)
    (stakeholder : Bytes.t) : Prop :=
  marketMakers w !! Bytes.toHexString stakeholder = None /\
  Bytes.toHexString stakeholder <> NegRiskAdapter_address contracts /\
  Bytes.toHexString stakeholder <> Exchange_address contracts.

(** Two stores that differ in the accounts at most. *)
Definition sameButAccounts (w w' : World) : Prop :=
  w' = setAccounts (fun _ => accounts w') w.

(** The record under [key], or one with zero balances when there is none:
    what the ledger starts from at that key. *)
Definition storedAt (w : World) (key : string) : MarketPosition.t :=
  default (MarketPosition.mk key "" "" 0 bigZero bigZero bigZero bigZero
                             bigZero bigZero)
          (marketPositions w !! key).

(** [p] is the record of [key] in [w] after a redemption: the whole net
    quantity has gone to quantitySold. *)
Definition redeemedFrom (w : World) (key : string) (p : MarketPosition.t)
    : Prop :=
  MarketPosition.netQuantity p = 0 /\
  MarketPosition.quantityBought p
    = MarketPosition.quantityBought (storedAt w key) /\
  MarketPosition.quantitySold p
    = MarketPosition.quantitySold (storedAt w key)
      + MarketPosition.netQuantity (storedAt w key).

(** A computation that keeps the store well formed, however it ends. *)
Definition preserves (c : M unit) : Prop :=
  forall w, wellFormed w -> wellFormed (finalWorld (c w)).

(** The index sets the redemption loop can handle: an unsigned value up to
    [2^30] whose outcome index is inside the payout vector. *)
Definition redeemable (payoutNumerators : list BigInt.t) (s : BigInt.t)
    : Prop :=
  0 <= s <= 2 ^ 30 /\
  (Z.to_nat (Z.log2_up s) < length payoutNumerators)%nat.

(** What one pass of a loop over outcome indices writes for index [i]:
    the changed record, when the pass touches the position at all. *)
Definition legAt (leg : Z -> option (MarketPosition.t -> MarketPosition.t))
    (user market : string) (w : World) (i : Z) : option MarketPosition.t :=
  match leg i with
  | Some change => Some (change (positionOf w user market i))
  | None => None
  end.

Definition indexedStep
    (leg : Z -> option (MarketPosition.t -> MarketPosition.t))
    (user market : string) (i : Z) (w : World) : World :=
  match legAt leg user market w i with
  | Some p => savePosition p w
  | None => w
  end.

(** The log entries [updateNetPositionAndSave p] adds. *)
Definition reportIfNegative (p : MarketPosition.t) : list Log.entry :=
  if BigInt.lt (MarketPosition.netQuantity (withNet p)) bigZero
  then [negativeNetQuantityReport p]
  else [].

(** Nothing but positions and the log differs between [w] and [w']. *)
Definition onlyLedgerChanged (w w' : World) : Prop :=
  conditions w' = conditions w /\ marketMakers w' = marketMakers w /\
  transactions w' = transactions w /\ splits w' = splits w /\
  merges w' = merges w /\ redemptions w' = redemptions w /\
  accounts w' = accounts w /\ globals w' = globals w.

(** The legs of a trade, of a liquidity removal, of a liquidity
    addition. *)
Definition buyLeg (quantity value : Z) (p : MarketPosition.t) :=
  withValueBought (MarketPosition.valueBought p + value)
    (withQuantityBought (MarketPosition.quantityBought p + quantity) p).

Definition sellLeg (quantity value : Z) (p : MarketPosition.t) :=
  withValueSold (MarketPosition.valueSold p + value)
    (withQuantitySold (MarketPosition.quantitySold p + quantity) p).


(** The Global record [requireGlobal] hands out in [w]. *)
Definition globalOf (w : World) : Global.t :=
  default (Global.mk "" 0 0 0 bigZero bigZero bigZero bigZero
             bigZero (BigInt.toBigDecimal bigZero)
             bigZero (BigInt.toBigDecimal bigZero)
             bigZero (BigInt.toBigDecimal bigZero)
             bigZero (BigInt.toBigDecimal bigZero)
             bigZero (BigInt.toBigDecimal bigZero))
          (globals w !! "").


(** The Global record, when there is one, sits under its own id, the
    empty string. *)
Definition globalKeyed (w : World) : Prop :=
  forall g, globals w !! "" = Some g -> Global.id g = "".


(** A computation that writes positions and log entries only, however it
    ends. *)
Definition ledgerOnly {A} (c : M A) : Prop :=
  forall w, onlyLedgerChanged w (finalWorld (c w)).

(** The condition as [handleConditionResolution] stores it, and the
    Global record with one condition moved from open to closed. *)
Definition resolvedAs (c : Condition.t) (event : ConditionResolution.t)
    (payouts : list Qc) : Condition.t :=
  Condition.mk (Condition.id c) (Condition.oracle c) (Condition.questionId c)
    (Condition.fixedProductMarketMakers c) (Condition.outcomeSlotCount c)
    (Some (Event.block_timestamp (ConditionResolution.event event)))
    (Some payouts)
    (Some (ConditionResolution.payoutNumerators event))
    (Some (sumNumerators (ConditionResolution.payoutNumerators event)))
    (Some (Event.transaction_hash (ConditionResolution.event event))).

Definition oneConditionClosed (g : Global.t) : Global.t :=
  Global.mk (Global.id g) (Global.numConditions g)
    (I32.sub (Global.numOpenConditions g) 1)
    (I32.add (Global.numClosedConditions g) 1)
    (Global.numTraders g) (Global.tradesQuantity g)
    (Global.buysQuantity g) (Global.sellsQuantity g)
    (Global.collateralVolume g) (Global.scaledCollateralVolume g)
    (Global.collateralFees g) (Global.scaledCollateralFees g)
    (Global.collateralBuyVolume g) (Global.scaledCollateralBuyVolume g)
    (Global.collateralSellVolume g) (Global.scaledCollateralSellVolume g)
    (Global.openInterest g) (Global.scaledOpenInterest g).

(** The audit rows the NegRiskAdapter handlers write: keyed by the
    transaction hash, over USDC, the zero collection and the partition
    [1, 2]. *)
Definition adapterSplitOf (contracts : Contracts)
    (event : NegRiskAdapterMapping.PositionSplit.t) : Split.t :=
  Split.mk
    (Bytes.toHexString
       (Event.transaction_hash (NegRiskAdapterMapping.PositionSplit.event event)))
    (Event.block_timestamp (NegRiskAdapterMapping.PositionSplit.event event))
    (Bytes.toHexString (NegRiskAdapterMapping.PositionSplit.stakeholder event))
    (USDC_address contracts)
    NegRiskAdapterMapping.zeroCollectionId
    (Bytes.toHexString (NegRiskAdapterMapping.PositionSplit.conditionId event))
    [BigInt.fromI32 1; BigInt.fromI32 2]
    (NegRiskAdapterMapping.PositionSplit.amount event).

Definition adapterMergeOf (contracts : Contracts)
    (event : NegRiskAdapterMapping.PositionsMerge.t) : Merge.t :=
  Merge.mk
    (Bytes.toHexString
       (Event.transaction_hash (NegRiskAdapterMapping.PositionsMerge.event event)))
    (Event.block_timestamp (NegRiskAdapterMapping.PositionsMerge.event event))
    (Bytes.toHexString (NegRiskAdapterMapping.PositionsMerge.stakeholder event))
    (USDC_address contracts)
    NegRiskAdapterMapping.zeroCollectionId
    (Bytes.toHexString (NegRiskAdapterMapping.PositionsMerge.conditionId event))
    [BigInt.fromI32 1; BigInt.fromI32 2]
    (NegRiskAdapterMapping.PositionsMerge.amount event).
(** * Sample data *)

Definition sampleContracts : Contracts :=
  mkContracts "0xa1" "0xe2" "0xa3" "0x0c".

Definition sampleEvent : Event.t :=
  Event.mk [Byte.xc7] 7 1700000000 [Byte.xab; Byte.xcd].

Definition sampleCondition : Condition.t :=
  Condition.mk "0xc0" [Byte.x0a] [Byte.x0b] ["0x01"] 2
               None None None None None.

Definition sampleMarketMaker : FixedProductMarketMaker.t :=
  FixedProductMarketMaker.mk "0x01" 2 [].

(** One condition with two outcome slots and its one market maker. *)
Definition sampleWorld : World :=
  mkWorld ∅ {["0xc0" := sampleCondition]} {["0x01" := sampleMarketMaker]}
          ∅ ∅ ∅ ∅ ∅ ∅ [].

(** A split of 10 by the account [0x05], over the full partition. *)
Definition sampleSplit : PositionSplit.t :=
  PositionSplit.mk sampleEvent [Byte.x05] [Byte.x0c] [] [Byte.xc0] [1; 2] 10.

Definition sampleMerge : PositionsMerge.t :=
  PositionsMerge.mk sampleEvent [Byte.x05] [Byte.x0c] [] [Byte.xc0] [1; 2] 10.

(** The same split and merge, made by the market maker itself. *)
Definition marketMakerSplit : PositionSplit.t :=
  PositionSplit.mk sampleEvent [Byte.x01] [Byte.x0c] [] [Byte.xc0] [1; 2] 10.

Definition marketMakerMerge : PositionsMerge.t :=
  PositionsMerge.mk sampleEvent [Byte.x01] [Byte.x0c] [] [Byte.xc0] [1; 2] 10.

Definition sampleResolution : ConditionResolution.t :=
  ConditionResolution.mk sampleEvent [Byte.xc0] [Byte.x0a] [Byte.x0b] 2 [3; 1].

(** A redemption of outcome 0 by the account [0x05]; the event reports a
    payout of 1. *)
Definition sampleRedemption : PayoutRedemption.t :=
  PayoutRedemption.mk sampleEvent [Byte.x05] [Byte.x0c] [] [Byte.xc0] [1] 1.

(** The sample condition once resolved with numerators [3, 1], and a
    store in which the account [0x05] holds 100 of outcome 0. *)
Definition resolvedCondition : Condition.t :=
  Condition.mk "0xc0" [Byte.x0a] [Byte.x0b] ["0x01"] 2
               (Some 1700000000)
               (Some [Q2Qc (75 # 100); Q2Qc (25 # 100)])
               (Some [3; 1]) (Some 4) (Some [Byte.xab; Byte.xcd]).

Definition heldPosition : MarketPosition.t :=
  MarketPosition.mk "0x050x010" "0x01" "0x05" 0 100 0 100 50 0 50.

Definition holderWorld : World :=
  mkWorld {["0x050x010" := heldPosition]} {["0xc0" := sampleCondition]}
          {["0x01" := sampleMarketMaker]} ∅ ∅ ∅ ∅ ∅ ∅ [].

Definition resolvedWorld : World :=
  mkWorld {["0x050x010" := heldPosition]} {["0xc0" := resolvedCondition]}
          {["0x01" := sampleMarketMaker]} ∅ ∅ ∅ ∅ ∅ ∅ [].

(** A buy of 7 outcome tokens for 3 of collateral by the account [0x05],
    recorded under the hash of the sample event. *)
Definition sampleTransaction : Transaction.t :=
  Transaction.mk "0xabcd" "Buy" "0x05" "0x01" 0 7 3.

Definition tradeWorld : World :=
  mkWorld ∅ {["0xc0" := sampleCondition]} {["0x01" := sampleMarketMaker]}
          {["0xabcd" := sampleTransaction]} ∅ ∅ ∅ ∅ ∅ [].


(** A condition of three outcomes resolved to outcome 0, and a redemption
    of outcomes 0 and 2 in one index set, 5. *)
Definition threeWayCondition : Condition.t :=
  Condition.mk "0xc3" [Byte.x0a] [Byte.x0b] ["0x01"] 3
               (Some 1700000000)
               (Some [Q2Qc 1; Q2Qc 0; Q2Qc 0])
               (Some [1; 0; 0]) (Some 1) (Some [Byte.xab; Byte.xcd]).

Definition threeWayWorld : World :=
  mkWorld ∅ {["0xc3" := threeWayCondition]} {["0x01" := sampleMarketMaker]}
          ∅ ∅ ∅ ∅ ∅ ∅ [].

Definition maskFiveRedemption : PayoutRedemption.t :=
  PayoutRedemption.mk sampleEvent [Byte.x05] [Byte.x0c] [] [Byte.xc3] [5] 1.

(** The market maker [0xc7], which emits the sample event, with prices
    one half each; a funding that adds 10 and 4 of the two outcome
    tokens, and a removal of 6 and 2 for 9 shares. *)
Definition pricedMarketMaker : FixedProductMarketMaker.t :=
  FixedProductMarketMaker.mk "0xc7" 2 [Q2Qc (1 # 2); Q2Qc (1 # 2)].

Definition fundingWorld : World :=
  mkWorld ∅ ∅ {["0xc7" := pricedMarketMaker]} ∅ ∅ ∅ ∅ ∅ ∅ [].

Definition sampleFundingAdded : FPMMFundingAdded.t :=
  FPMMFundingAdded.mk sampleEvent [Byte.x05] [10; 4] 10.

Definition balancedFundingAdded : FPMMFundingAdded.t :=
  FPMMFundingAdded.mk sampleEvent [Byte.x05] [10; 10] 10.

Definition sampleFundingRemoved : FPMMFundingRemoved.t :=
  FPMMFundingRemoved.mk sampleEvent [Byte.x05] [6; 2] 0 9.

Definition emptyFundingRemoved : FPMMFundingRemoved.t :=
  FPMMFundingRemoved.mk sampleEvent [Byte.x05] [] 0 9.

(** [amount.toBigDecimal().times(price).truncate(0).digits] on exact
    rationals.  The host keeps a decimal as digits and exponent without
    trailing zeros, and [truncate(0)] drops the digits of a negative
    exponent only.  So a product with a fractional part comes out cut
    to its integer part, and a product that is a whole number comes out
    as its digits without the trailing zeros: 3 for 30. *)
Fixpoint stripZeros (fuel : nat) (digits : Z) : Z :=
  match fuel with
  | O => digits
  | S fuel' =>
      if (digits =? 0) || negb (Z.rem digits 10 =? 0) then digits
      else stripZeros fuel' (digits ÷ 10)
  end.

Definition sampleRefundValue (amount : BigInt.t) (price : Qc) : BigInt.t :=
  let q := (BigInt.toBigDecimal amount * price)%Qc in
  if (Qden q =? 1)%positive
  then stripZeros (Z.to_nat (Z.log2_up (Z.abs (Qnum q)))) (Qnum q)
  else Qnum q ÷ Z.pos (Qden q).

Definition sampleConstants : Constants :=
  mkConstants "Buy" "Sell" "Split" "Merge" "Redemption" "AddFunding".


(** A resolution whose numerators are all zero, and a later resolution of
    the sample condition the other way round. *)
Definition zeroResolution : ConditionResolution.t :=
  ConditionResolution.mk sampleEvent [Byte.xc0] [Byte.x0a] [Byte.x0b] 2 [0; 0].

Definition secondResolution : ConditionResolution.t :=
  ConditionResolution.mk sampleEvent [Byte.xc0] [Byte.x0a] [Byte.x0b] 2 [1; 3].

(** A split and a merge of the account [0x05] over the first outcome
    alone, which is no full partition of the two slots. *)
Definition partialSplit : PositionSplit.t :=
  PositionSplit.mk sampleEvent [Byte.x05] [Byte.x0c] [] [Byte.xc0] [1] 10.

Definition partialMerge : PositionsMerge.t :=
  PositionsMerge.mk sampleEvent [Byte.x05] [Byte.x0c] [] [Byte.xc0] [1] 10.

(** Redemptions by the one filtered address and by the market maker. *)
Definition adapterRedemption : PayoutRedemption.t :=
  PayoutRedemption.mk sampleEvent [Byte.xa3] [Byte.x0c] [] [Byte.xc0] [1] 1.

Definition marketMakerRedemption : PayoutRedemption.t :=
  PayoutRedemption.mk sampleEvent [Byte.x01] [Byte.x0c] [] [Byte.xc0] [1] 1.

(** Two splits and two merges through the NegRiskAdapter in one
    transaction, at log indices 7 and 8. *)
Definition laterEvent : Event.t :=
  Event.mk [Byte.xc7] 8 1700000000 [Byte.xab; Byte.xcd].

Definition adapterSplit : NegRiskAdapterMapping.PositionSplit.t :=
  NegRiskAdapterMapping.PositionSplit.mk sampleEvent [Byte.x05] [Byte.xc0] 10.

Definition laterAdapterSplit : NegRiskAdapterMapping.PositionSplit.t :=
  NegRiskAdapterMapping.PositionSplit.mk laterEvent [Byte.x06] [Byte.xc0] 25.

Definition adapterMerge : NegRiskAdapterMapping.PositionsMerge.t :=
  NegRiskAdapterMapping.PositionsMerge.mk sampleEvent [Byte.x05] [Byte.xc0] 10.

Definition laterAdapterMerge : NegRiskAdapterMapping.PositionsMerge.t :=
  NegRiskAdapterMapping.PositionsMerge.mk laterEvent [Byte.x06] [Byte.xc0] 25.

(** * Properties *)

(** ** Running a computation *)

Lemma bind_ok {A B} (c : M A) (k : A -> M B) (w w' : World) (a : A) :
  c w = Ok a w' -> (c ≫= k) w = k a w'.
Proof. intros H. unfold mbind, M_bind, bind. by rewrite H. Qed.

Lemma bind_abort {A B} (c : M A) (k : A -> M B) (w w' : World) f :
  c w = Abort f w' -> (c ≫= k) w = Abort f w'.
Proof. intros H. unfold mbind, M_bind, bind. by rewrite H. Qed.

(** ** The index-set loop *)

Section IndexSetLoop.

Lemma wrap_fits (x : Z) : I32.fits x -> I32.wrap x = x.
Proof.
  unfold I32.fits, I32.min_int, I32.max_int, I32.wrap. intros H.
  rewrite Z.mod_small; lia.
Qed.

Lemma shl_one (k : Z) : 0 <= k <= 30 -> I32.shl 1 k = 2 ^ k.
Proof.
  intros Hk. unfold I32.shl.
  change 31 with (Z.ones 5). rewrite Z.land_ones by lia.
  rewrite Z.mod_small by (change (2 ^ 5) with 32; lia).
  rewrite Z.shiftl_1_l. apply wrap_fits.
  unfold I32.fits, I32.min_int, I32.max_int.
  assert (2 ^ k <= 2 ^ 30) by (apply Z.pow_le_mono_r; lia).
  assert (0 < 2 ^ k) by (apply Z.pow_pos_nonneg; lia).
  change (2 ^ 31) with 2147483648. change (2 ^ 30) with 1073741824 in *.
  lia.
Qed.

(** Whatever the counter, [1 << outcomeIndex] is one of
    [2^0 .. 2^30] or [-2^31]: never above [2^30]. *)
Lemma shl_one_le (oi : Z) : I32.shl 1 oi <= 2 ^ 30.
Proof.
  unfold I32.shl. change 31 with (Z.ones 5). rewrite Z.land_ones by lia.
  change (2 ^ 5) with 32.
  assert (Hr : 0 <= oi mod 32 < 32) by (apply Z.mod_pos_bound; lia).
  assert (Hall : forallb (fun j => I32.wrap (Z.shiftl 1 j) <=? 2 ^ 30)
                         (seqZ 0 32) = true) by (vm_compute; reflexivity).
  rewrite forallb_forall in Hall.
  apply Z.leb_le, Hall, list_elem_of_In, elem_of_seqZ. lia.
Qed.

Lemma add_one (oi : Z) : 0 <= oi <= 30 -> I32.add oi 1 = oi + 1.
Proof.
  intros H. apply wrap_fits. unfold I32.fits, I32.min_int, I32.max_int.
  change (2 ^ 31) with 2147483648. lia.
Qed.

(** The run from [oi] stops at the first [k >= oi] with
    [indexSet <= 2^k], provided that [k] is at most 30. *)
Lemma outcomeIndexLoop_least (fuel : nat) (x oi k : Z) :
  0 <= oi <= k -> k <= 30 ->
  (forall j, oi <= j < k -> 2 ^ j < x) ->
  x <= 2 ^ k ->
  (Z.to_nat (k - oi) < fuel)%nat ->
  outcomeIndexLoop fuel x oi = Some k.
Proof.
  revert oi. induction fuel as [|fuel IH]; intros oi Hoi Hk Hlt Hle Hf;
    [lia|].
  simpl. rewrite shl_one by lia.
  destruct (decide (oi = k)) as [->|Hne].
  - destruct (Z.ltb_spec (2 ^ k) x); [lia | done].
  - assert (2 ^ oi < x) by (apply Hlt; lia).
    destruct (Z.ltb_spec (2 ^ oi) x); [|lia].
    rewrite add_one by lia.
    apply IH; try lia. intros j Hj. apply Hlt. lia.
Qed.

(** What a finished run says about its result. *)
Lemma outcomeIndexLoop_result (fuel : nat) (x oi k : Z) :
  outcomeIndexLoop fuel x oi = Some k ->
  x <= I32.shl 1 k /\ (k = oi \/ I32.shl 1 oi < x).
Proof.
  revert oi. induction fuel as [|fuel IH]; intros oi; simpl; [done|].
  destruct (Z.ltb_spec (I32.shl 1 oi) x) as [Hlt|Hge].
  - intros H. apply IH in H as [H1 _]. auto.
  - intros [= <-]. auto.
Qed.

(** Above [2^30] the test never fails: the loop is never left. *)
Lemma outcomeIndexLoop_diverges (fuel : nat) (x oi : Z) :
  2 ^ 30 < x -> outcomeIndexLoop fuel x oi = None.
Proof.
  intros Hx. revert oi. induction fuel as [|fuel IH]; intros oi; simpl;
    [done|].
  pose proof (shl_one_le oi).
  destruct (Z.ltb_spec (I32.shl 1 oi) x); [apply IH | lia].
Qed.

Lemma outcomeIndexLoop_le_zero (fuel : nat) (x : Z) :
  x <= 1 -> outcomeIndexLoop (S fuel) x 0 = Some 0.
Proof.
  intros Hx. simpl. rewrite shl_one by lia.
  destruct (Z.ltb_spec (2 ^ 0) x) as [H|H]; [|done].
  change (2 ^ 0) with 1 in H. lia.
Qed.

Lemma log2_up_bound (x : Z) : x <= 2 ^ 30 -> Z.log2_up x <= 30.
Proof.
  intros Hx. destruct (Z.le_gt_cases x 1) as [H1|H1].
  - rewrite Z.log2_up_eqn0 by lia. lia.
  - apply Z.log2_up_le_pow2; lia.
Qed.

(** From 0, the run on [1 < x <= 2^30] stops at [log2_up x], the least
    [k] with [x <= 2^k]. *)
Lemma outcomeIndexLoop_log2_up (x : Z) :
  1 < x <= 2 ^ 30 ->
  outcomeIndexLoop outcomeIndexFuel x 0 = Some (Z.log2_up x).
Proof.
  intros Hx.
  pose proof (log2_up_bound x ltac:(lia)) as Hb.
  pose proof (Z.log2_up_nonneg x) as Hn.
  pose proof (Z.log2_up_spec x ltac:(lia)) as [Hlo Hhi].
  apply outcomeIndexLoop_least; try lia.
  - intros j Hj.
    apply Z.le_lt_trans with (2 ^ Z.pred (Z.log2_up x)); [|done].
    apply Z.pow_le_mono_r; lia.
  - unfold outcomeIndexFuel. lia.
Qed.

(** The fixed fuel loses no result. *)
Lemma outcomeIndexLoop_enough (fuel : nat) (x k : Z) :
  outcomeIndexLoop fuel x 0 = Some k ->
  outcomeIndexLoop outcomeIndexFuel x 0 = Some k.
Proof.
  intros H.
  destruct (Z.le_gt_cases x (2 ^ 30)) as [Hx|Hx];
    [|by rewrite outcomeIndexLoop_diverges in H].
  pose proof (outcomeIndexLoop_result _ _ _ _ H) as [Hle Hk].
  destruct (Z.le_gt_cases x 1) as [H1|H1].
  - destruct Hk as [->|Hk]; [by apply outcomeIndexLoop_le_zero|].
    rewrite shl_one in Hk by lia. change (2 ^ 0) with 1 in Hk. lia.
  - rewrite outcomeIndexLoop_log2_up by lia. f_equal.
    destruct fuel as [|fuel]; [done|].
    assert (Hbig : outcomeIndexLoop (S fuel + outcomeIndexFuel) x 0
                   = Some (Z.log2_up x)).
    { pose proof (log2_up_bound x Hx). pose proof (Z.log2_up_nonneg x).
      pose proof (Z.log2_up_spec x ltac:(lia)) as [Hlo Hhi].
      apply outcomeIndexLoop_least; try lia.
      - intros j Hj.
        apply Z.le_lt_trans with (2 ^ Z.pred (Z.log2_up x)); [|done].
        apply Z.pow_le_mono_r; lia.
      - unfold outcomeIndexFuel. lia. }
    assert (Hmono : forall f n y oi r,
               outcomeIndexLoop f y oi = Some r ->
               outcomeIndexLoop (f + n) y oi = Some r).
    { clear. induction f as [|f IH]; intros n y oi r; simpl; [done|].
      destruct (I32.shl 1 oi <? y); [apply IH | done]. }
    apply (Hmono _ outcomeIndexFuel) in H. congruence.
Qed.

End IndexSetLoop.

(** ** The position store *)

Section Ledger.

Lemma getMarketPosition_run user market outcomeIndex w :
  getMarketPosition user market outcomeIndex w
  = Ok (positionOf w user market outcomeIndex) w.
Proof.
  unfold getMarketPosition, positionOf, freshPosition, MarketPosition_load,
    mbind, M_bind, bind, mret, M_ret, ret.
  by destruct (marketPositions w !! _).
Qed.

Lemma updateNetPositionAndSave_run p w :
  updateNetPositionAndSave p w = Ok tt (savePosition p w).
Proof.
  unfold updateNetPositionAndSave, savePosition, MarketPosition_save,
    log_error, modify, mbind, M_bind, bind, mret, M_ret, ret,
    negativeNetQuantityReport.
  by destruct (BigInt.lt _ _).
Qed.

Lemma positionId_inj user market : Inj (=) (=) (positionId user market).
Proof.
  intros i j H. unfold positionId, BigInt.toString in H.
  apply (inj _) in H. by apply (inj pretty) in H.
Qed.

Lemma savePosition_positions p w :
  marketPositions (savePosition p w)
  = <[MarketPosition.id p := withNet p]> (marketPositions w).
Proof. unfold savePosition. by destruct (BigInt.lt _ _). Qed.

Lemma savePosition_conditions p w :
  conditions (savePosition p w) = conditions w.
Proof. unfold savePosition. by destruct (BigInt.lt _ _). Qed.

Lemma savePosition_marketMakers p w :
  marketMakers (savePosition p w) = marketMakers w.
Proof. unfold savePosition. by destruct (BigInt.lt _ _). Qed.

Lemma savePosition_splits p w : splits (savePosition p w) = splits w.
Proof. unfold savePosition. by destruct (BigInt.lt _ _). Qed.

Lemma savePosition_wellFormed p w :
  wellFormed w -> wellFormed (savePosition p w).
Proof.
  intros [Hp Hc]. split.
  - intros key q. rewrite savePosition_positions, lookup_insert.
    case_decide as Hk; [|by apply Hp].
    intros [= <-]. subst key. by repeat split.
  - intros key c. rewrite savePosition_conditions. apply Hc.
Qed.

Lemma positionOf_wellFormed w user market i :
  wellFormed w ->
  positionWellFormed (positionId user market i) (positionOf w user market i).
Proof.
  intros [Hp _]. unfold positionOf.
  destruct (marketPositions w !! _) as [p|] eqn:E; simpl; [by apply Hp|].
  by repeat split.
Qed.

Lemma positionOf_savePosition_ne w p user market i :
  MarketPosition.id p <> positionId user market i ->
  positionOf (savePosition p w) user market i = positionOf w user market i.
Proof.
  intros H. unfold positionOf.
  by rewrite savePosition_positions, lookup_insert_ne.
Qed.

(** Every write of a position goes through [updateNetPositionAndSave]:
    the ledger operations keep the store well formed. *)
Lemma preserves_bind {A} (c : M A) (k : A -> M unit) :
  (forall w, wellFormed w -> wellFormed (finalWorld (c w))) ->
  (forall a, preserves (k a)) -> preserves (c ≫= k).
Proof.
  intros Hc Hk w Hw. specialize (Hc w Hw).
  unfold mbind, M_bind, bind. destruct (c w) as [a w'|f w']; simpl in *.
  - by apply Hk.
  - done.
Qed.

Lemma preserves_forEach {A} (xs : list A) (body : A -> M unit) :
  (forall x, preserves (body x)) -> preserves (forEach xs body).
Proof.
  intros Hb. induction xs as [|x xs IH]; simpl; [by intros w|].
  apply preserves_bind; [apply Hb | by intros _].
Qed.

Lemma preserves_ret : preserves (mret tt).
Proof. by intros w. Qed.

Lemma preserves_require {A} f (o : option A) (k : A -> M unit) :
  (forall a, preserves (k a)) -> preserves (require f o ≫= k).
Proof.
  intros Hk. apply preserves_bind; [|done].
  intros w Hw. by destruct o.
Qed.

Lemma preserves_getMarketPosition u m i (k : MarketPosition.t -> M unit) :
  (forall p, preserves (k p)) -> preserves (getMarketPosition u m i ≫= k).
Proof.
  intros Hk. apply preserves_bind; [|done].
  intros w Hw. by rewrite getMarketPosition_run.
Qed.

Lemma preserves_updateNetPositionAndSave p :
  preserves (updateNetPositionAndSave p).
Proof.
  intros w Hw. rewrite updateNetPositionAndSave_run. simpl.
  by apply savePosition_wellFormed.
Qed.

Lemma appendLog_wellFormed e w : wellFormed w -> wellFormed (appendLog e w).
Proof. by intros [??]. Qed.

Lemma preserves_log_error msg args : preserves (log_error msg args).
Proof. intros w Hw. by apply appendLog_wellFormed. Qed.

Lemma emptyWorld_wellFormed : wellFormed emptyWorld.
Proof. split; intros key x; simpl; by rewrite lookup_empty. Qed.

Lemma outcomeIndexOf_world s w : finalWorld (outcomeIndexOf s w) = w.
Proof.
  unfold outcomeIndexOf, require, mbind, M_bind, bind.
  destruct (BigInt.toI32 s) as [x|]; [|done].
  change (ret x w) with (Ok x w). cbv beta iota.
  by destruct (outcomeIndexLoop outcomeIndexFuel x 0).
Qed.

Lemma updateMarketPositionsFromSplit_preserves mm ev :
  preserves (updateMarketPositionsFromSplit mm ev).
Proof.
  unfold updateMarketPositionsFromSplit.
  apply preserves_bind; [by intros w Hw|]. intros o.
  apply preserves_require. intros marketMaker.
  apply preserves_forEach. intros i. unfold splitOutcome.
  apply preserves_getMarketPosition. intros p.
  apply preserves_require. intros v.
  apply preserves_updateNetPositionAndSave.
Qed.

Lemma updateMarketPositionsFromMerge_preserves mm ev :
  preserves (updateMarketPositionsFromMerge mm ev).
Proof.
  unfold updateMarketPositionsFromMerge.
  apply preserves_bind; [by intros w Hw|]. intros o.
  apply preserves_require. intros marketMaker.
  apply preserves_forEach. intros i. unfold mergeOutcome.
  apply preserves_getMarketPosition. intros p.
  apply preserves_require. intros v.
  apply preserves_updateNetPositionAndSave.
Qed.

Lemma updateMarketPositionsFromRedemption_preserves mm ev :
  preserves (updateMarketPositionsFromRedemption mm ev).
Proof.
  unfold updateMarketPositionsFromRedemption.
  apply preserves_bind; [by intros w Hw|]. intros o.
  apply preserves_require. intros c.
  apply preserves_require. intros payoutNumerators.
  apply preserves_require. intros payoutDenominator.
  apply preserves_forEach. intros s. unfold redeemIndexSet.
  apply preserves_bind.
  { intros w Hw. by rewrite outcomeIndexOf_world. }
  intros k. apply preserves_getMarketPosition. intros p.
  apply preserves_require. intros n.
  apply preserves_require. intros v.
  apply preserves_updateNetPositionAndSave.
Qed.

Lemma updateMarketPositionFromTrade_preserves ev :
  preserves (updateMarketPositionFromTrade ev).
Proof.
  unfold updateMarketPositionFromTrade.
  apply preserves_bind; [by intros w Hw|]. intros [t|].
  - apply preserves_getMarketPosition. intros p.
    apply preserves_updateNetPositionAndSave.
  - intros w Hw. by apply appendLog_wellFormed.
Qed.

End Ledger.

(** ** One step of each loop *)

Section Steps.
Variables (user market : string).

Lemma splitOutcome_run amount totalSlots i w :
  totalSlots <> 0 ->
  splitOutcome user market amount totalSlots i w
  = Ok tt (savePosition (splitLeg amount totalSlots
                           (positionOf w user market i)) w).
Proof.
  intros HN. unfold splitOutcome.
  rewrite (bind_ok _ _ _ _ _ (getMarketPosition_run _ _ _ _)).
  unfold BigInt.div, BigInt.fromI32.
  destruct (Z.eqb_spec totalSlots 0) as [|_]; [done|].
  unfold require, mbind, M_bind, bind, ret.
  by rewrite updateNetPositionAndSave_run.
Qed.

Lemma mergeOutcome_run amount totalSlots i w :
  totalSlots <> 0 ->
  mergeOutcome user market amount totalSlots i w
  = Ok tt (savePosition (mergeLeg amount totalSlots
                           (positionOf w user market i)) w).
Proof.
  intros HN. unfold mergeOutcome.
  rewrite (bind_ok _ _ _ _ _ (getMarketPosition_run _ _ _ _)).
  unfold BigInt.div, BigInt.fromI32.
  destruct (Z.eqb_spec totalSlots 0) as [|_]; [done|].
  unfold require, mbind, M_bind, bind, ret.
  by rewrite updateNetPositionAndSave_run.
Qed.

Lemma toI32_wraps x :
  - 2 ^ 32 <= x < 2 ^ 32 -> BigInt.toI32 x = Some (I32.wrap x).
Proof.
  unfold BigInt.toI32. intros [H1 H2].
  apply Z.leb_le in H1. apply Z.ltb_lt in H2. by rewrite H1, H2.
Qed.

Lemma toI32_fits x : I32.fits x -> BigInt.toI32 x = Some x.
Proof.
  intros H. rewrite toI32_wraps, wrap_fits; [done..|].
  unfold I32.fits, I32.min_int, I32.max_int in H. lia.
Qed.

Lemma toI32_overflow x :
  x < - 2 ^ 32 \/ 2 ^ 32 <= x -> BigInt.toI32 x = None.
Proof.
  unfold BigInt.toI32. intros H.
  destruct (Z.leb_spec (- 2 ^ 32) x), (Z.ltb_spec x (2 ^ 32));
    simpl; try done.
  lia.
Qed.

(** On an [i32] value up to [2^30] the index taken for an index set
    [s] is [log2_up s]: 0 for [s <= 1], else the least [k] with
    [s <= 2^k]. *)
Lemma outcomeIndexOf_run s w :
  I32.fits s -> s <= 2 ^ 30 ->
  outcomeIndexOf s w = Ok (Z.log2_up s) w.
Proof.
  intros Hf Hs. unfold outcomeIndexOf.
  rewrite toI32_fits by done.
  unfold require, mbind, M_bind, bind, ret.
  destruct (Z.le_gt_cases s 1) as [H1|H1].
  - rewrite Z.log2_up_eqn0 by done.
    pose proof (outcomeIndexLoop_le_zero 31 s H1) as E.
    change (S 31) with outcomeIndexFuel in E. by rewrite E.
  - by rewrite outcomeIndexLoop_log2_up by lia.
Qed.

Lemma arrayGet_run {A} (xs : list A) (i : Z) (x : A) w :
  0 <= i -> xs !! Z.to_nat i = Some x -> arrayGet xs i w = Ok x w.
Proof.
  intros Hi Hx. unfold arrayGet.
  destruct (Z.ltb_spec i 0); [lia|]. by rewrite Hx.
Qed.

Lemma redeemIndexSet_run payoutNumerators payoutDenominator s numerator w :
  I32.fits s -> s <= 2 ^ 30 ->
  payoutNumerators !! Z.to_nat (Z.log2_up s) = Some numerator ->
  payoutDenominator <> 0 ->
  redeemIndexSet user market payoutNumerators payoutDenominator s w
  = Ok tt (savePosition
             (redeemLeg numerator payoutDenominator
                (positionOf w user market (Z.log2_up s))) w).
Proof.
  intros Hf Hs Hn Hd. unfold redeemIndexSet.
  rewrite (bind_ok _ _ _ _ _ (outcomeIndexOf_run _ _ Hf Hs)).
  rewrite (bind_ok _ _ _ _ _ (getMarketPosition_run _ _ _ _)).
  rewrite (bind_ok _ _ _ _ _
             (arrayGet_run _ _ _ _ (Z.log2_up_nonneg s) Hn)).
  unfold BigInt.div.
  destruct (Z.eqb_spec payoutDenominator 0) as [|_]; [done|].
  unfold require, mbind, M_bind, bind, ret.
  by rewrite updateNetPositionAndSave_run.
Qed.

(** A loop over distinct outcome indices whose step saves
    [leg (position)]: each position of the loop is changed once, by
    [leg], and no other key is written. *)
Lemma forEach_legs (body : Z -> M unit)
    (leg : MarketPosition.t -> MarketPosition.t) :
  (forall i w, body i w
               = Ok tt (savePosition (leg (positionOf w user market i)) w)) ->
  (forall p, MarketPosition.id (leg p) = MarketPosition.id p) ->
  forall (indices : list Z) (w : World),
    NoDup indices -> wellFormed w ->
    exists w',
      forEach indices body w = Ok tt w' /\
      wellFormed w' /\
      marketMakers w' = marketMakers w /\
      conditions w' = conditions w /\
      splits w' = splits w /\
      (forall i, i ∈ indices ->
         marketPositions w' !! positionId user market i
         = Some (withNet (leg (positionOf w user market i)))) /\
      (forall key, (forall i, i ∈ indices -> key <> positionId user market i) ->
         marketPositions w' !! key = marketPositions w !! key).
Proof.
  intros Hbody Hid indices.
  induction indices as [|x l IH]; intros w Hnd Hw.
  - exists w. do 5 (split; [done|]). split; [|done].
    intros i Hi. by apply elem_of_nil in Hi.
  - apply NoDup_cons in Hnd as [Hx Hnd].
    set (p := leg (positionOf w user market x)).
    assert (Hkey : MarketPosition.id p = positionId user market x).
    { unfold p. rewrite Hid. by apply positionOf_wellFormed. }
    destruct (IH (savePosition p w) Hnd (savePosition_wellFormed _ _ Hw))
      as (w' & Hrun & Hw' & Hmm & Hc & Hs & Hin & Hout).
    exists w'. simpl. rewrite (bind_ok _ _ _ _ _ (Hbody x w)). fold p.
    split; [done|]. split; [done|].
    rewrite Hmm, Hc, Hs, savePosition_marketMakers, savePosition_conditions,
      savePosition_splits.
    do 3 (split; [done|]). split.
    + intros i [->|Hi]%elem_of_cons.
      * rewrite Hout.
        -- by rewrite savePosition_positions, Hkey, lookup_insert_eq.
        -- intros j Hj Heq. apply positionId_inj in Heq. by subst.
      * rewrite (Hin i Hi). do 3 f_equal.
        apply positionOf_savePosition_ne. rewrite Hkey.
        intros Heq. apply positionId_inj in Heq. by subst.
    + intros key Hk. rewrite Hout.
      * rewrite savePosition_positions, lookup_insert_ne; [done|].
        rewrite Hkey. intros <-. apply (Hk x); [|done].
        apply elem_of_cons. by left.
      * intros i Hi. apply Hk, elem_of_cons. by right.
Qed.

End Steps.

(** ** Index sets and outcome indices *)

(** C8 (amended).  For every single-bit index-set mask [2^k] that the
    loop's 32-bit signed arithmetic can hold, that is for [0 <= k <= 30],
    the redemption decoding yields outcome index [k]; in particular mask
    4 decodes to index 2, and the index-set list [1,2,4] decodes
    element-wise to the indices [0,1,2]. *)
Theorem single_bit_index_set_decodes (k : Z) (w : World) :
  0 <= k <= 30 ->
  outcomeIndexOf (2 ^ k) w = Ok k w /\
  outcomeIndexOf 4 w = Ok 2 w /\
  mapM outcomeIndexOf [1; 2; 4] w = Ok [0; 1; 2] w.
Proof.
  intros Hk. split; [|split; reflexivity].
  assert (0 < 2 ^ k) by (apply Z.pow_pos_nonneg; lia).
  assert (2 ^ k <= 2 ^ 30) by (apply Z.pow_le_mono_r; lia).
  rewrite outcomeIndexOf_run.
  - by rewrite Z.log2_up_pow2 by lia.
  - unfold I32.fits, I32.min_int, I32.max_int.
    change (2 ^ 30) with 1073741824 in *. change (2 ^ 31) with 2147483648.
    lia.
  - done.
Qed.

Lemma single_bit_index_set_decodes_witness :
  0 <= 5 <= 30 /\
  outcomeIndexOf (2 ^ 5) emptyWorld = Ok 5 emptyWorld /\
  outcomeIndexOf 4 emptyWorld = Ok 2 emptyWorld /\
  mapM outcomeIndexOf [1; 2; 4] emptyWorld = Ok [0; 1; 2] emptyWorld.
Proof.
  split; [lia | apply (single_bit_index_set_decodes 5 emptyWorld); lia].
Defined.

(** C8, as stated, fails at [k = 31]: the single-bit mask [2^31] is not
    decoded to 31.  [toI32] hands it to the loop wrapped, as [-2^31]; the
    first test [1 < -2^31] fails and the mask is decoded to outcome
    index 0.  No [i32] value at all makes the loop stop at 31, since
    [1 << 31] is negative. *)
Lemma single_bit_index_set_31 :
  outcomeIndexOf (2 ^ 31) emptyWorld <> Ok 31 emptyWorld /\
  outcomeIndexOf (2 ^ 31) emptyWorld = Ok 0 emptyWorld /\
  (forall (fuel : nat) (x : Z), outcomeIndexLoop fuel x 0 <> Some 31).
Proof.
  split; [done|]. split; [reflexivity|].
  intros fuel x H. apply outcomeIndexLoop_result in H as [Hle [Hk|Hlt]].
  - done.
  - change (I32.shl 1 31) with (- 2147483648) in Hle.
    change (I32.shl 1 0) with 1 in Hlt. lia.
Qed.

(** C9 (amended).  For every index-set mask [m] with [0 < m <= 2^30],
    power of two or not, the redemption decoding returns the smallest [k]
    with [2^k >= m], and the whole redemption of the mask is applied to
    the single position of that outcome index.  When [m] is not a power
    of two, bit [k] is not set in [m]: mask 3 goes to index 2. *)
Theorem multi_bit_index_set_collapses (m : Z) (w : World) :
  0 < m <= 2 ^ 30 ->
  exists k,
    outcomeIndexOf m w = Ok k w /\
    0 <= k /\ m <= 2 ^ k /\ (forall j, 0 <= j < k -> 2 ^ j < m) /\
    ((forall j, 0 <= j -> m <> 2 ^ j) -> Z.testbit m k = false) /\
    (forall user market payoutNumerators payoutDenominator numerator,
        payoutNumerators !! Z.to_nat k = Some numerator ->
        payoutDenominator <> 0 ->
        redeemIndexSet user market payoutNumerators payoutDenominator m w
        = Ok tt (savePosition
                   (redeemLeg numerator payoutDenominator
                      (positionOf w user market k)) w)) /\
    outcomeIndexOf 3 w = Ok 2 w /\ Z.testbit 3 2 = false.
Proof.
  intros Hm. exists (Z.log2_up m).
  assert (Hfit : I32.fits m).
  { unfold I32.fits, I32.min_int, I32.max_int.
    change (2 ^ 30) with 1073741824 in *. change (2 ^ 31) with 2147483648.
    lia. }
  pose proof (Z.log2_up_nonneg m) as Hn.
  assert (Hle : m <= 2 ^ Z.log2_up m).
  { destruct (Z.le_gt_cases m 1).
    - rewrite Z.log2_up_eqn0 by done. change (2 ^ 0) with 1. lia.
    - apply Z.log2_up_spec. lia. }
  split; [apply outcomeIndexOf_run; [done | lia]|].
  split; [done|]. split; [done|]. split; [|split; [|split; [|by split]]].
  - intros j Hj.
    destruct (Z.le_gt_cases m 1) as [H1|H1].
    + rewrite Z.log2_up_eqn0 in Hj by done. lia.
    + pose proof (Z.log2_up_spec m H1) as [Hlo _].
      apply Z.le_lt_trans with (2 ^ Z.pred (Z.log2_up m)); [|done].
      apply Z.pow_le_mono_r; lia.
  - intros Hnp. apply Z.bits_above_log2; [lia|].
    apply Z.log2_lt_pow2; [lia|].
    specialize (Hnp (Z.log2_up m) Hn). lia.
  - intros user market pn pd numerator Hnum Hpd.
    apply redeemIndexSet_run; [done | lia | done | done].
Qed.

Lemma multi_bit_index_set_collapses_witness :
  0 < 3 <= 2 ^ 30 /\
  exists k,
    outcomeIndexOf 3 emptyWorld = Ok k emptyWorld /\
    0 <= k /\ 3 <= 2 ^ k /\ (forall j, 0 <= j < k -> 2 ^ j < 3) /\
    ((forall j, 0 <= j -> 3 <> 2 ^ j) -> Z.testbit 3 k = false) /\
    (forall user market payoutNumerators payoutDenominator numerator,
        payoutNumerators !! Z.to_nat k = Some numerator ->
        payoutDenominator <> 0 ->
        redeemIndexSet user market payoutNumerators payoutDenominator 3
                       emptyWorld
        = Ok tt (savePosition
                   (redeemLeg numerator payoutDenominator
                      (positionOf emptyWorld user market k)) emptyWorld)) /\
    outcomeIndexOf 3 emptyWorld = Ok 2 emptyWorld /\ Z.testbit 3 2 = false.
Proof.
  split; [lia | apply (multi_bit_index_set_collapses 3 emptyWorld); lia].
Defined.

(** C9, as stated, fails at [m = 2^30 + 1]: the mask fits an [i32] and
    is not a power of two; the smallest [k] with [2^k >= m] is 31, but
    the loop returns nothing: its test [1 << outcomeIndex < m] holds for
    every value of the counter. *)
Lemma multi_bit_index_set_above_2_30 :
  let m := 2 ^ 30 + 1 in
  I32.fits m /\
  (forall j, 0 <= j -> m <> 2 ^ j) /\
  (2 ^ 30 < m <= 2 ^ 31) /\
  (forall fuel, outcomeIndexLoop fuel m 0 = None) /\
  outcomeIndexOf m emptyWorld = Abort Diverges emptyWorld.
Proof.
  cbv zeta. split; [|split; [|split; [|split]]].
  - unfold I32.fits, I32.min_int, I32.max_int. lia.
  - intros j Hj. destruct (Z.le_gt_cases j 30) as [H|H].
    + assert (2 ^ j <= 2 ^ 30) by (apply Z.pow_le_mono_r; lia). lia.
    + assert (2 ^ 31 <= 2 ^ j) by (apply Z.pow_le_mono_r; lia). lia.
  - lia.
  - intros fuel. apply outcomeIndexLoop_diverges. lia.
  - unfold outcomeIndexOf, require, mbind, M_bind, bind, ret, fail.
    rewrite toI32_fits by (unfold I32.fits, I32.min_int, I32.max_int; lia).
    by rewrite outcomeIndexLoop_diverges by lia.
Qed.

(** ** The invariant check *)

(** C6.  Whenever the position handed to the recomputation step has
    quantitySold greater than quantityBought, the step appends to the log
    an error entry that names the user, the outcome index and the market,
    and still writes the position, with its negative netQuantity, to the
    store; the step finishes normally. *)
Theorem negative_net_quantity_reported (p : MarketPosition.t) (w : World) :
  MarketPosition.quantityBought p < MarketPosition.quantitySold p ->
  exists w',
    updateNetPositionAndSave p w = Ok tt w' /\
    logs w' = logs w ++
      [Log.mk Log.Error
         "Invalid position: user {} has negative netQuantity on outcome {} on market {}"
         [MarketPosition.user p;
          BigInt.toString (MarketPosition.outcomeIndex p);
          MarketPosition.market p]] /\
    marketPositions w'
    = <[MarketPosition.id p := withNet p]> (marketPositions w) /\
    MarketPosition.netQuantity (withNet p)
    = MarketPosition.quantityBought p - MarketPosition.quantitySold p /\
    MarketPosition.netQuantity (withNet p) < 0.
Proof.
  intros Hneg. exists (savePosition p w).
  split; [apply updateNetPositionAndSave_run|].
  assert (Hlt : BigInt.lt (MarketPosition.netQuantity (withNet p)) bigZero
                = true).
  { unfold BigInt.lt, bigZero, BigInt.minus. simpl. apply Z.ltb_lt.
    unfold BigInt.minus. lia. }
  unfold savePosition. rewrite Hlt. simpl. unfold BigInt.minus.
  repeat split; try done. lia.
Qed.

Lemma negative_net_quantity_reported_witness :
  let p := MarketPosition.mk "u1" "m" "u" 1 3 5 0 0 0 0 in
  MarketPosition.quantityBought p < MarketPosition.quantitySold p /\
  exists w',
    updateNetPositionAndSave p emptyWorld = Ok tt w' /\
    logs w' = logs emptyWorld ++
      [Log.mk Log.Error
         "Invalid position: user {} has negative netQuantity on outcome {} on market {}"
         [MarketPosition.user p;
          BigInt.toString (MarketPosition.outcomeIndex p);
          MarketPosition.market p]] /\
    marketPositions w'
    = <[MarketPosition.id p := withNet p]> (marketPositions emptyWorld) /\
    MarketPosition.netQuantity (withNet p)
    = MarketPosition.quantityBought p - MarketPosition.quantitySold p /\
    MarketPosition.netQuantity (withNet p) < 0.
Proof.
  cbv zeta. split; [simpl; lia|].
  apply (negative_net_quantity_reported
           (MarketPosition.mk "u1" "m" "u" 1 3 5 0 0 0 0) emptyWorld).
  simpl. lia.
Defined.

(** ** The handlers *)

Section Handlers.
Variable contracts : Contracts.

Lemma requireAccount_run a ts w :
  exists acc w', requireAccount a ts w = Ok acc w' /\ sameButAccounts w w'
                 /\ is_Some (accounts w' !! a).
Proof.
  unfold requireAccount, mbind, M_bind, bind, mret, M_ret, ret, modify.
  destruct (accounts w !! a) as [acc|] eqn:E.
  - exists acc, w. split; [done|]. split; [by destruct w | by rewrite E].
  - eexists _, _. split; [done|]. split; [done|].
    simpl. by rewrite lookup_insert_eq.
Qed.

Lemma markAccountAsSeen_run a ts w :
  exists w', markAccountAsSeen a ts w = Ok tt w' /\ sameButAccounts w w'.
Proof.
  unfold markAccountAsSeen.
  destruct (requireAccount_run a ts w) as (acc & w1 & E & F & _).
  rewrite (bind_ok _ _ _ _ _ E). eexists. split; [done|].
  unfold sameButAccounts in *. rewrite F. done.
Qed.

Lemma sameButAccounts_trans w1 w2 w3 :
  sameButAccounts w1 w2 -> sameButAccounts w2 w3 -> sameButAccounts w1 w3.
Proof.
  unfold sameButAccounts. intros H1 H2. rewrite H2. rewrite H1. done.
Qed.

Lemma sameButAccounts_wellFormed w w' :
  sameButAccounts w w' -> wellFormed w -> wellFormed w'.
Proof. unfold sameButAccounts. intros ->. by intros [??]. Qed.

Lemma includes_false (a b s : string) :
  s <> a -> s <> b -> includes [a; b] s = false.
Proof.
  intros Ha Hb. unfold includes. simpl.
  apply String.eqb_neq in Ha, Hb. by rewrite Ha, Hb.
Qed.

(** The handler of a split whose stakeholder is not filtered: the
    account is touched, the audit row is written, then the condition is
    looked up. *)
Lemma handlePositionSplit_run (event : PositionSplit.t) (w : World) :
  trackedStakeholder contracts w (PositionSplit.stakeholder event) ->
  exists w1,
    sameButAccounts w w1 /\
    let w2 := setSplits (insert (Split.id (splitOf event)) (splitOf event))
                        w1 in
    handlePositionSplit contracts event w =
    match conditions w !! Split.condition (splitOf event) with
    | None =>
        Ok tt (appendLog
                 (Log.mk Log.Error
                    "Failed to update market positions: condition {} not prepared"
                    [Split.condition (splitOf event)]) w2)
    | Some condition =>
        (if partitionCheck (PositionSplit.partition event)
                           (Condition.outcomeSlotCount condition)
         then forEach (Condition.fixedProductMarketMakers condition)
                      (fun marketMaker =>
                         updateMarketPositionsFromSplit marketMaker event)
         else mret tt) w2
    end.
Proof.
  intros (Hmm & Hn & He).
  destruct (requireAccount_run
              (Bytes.toHexString (PositionSplit.stakeholder event))
              (Event.block_timestamp (PositionSplit.event event)) w)
    as (acc & wa & Ea & Fa & _).
  destruct (markAccountAsSeen_run
              (Bytes.toHexString (PositionSplit.stakeholder event))
              (Event.block_timestamp (PositionSplit.event event)) wa)
    as (w1 & E1 & F1).
  exists w1. split; [by eapply sameButAccounts_trans|]. cbv zeta.
  unfold handlePositionSplit.
  unfold FixedProductMarketMaker_load at 1.
  unfold mbind at 1, M_bind at 1, bind at 1. rewrite Hmm.
  rewrite includes_false by done.
  unfold getCollateralDetails.
  unfold mbind at 1, M_bind at 1, bind at 1, mret at 1, M_ret at 1, ret at 1.
  rewrite (bind_ok _ _ _ _ _ Ea), (bind_ok _ _ _ _ _ E1).
  fold (splitOf event).
  assert (Hc : conditions w1 = conditions w).
  { unfold sameButAccounts in *. rewrite F1, Fa. done. }
  unfold Split_save, Condition_load, modify, mbind, M_bind, bind.
  change (conditions (setSplits _ w1)) with (conditions w1). rewrite Hc.
  by destruct (conditions w !! _).
Qed.

Lemma handlePositionsMerge_run (event : PositionsMerge.t) (w : World) :
  trackedStakeholder contracts w (PositionsMerge.stakeholder event) ->
  exists w1,
    sameButAccounts w w1 /\
    let w2 := setMerges (insert (Merge.id (mergeOf event)) (mergeOf event))
                        w1 in
    handlePositionsMerge contracts event w =
    match conditions w !! Merge.condition (mergeOf event) with
    | None =>
        Ok tt (appendLog
                 (Log.mk Log.Error
                    "Failed to update market positions: condition {} not prepared"
                    [Merge.condition (mergeOf event)]) w2)
    | Some condition =>
        (if partitionCheck (PositionsMerge.partition event)
                           (Condition.outcomeSlotCount condition)
         then forEach (Condition.fixedProductMarketMakers condition)
                      (fun marketMaker =>
                         updateMarketPositionsFromMerge marketMaker event)
         else mret tt) w2
    end.
Proof.
  intros (Hmm & Hn & He).
  destruct (requireAccount_run
              (Bytes.toHexString (PositionsMerge.stakeholder event))
              (Event.block_timestamp (PositionsMerge.event event)) w)
    as (acc & wa & Ea & Fa & _).
  destruct (markAccountAsSeen_run
              (Bytes.toHexString (PositionsMerge.stakeholder event))
              (Event.block_timestamp (PositionsMerge.event event)) wa)
    as (w1 & E1 & F1).
  exists w1. split; [by eapply sameButAccounts_trans|]. cbv zeta.
  unfold handlePositionsMerge.
  unfold FixedProductMarketMaker_load at 1.
  unfold mbind at 1, M_bind at 1, bind at 1. rewrite Hmm.
  rewrite includes_false by done.
  rewrite (bind_ok _ _ _ _ _ Ea), (bind_ok _ _ _ _ _ E1).
  fold (mergeOf event).
  assert (Hc : conditions w1 = conditions w).
  { unfold sameButAccounts in *. rewrite F1, Fa. done. }
  unfold Merge_save, Condition_load, modify, mbind, M_bind, bind.
  change (conditions (setMerges _ w1)) with (conditions w1). rewrite Hc.
  by destruct (conditions w !! _).
Qed.

Lemma handlePayoutRedemption_run (event : PayoutRedemption.t) (w : World) :
  Bytes.toHexString (PayoutRedemption.redeemer event)
    <> NegativeRiskAdapter_address contracts ->
  exists w1,
    sameButAccounts w w1 /\
    let w2 := setRedemptions
                (insert (Redemption.id (redemptionOf event))
                        (redemptionOf event)) w1 in
    handlePayoutRedemption contracts event w =
    match conditions w !! Redemption.condition (redemptionOf event) with
    | None =>
        Ok tt (appendLog
                 (Log.mk Log.Error
                    "Failed to update market positions: condition {} not prepared"
                    [Redemption.condition (redemptionOf event)]) w2)
    | Some condition =>
        forEach (Condition.fixedProductMarketMakers condition)
                (fun marketMaker =>
                   updateMarketPositionsFromRedemption marketMaker event)
                w2
    end.
Proof.
  intros Hn.
  destruct (requireAccount_run
              (Bytes.toHexString (PayoutRedemption.redeemer event))
              (Event.block_timestamp (PayoutRedemption.event event)) w)
    as (acc & wa & Ea & Fa & _).
  destruct (markAccountAsSeen_run
              (Bytes.toHexString (PayoutRedemption.redeemer event))
              (Event.block_timestamp (PayoutRedemption.event event)) wa)
    as (w1 & E1 & F1).
  exists w1. split; [by eapply sameButAccounts_trans|]. cbv zeta.
  unfold handlePayoutRedemption.
  apply String.eqb_neq in Hn. rewrite Hn.
  rewrite (bind_ok _ _ _ _ _ Ea), (bind_ok _ _ _ _ _ E1).
  fold (redemptionOf event).
  assert (Hc : conditions w1 = conditions w).
  { unfold sameButAccounts in *. rewrite F1, Fa. done. }
  unfold Redemption_save, Condition_load, modify, mbind, M_bind, bind.
  change (conditions (setRedemptions _ w1)) with (conditions w1). rewrite Hc.
  by destruct (conditions w !! _).
Qed.

Lemma includes_true (a b s : string) :
  s = a \/ s = b -> includes [a; b] s = true.
Proof.
  unfold includes. simpl. intros [->| ->]; rewrite String.eqb_refl; [done|].
  by rewrite orb_true_r.
Qed.

(** C4 (amended).  For every PositionSplit or PositionsMerge event whose
    stakeholder is a tracked market maker (a FixedProductMarketMaker
    entity exists for it) or one of the two designated contract
    addresses, the handler returns at once: it changes no MarketPosition
    and it saves no Split or Merge entity either; the whole store is
    left as it was. *)
Theorem filtered_stakeholder_skipped
    (split : PositionSplit.t) (merge : PositionsMerge.t) (w : World) :
  filteredStakeholder contracts w (PositionSplit.stakeholder split) ->
  filteredStakeholder contracts w (PositionsMerge.stakeholder merge) ->
  handlePositionSplit contracts split w = Ok tt w /\
  handlePositionsMerge contracts merge w = Ok tt w.
Proof.
  intros Hs Hm. split.
  - unfold handlePositionSplit, FixedProductMarketMaker_load.
    unfold mbind at 1, M_bind at 1, bind at 1.
    destruct Hs as [[mm Hmm]|Hs]; [by rewrite Hmm|].
    destruct (marketMakers w !! _); [done|].
    by rewrite includes_true.
  - unfold handlePositionsMerge, FixedProductMarketMaker_load.
    unfold mbind at 1, M_bind at 1, bind at 1.
    destruct Hm as [[mm Hmm]|Hm]; [by rewrite Hmm|].
    destruct (marketMakers w !! _); [done|].
    by rewrite includes_true.
Qed.

(** The NegRiskAdapter's own handlers write the audit row and leave
    every position alone. *)
Lemma NegRiskAdapter_split_audit_only
    (event : NegRiskAdapterMapping.PositionSplit.t) (w : World) :
  exists w' row,
    NegRiskAdapterMapping.handlePositionSplit contracts event w = Ok tt w' /\
    splits w'
    = <[Bytes.toHexString
          (Event.transaction_hash
             (NegRiskAdapterMapping.PositionSplit.event event)) := row]>
        (splits w) /\
    Split.amount row = NegRiskAdapterMapping.PositionSplit.amount event /\
    marketPositions w' = marketPositions w.
Proof.
  unfold NegRiskAdapterMapping.handlePositionSplit.
  destruct (requireAccount_run
              (Bytes.toHexString
                 (NegRiskAdapterMapping.PositionSplit.stakeholder event))
              (Event.block_timestamp
                 (NegRiskAdapterMapping.PositionSplit.event event)) w)
    as (acc & wa & Ea & Fa & _).
  destruct (markAccountAsSeen_run
              (Bytes.toHexString
                 (NegRiskAdapterMapping.PositionSplit.stakeholder event))
              (Event.block_timestamp
                 (NegRiskAdapterMapping.PositionSplit.event event)) wa)
    as (w1 & E1 & F1).
  rewrite (bind_ok _ _ _ _ _ Ea), (bind_ok _ _ _ _ _ E1).
  eexists _, _. split; [reflexivity|].
  unfold sameButAccounts in *. rewrite F1, Fa. by repeat split.
Qed.

(** The handlers keep the store well formed. *)
Lemma requireAccount_wellFormed a ts w :
  wellFormed w -> wellFormed (finalWorld (requireAccount a ts w)).
Proof.
  intros Hw. destruct (requireAccount_run a ts w) as (acc & w' & E & F & _).
  rewrite E. by apply (sameButAccounts_wellFormed w).
Qed.

Lemma markAccountAsSeen_wellFormed a ts w :
  wellFormed w -> wellFormed (finalWorld (markAccountAsSeen a ts w)).
Proof.
  intros Hw. destruct (markAccountAsSeen_run a ts w) as (w' & E & F).
  rewrite E. by apply (sameButAccounts_wellFormed w).
Qed.

Lemma handlePositionSplit_preserves event :
  preserves (handlePositionSplit contracts event).
Proof.
  unfold handlePositionSplit.
  apply preserves_bind; [by intros w Hw|]. intros [mm|]; [apply preserves_ret|].
  destruct (includes _ _); [apply preserves_ret|].
  apply preserves_bind; [by intros w Hw|]. intros _.
  apply preserves_bind; [apply requireAccount_wellFormed|]. intros _.
  apply preserves_bind; [apply markAccountAsSeen_wellFormed|]. intros _.
  apply preserves_bind; [by intros w [??]|]. intros _.
  apply preserves_bind; [by intros w Hw|]. intros [c|].
  - destruct (partitionCheck _ _); [|apply preserves_ret].
    apply preserves_forEach. intros mm.
    apply updateMarketPositionsFromSplit_preserves.
  - apply preserves_log_error.
Qed.

Lemma handlePositionsMerge_preserves event :
  preserves (handlePositionsMerge contracts event).
Proof.
  unfold handlePositionsMerge.
  apply preserves_bind; [by intros w Hw|]. intros [mm|]; [apply preserves_ret|].
  destruct (includes _ _); [apply preserves_ret|].
  apply preserves_bind; [apply requireAccount_wellFormed|]. intros _.
  apply preserves_bind; [apply markAccountAsSeen_wellFormed|]. intros _.
  apply preserves_bind; [by intros w [??]|]. intros _.
  apply preserves_bind; [by intros w Hw|]. intros [c|].
  - destruct (partitionCheck _ _); [|apply preserves_ret].
    apply preserves_forEach. intros mm.
    apply updateMarketPositionsFromMerge_preserves.
  - apply preserves_log_error.
Qed.

Lemma handlePayoutRedemption_preserves event :
  preserves (handlePayoutRedemption contracts event).
Proof.
  unfold handlePayoutRedemption.
  destruct (String.eqb _ _); [apply preserves_ret|].
  apply preserves_bind; [apply requireAccount_wellFormed|]. intros _.
  apply preserves_bind; [apply markAccountAsSeen_wellFormed|]. intros _.
  apply preserves_bind; [by intros w [??]|]. intros _.
  apply preserves_bind; [by intros w Hw|]. intros [c|].
  - apply preserves_forEach. intros mm.
    apply updateMarketPositionsFromRedemption_preserves.
  - apply preserves_log_error.
Qed.

Lemma mapM_require_world {A B} (f : A -> option B) (e : Failure)
    (xs : list A) (w : World) :
  finalWorld (mapM (fun x => require e (f x)) xs w) = w.
Proof.
  revert w. induction xs as [|x xs IH]; intros w; [done|].
  cbn [mapM]. unfold mbind, M_bind, bind, require.
  destruct (f x) as [y|]; [|done]. change (ret y w) with (Ok y w).
  cbv beta iota. specialize (IH w).
  by destruct (mapM _ xs w).
Qed.

Lemma handleConditionResolution_preserves event :
  preserves (handleConditionResolution event).
Proof.
  unfold handleConditionResolution.
  apply preserves_bind; [by intros w Hw|].
  intros [c|]; [|apply preserves_log_error].
  apply preserves_bind.
  { intros w Hw. unfold requireGlobal, Global_load, mbind, M_bind, bind.
    by destruct (globals w !! ""). }
  intros g. apply preserves_bind; [by intros w [??]|]. intros _.
  apply preserves_bind.
  { intros w Hw. by rewrite mapM_require_world. }
  intros payouts w [Hp Hc]. split; [done|].
  intros key c'. simpl. rewrite lookup_insert.
  case_decide; [by intros [= <-] | apply Hc].
Qed.

End Handlers.

(** C4, as stated, fails for the split of a market maker: no Split
    entity is saved. *)
Lemma market_maker_split_leaves_no_audit_row :
  filteredStakeholder sampleContracts sampleWorld
                      (PositionSplit.stakeholder marketMakerSplit) /\
  splits (finalWorld
            (handlePositionSplit sampleContracts marketMakerSplit sampleWorld))
    = ∅ /\
  merges (finalWorld
            (handlePositionsMerge sampleContracts marketMakerMerge sampleWorld))
    = ∅.
Proof.
  split; [left; by eexists|]. split; reflexivity.
Qed.

Lemma filtered_stakeholder_skipped_witness :
  filteredStakeholder sampleContracts sampleWorld
                      (PositionSplit.stakeholder marketMakerSplit) /\
  filteredStakeholder sampleContracts sampleWorld
                      (PositionsMerge.stakeholder marketMakerMerge) /\
  handlePositionSplit sampleContracts marketMakerSplit sampleWorld
    = Ok tt sampleWorld /\
  handlePositionsMerge sampleContracts marketMakerMerge sampleWorld
    = Ok tt sampleWorld.
Proof.
  assert (H : is_Some (marketMakers sampleWorld !! "0x01"))
    by (eexists; reflexivity).
  split; [by left|]. split; [by left|].
  apply (filtered_stakeholder_skipped sampleContracts marketMakerSplit
           marketMakerMerge sampleWorld); by left.
Defined.

(** ** Missing references *)

Section MissingReferences.
Variable contracts : Contracts.

(** C7 (amended).  When a trade's originating transaction record cannot
    be found by transaction hash, [updateMarketPositionFromTrade] logs
    and then throws, and no position is changed.  An unknown condition
    in [handleConditionResolution] is handled softly: a log entry and no
    other change at all.  An unknown condition in the split, merge and
    redemption handlers is handled softly too (a log entry, and no
    MarketPosition or Condition changed), but what the handler wrote
    before the lookup stays: the audit row of the event. *)
Theorem missing_reference_handling
    (trade : Event.t) (resolution : ConditionResolution.t)
    (split : PositionSplit.t) (merge : PositionsMerge.t)
    (redemption : PayoutRedemption.t) (w : World) :
  transactions w !! Bytes.toHexString (Event.transaction_hash trade)
    = None ->
  conditions w !! Bytes.toHexString (ConditionResolution.conditionId resolution)
    = None ->
  trackedStakeholder contracts w (PositionSplit.stakeholder split) ->
  conditions w !! Bytes.toHexString (PositionSplit.conditionId split)
    = None ->
  trackedStakeholder contracts w (PositionsMerge.stakeholder merge) ->
  conditions w !! Bytes.toHexString (PositionsMerge.conditionId merge)
    = None ->
  Bytes.toHexString (PayoutRedemption.redeemer redemption)
    <> NegativeRiskAdapter_address contracts ->
  conditions w !! Bytes.toHexString (PayoutRedemption.conditionId redemption)
    = None ->
  updateMarketPositionFromTrade trade w
    = Abort (Thrown "Could not find transaction with hash")
            (appendLog
               (Log.mk Log.Error "Could not find a transaction with hash: {}"
                  [Bytes.toString (Event.transaction_hash trade)]) w) /\
  handleConditionResolution resolution w
    = Ok tt (appendLog
               (Log.mk Log.Error "could not find condition {} to resolve"
                  [Bytes.toHexString
                     (ConditionResolution.conditionId resolution)]) w) /\
  (exists w',
      handlePositionSplit contracts split w = Ok tt w' /\
      logs w' = logs w ++
        [Log.mk Log.Error
           "Failed to update market positions: condition {} not prepared"
           [Bytes.toHexString (PositionSplit.conditionId split)]] /\
      marketPositions w' = marketPositions w /\
      conditions w' = conditions w /\
      splits w' = <[getEventKey (PositionSplit.event split) := splitOf split]>
                    (splits w)) /\
  (exists w',
      handlePositionsMerge contracts merge w = Ok tt w' /\
      logs w' = logs w ++
        [Log.mk Log.Error
           "Failed to update market positions: condition {} not prepared"
           [Bytes.toHexString (PositionsMerge.conditionId merge)]] /\
      marketPositions w' = marketPositions w /\
      conditions w' = conditions w /\
      merges w' = <[getEventKey (PositionsMerge.event merge) := mergeOf merge]>
                    (merges w)) /\
  (exists w',
      handlePayoutRedemption contracts redemption w = Ok tt w' /\
      logs w' = logs w ++
        [Log.mk Log.Error
           "Failed to update market positions: condition {} not prepared"
           [Bytes.toHexString (PayoutRedemption.conditionId redemption)]] /\
      marketPositions w' = marketPositions w /\
      conditions w' = conditions w /\
      redemptions w'
      = <[getEventKey (PayoutRedemption.event redemption)
            := redemptionOf redemption]> (redemptions w)).
Proof.
  intros Ht Hr Hs Hsc Hm Hmc Hp Hpc.
  split; [|split; [|split; [|split]]].
  - unfold updateMarketPositionFromTrade, Transaction_load.
    unfold mbind at 1, M_bind at 1, bind at 1. by rewrite Ht.
  - unfold handleConditionResolution, Condition_load.
    unfold mbind at 1, M_bind at 1, bind at 1. by rewrite Hr.
  - destruct (handlePositionSplit_run contracts split w Hs)
      as (w1 & F & E). cbv zeta in E.
    change (Split.condition (splitOf split))
      with (Bytes.toHexString (PositionSplit.conditionId split)) in E.
    rewrite Hsc in E. eexists. split; [exact E|].
    unfold sameButAccounts in F. rewrite F. by repeat split.
  - destruct (handlePositionsMerge_run contracts merge w Hm)
      as (w1 & F & E). cbv zeta in E.
    change (Merge.condition (mergeOf merge))
      with (Bytes.toHexString (PositionsMerge.conditionId merge)) in E.
    rewrite Hmc in E. eexists. split; [exact E|].
    unfold sameButAccounts in F. rewrite F. by repeat split.
  - destruct (handlePayoutRedemption_run contracts redemption w Hp)
      as (w1 & F & E). cbv zeta in E.
    change (Redemption.condition (redemptionOf redemption))
      with (Bytes.toHexString (PayoutRedemption.conditionId redemption)) in E.
    rewrite Hpc in E. eexists. split; [exact E|].
    unfold sameButAccounts in F. rewrite F. by repeat split.
Qed.

End MissingReferences.

Lemma missing_reference_handling_witness :
  updateMarketPositionFromTrade sampleEvent emptyWorld
    = Abort (Thrown "Could not find transaction with hash")
            (appendLog
               (Log.mk Log.Error "Could not find a transaction with hash: {}"
                  [Bytes.toString (Event.transaction_hash sampleEvent)])
               emptyWorld) /\
  handleConditionResolution sampleResolution emptyWorld
    = Ok tt (appendLog
               (Log.mk Log.Error "could not find condition {} to resolve"
                  [Bytes.toHexString
                     (ConditionResolution.conditionId sampleResolution)])
               emptyWorld) /\
  exists w',
    handlePositionSplit sampleContracts sampleSplit emptyWorld = Ok tt w' /\
    logs w' = logs emptyWorld ++
      [Log.mk Log.Error
         "Failed to update market positions: condition {} not prepared"
         [Bytes.toHexString (PositionSplit.conditionId sampleSplit)]] /\
    marketPositions w' = marketPositions emptyWorld /\
    conditions w' = conditions emptyWorld /\
    splits w' = <[getEventKey (PositionSplit.event sampleSplit)
                    := splitOf sampleSplit]> (splits emptyWorld).
Proof.
  destruct (missing_reference_handling sampleContracts sampleEvent
              sampleResolution sampleSplit sampleMerge sampleRedemption
              emptyWorld) as (Htrade & Hresolution & Hsplit & _).
  - reflexivity.
  - reflexivity.
  - repeat split; (reflexivity || discriminate).
  - reflexivity.
  - repeat split; (reflexivity || discriminate).
  - reflexivity.
  - discriminate.
  - reflexivity.
  - exact (conj Htrade (conj Hresolution Hsplit)).
Defined.

(** C7, as stated, fails for a split on an unknown condition: the error
    is logged and no position changes, but the event has left its Split
    row (and an account) in the store. *)
Lemma unknown_condition_split_keeps_audit_row :
  conditions emptyWorld
    !! Bytes.toHexString (PositionSplit.conditionId sampleSplit) = None /\
  exists w',
    handlePositionSplit sampleContracts sampleSplit emptyWorld = Ok tt w' /\
    logs w' =
      [Log.mk Log.Error
         "Failed to update market positions: condition {} not prepared"
         ["0xc0"]] /\
    splits w' !! "0xabcd7" = Some (splitOf sampleSplit) /\
    is_Some (accounts w' !! "0x05") /\
    splits emptyWorld !! "0xabcd7" = None /\
    accounts emptyWorld !! "0x05" = None.
Proof.
  split; [reflexivity|]. eexists. split; [vm_compute; reflexivity|].
  split; [reflexivity|]. split; [reflexivity|]. split; [by eexists|].
  split; reflexivity.
Qed.

(** ** Position keys *)

(** C10.  The key of a MarketPosition is the plain concatenation
    [user + market + outcomeIndex.toString()], which is not injective:
    the distinct triples ("a","bc",1) and ("ab","c",1) have the same key,
    [getMarketPosition] returns the same stored record for both, and a
    purchase booked for the second triple is added to the balances of the
    first. *)
Theorem position_key_collision
    (w : World) (p : MarketPosition.t) (amount : BigInt.t) :
  marketPositions w !! positionId "a" "bc" 1 = Some p ->
  MarketPosition.id p = positionId "a" "bc" 1 ->
  ("a", "bc", 1) <> ("ab", "c", 1) /\
  positionId "a" "bc" 1 = positionId "ab" "c" 1 /\
  getMarketPosition "a" "bc" 1 w = Ok p w /\
  getMarketPosition "ab" "c" 1 w = Ok p w /\
  let bought :=
    withQuantityBought (MarketPosition.quantityBought p + amount)
                       (positionOf w "ab" "c" 1) in
  positionOf (savePosition bought w) "a" "bc" 1
  = withNet (withQuantityBought (MarketPosition.quantityBought p + amount) p).
Proof.
  intros Hp Hid. split; [done|]. split; [reflexivity|].
  assert (Hq : marketPositions w !! positionId "ab" "c" 1 = Some p) by done.
  assert (Hpos : positionOf w "ab" "c" 1 = p)
    by (unfold positionOf; by rewrite Hq).
  rewrite !getMarketPosition_run, Hpos.
  split; [by unfold positionOf; rewrite Hp|]. split; [done|].
  intros bought. unfold positionOf.
  rewrite savePosition_positions.
  change (MarketPosition.id bought) with (MarketPosition.id p).
  by rewrite Hid, lookup_insert_eq.
Qed.

Lemma position_key_collision_witness :
  let p := MarketPosition.mk "abc1" "bc" "a" 1 4 0 4 2 0 2 in
  let w := setMarketPositions (insert "abc1" p) emptyWorld in
  marketPositions w !! positionId "a" "bc" 1 = Some p /\
  MarketPosition.id p = positionId "a" "bc" 1 /\
  ("a", "bc", 1) <> ("ab", "c", 1) /\
  positionId "a" "bc" 1 = positionId "ab" "c" 1 /\
  getMarketPosition "a" "bc" 1 w = Ok p w /\
  getMarketPosition "ab" "c" 1 w = Ok p w /\
  let bought :=
    withQuantityBought (MarketPosition.quantityBought p + 6)
                       (positionOf w "ab" "c" 1) in
  positionOf (savePosition bought w) "a" "bc" 1
  = withNet (withQuantityBought (MarketPosition.quantityBought p + 6) p).
Proof.
  cbv zeta. split; [reflexivity|]. split; [reflexivity|].
  apply (position_key_collision
           (setMarketPositions
              (insert "abc1" (MarketPosition.mk "abc1" "bc" "a" 1 4 0 4 2 0 2))
              emptyWorld)
           (MarketPosition.mk "abc1" "bc" "a" 1 4 0 4 2 0 2) 6);
    reflexivity.
Defined.

(** ** Split and merge *)

Section SplitMerge.
Variables (marketMakerAddress : string)
          (marketMaker : FixedProductMarketMaker.t).

Local Abbreviation totalSlots :=
  (FixedProductMarketMaker.outcomeSlotCount marketMaker).

Lemma elem_of_slots i : i ∈ seqZ 0 totalSlots <-> 0 <= i < totalSlots.
Proof. rewrite elem_of_seqZ. lia. Qed.

Lemma updateMarketPositionsFromSplit_run (event : PositionSplit.t) w :
  let user := Bytes.toHexString (PositionSplit.stakeholder event) in
  wellFormed w ->
  marketMakers w !! marketMakerAddress = Some marketMaker ->
  1 <= totalSlots ->
  exists w',
    updateMarketPositionsFromSplit marketMakerAddress event w = Ok tt w' /\
    wellFormed w' /\
    marketMakers w' = marketMakers w /\
    conditions w' = conditions w /\
    splits w' = splits w /\
    (forall i, 0 <= i < totalSlots ->
       marketPositions w' !! positionId user marketMakerAddress i
       = Some (withNet (splitLeg (PositionSplit.amount event) totalSlots
                          (positionOf w user marketMakerAddress i)))) /\
    (forall key,
       (forall i, 0 <= i < totalSlots ->
                  key <> positionId user marketMakerAddress i) ->
       marketPositions w' !! key = marketPositions w !! key).
Proof.
  intros user Hw Hmm HN.
  destruct (forEach_legs user marketMakerAddress
              (splitOutcome user marketMakerAddress
                            (PositionSplit.amount event) totalSlots)
              (splitLeg (PositionSplit.amount event) totalSlots)
              ltac:(intros; apply splitOutcome_run; lia) ltac:(done)
              (seqZ 0 totalSlots) w (NoDup_seqZ _ _) Hw)
    as (w' & Hrun & Hw' & H1 & H2 & H3 & Hin & Hout).
  exists w'. split.
  - unfold updateMarketPositionsFromSplit, FixedProductMarketMaker_load.
    unfold mbind at 1, M_bind at 1, bind at 1. rewrite Hmm.
    unfold deref, require.
    unfold mbind at 1, M_bind at 1, bind at 1, ret at 1. exact Hrun.
  - do 4 (split; [done|]). split.
    + intros i Hi. by apply Hin, elem_of_slots.
    + intros key Hk. apply Hout. intros i Hi. by apply Hk, elem_of_slots.
Qed.

Lemma updateMarketPositionsFromMerge_run (event : PositionsMerge.t) w :
  let user := Bytes.toHexString (PositionsMerge.stakeholder event) in
  wellFormed w ->
  marketMakers w !! marketMakerAddress = Some marketMaker ->
  1 <= totalSlots ->
  exists w',
    updateMarketPositionsFromMerge marketMakerAddress event w = Ok tt w' /\
    wellFormed w' /\
    marketMakers w' = marketMakers w /\
    conditions w' = conditions w /\
    (forall i, 0 <= i < totalSlots ->
       marketPositions w' !! positionId user marketMakerAddress i
       = Some (withNet (mergeLeg (PositionsMerge.amount event) totalSlots
                          (positionOf w user marketMakerAddress i)))) /\
    (forall key,
       (forall i, 0 <= i < totalSlots ->
                  key <> positionId user marketMakerAddress i) ->
       marketPositions w' !! key = marketPositions w !! key).
Proof.
  intros user Hw Hmm HN.
  destruct (forEach_legs user marketMakerAddress
              (mergeOutcome user marketMakerAddress
                            (PositionsMerge.amount event) totalSlots)
              (mergeLeg (PositionsMerge.amount event) totalSlots)
              ltac:(intros; apply mergeOutcome_run; lia) ltac:(done)
              (seqZ 0 totalSlots) w (NoDup_seqZ _ _) Hw)
    as (w' & Hrun & Hw' & H1 & H2 & H3 & Hin & Hout).
  exists w'. split.
  - unfold updateMarketPositionsFromMerge, FixedProductMarketMaker_load.
    unfold mbind at 1, M_bind at 1, bind at 1. rewrite Hmm.
    unfold deref, require.
    unfold mbind at 1, M_bind at 1, bind at 1, ret at 1. exact Hrun.
  - do 3 (split; [done|]). split.
    + intros i Hi. by apply Hin, elem_of_slots.
    + intros key Hk. apply Hout. intros i Hi. by apply Hk, elem_of_slots.
Qed.

(** C2.  For every amount A, every outcome count N >= 1 and every
    position that starts with all-zero balances, a Split of amount A
    followed by a Merge of amount A leaves the position with net
    quantity 0 and net value 0: the split adds A to quantityBought and
    the truncating quotient A div N to valueBought, the merge adds the
    same A to quantitySold and the same quotient to valueSold. *)
Theorem split_then_merge_nets_to_zero
    (split : PositionSplit.t) (merge : PositionsMerge.t) (w : World) :
  let user := Bytes.toHexString (PositionSplit.stakeholder split) in
  let A := PositionSplit.amount split in
  wellFormed w ->
  marketMakers w !! marketMakerAddress = Some marketMaker ->
  1 <= totalSlots ->
  PositionsMerge.stakeholder merge = PositionSplit.stakeholder split ->
  PositionsMerge.amount merge = A ->
  (forall i, 0 <= i < totalSlots ->
             balancesZero (positionOf w user marketMakerAddress i)) ->
  exists w1 w2,
    updateMarketPositionsFromSplit marketMakerAddress split w = Ok tt w1 /\
    updateMarketPositionsFromMerge marketMakerAddress merge w1 = Ok tt w2 /\
    forall i, 0 <= i < totalSlots ->
      exists p,
        marketPositions w2 !! positionId user marketMakerAddress i = Some p /\
        MarketPosition.quantityBought p = A /\
        MarketPosition.quantitySold p = A /\
        MarketPosition.valueBought p = A ÷ totalSlots /\
        MarketPosition.valueSold p = A ÷ totalSlots /\
        MarketPosition.netQuantity p = 0 /\
        MarketPosition.netValue p = 0.
Proof.
  intros user A Hw Hmm HN Hst Ham Hzero.
  destruct (updateMarketPositionsFromSplit_run split w Hw Hmm HN)
    as (w1 & Hrun1 & Hw1 & Hmm1 & _ & _ & Hin1 & _).
  rewrite <- Hmm1 in Hmm.
  destruct (updateMarketPositionsFromMerge_run merge w1 Hw1 Hmm HN)
    as (w2 & Hrun2 & _ & _ & _ & Hin2 & _).
  exists w1, w2. do 2 (split; [done|]). intros i Hi.
  pose proof (Hin2 i Hi) as H2. rewrite Hst, Ham in H2.
  pose proof (Hin1 i Hi) as H1. fold user A in H1, H2.
  unfold positionOf at 1 in H2. rewrite H1 in H2.
  eexists. split; [exact H2|].
  destruct (Hzero i Hi) as (Hb & Hs & Hvb & Hvs).
  cbn [mergeLeg splitLeg withNet withValueSold withQuantitySold
       withValueBought withQuantityBought default
       MarketPosition.quantityBought MarketPosition.quantitySold
       MarketPosition.valueBought MarketPosition.valueSold
       MarketPosition.netQuantity MarketPosition.netValue].
  unfold mergeLeg, splitLeg, withNet, withValueSold, withQuantitySold,
    withValueBought, withQuantityBought, BigInt.minus; simpl.
  rewrite Hb, Hs, Hvb, Hvs. repeat split; lia.
Qed.

End SplitMerge.

Lemma split_then_merge_nets_to_zero_witness :
  exists w1 w2,
    updateMarketPositionsFromSplit "0x01" sampleSplit sampleWorld = Ok tt w1 /\
    updateMarketPositionsFromMerge "0x01" sampleMerge w1 = Ok tt w2 /\
    forall i, 0 <= i < 2 ->
      exists p,
        marketPositions w2 !! positionId "0x05" "0x01" i = Some p /\
        MarketPosition.quantityBought p = 10 /\
        MarketPosition.quantitySold p = 10 /\
        MarketPosition.valueBought p = 10 ÷ 2 /\
        MarketPosition.valueSold p = 10 ÷ 2 /\
        MarketPosition.netQuantity p = 0 /\
        MarketPosition.netValue p = 0.
Proof.
  apply (split_then_merge_nets_to_zero "0x01" sampleMarketMaker
           sampleSplit sampleMerge sampleWorld).
  - split; intros key x; simpl.
    + by rewrite lookup_empty.
    + rewrite lookup_singleton. case_decide; [|done]. by intros [= <-].
  - reflexivity.
  - simpl. lia.
  - reflexivity.
  - reflexivity.
  - intros i Hi. unfold positionOf. simpl. rewrite lookup_empty. simpl.
    by repeat split.
Defined.

(** ** Replay *)

Section Replay.
Variables (contracts : Contracts) (marketMakerAddress : string)
          (marketMaker : FixedProductMarketMaker.t) (condition : Condition.t).

Local Abbreviation totalSlots :=
  (FixedProductMarketMaker.outcomeSlotCount marketMaker).

(** One run of the split handler for a tracked account, on a condition
    with one market maker and a full partition. *)
Lemma handlePositionSplit_full (event : PositionSplit.t) (w : World) :
  let user := Bytes.toHexString (PositionSplit.stakeholder event) in
  wellFormed w ->
  trackedStakeholder contracts w (PositionSplit.stakeholder event) ->
  conditions w !! Bytes.toHexString (PositionSplit.conditionId event)
    = Some condition ->
  Condition.fixedProductMarketMakers condition = [marketMakerAddress] ->
  partitionCheck (PositionSplit.partition event)
                 (Condition.outcomeSlotCount condition) = true ->
  marketMakers w !! marketMakerAddress = Some marketMaker ->
  1 <= totalSlots ->
  exists w',
    handlePositionSplit contracts event w = Ok tt w' /\
    wellFormed w' /\
    marketMakers w' = marketMakers w /\
    conditions w' = conditions w /\
    splits w' = <[getEventKey (PositionSplit.event event) := splitOf event]>
                  (splits w) /\
    (forall i, 0 <= i < totalSlots ->
       marketPositions w' !! positionId user marketMakerAddress i
       = Some (withNet (splitLeg (PositionSplit.amount event) totalSlots
                          (positionOf w user marketMakerAddress i)))).
Proof.
  intros user Hw Ht Hc Hmms Hpart Hmm HN.
  destruct (handlePositionSplit_run contracts event w Ht) as (wa & F & E).
  cbv zeta in E.
  change (Split.condition (splitOf event))
    with (Bytes.toHexString (PositionSplit.conditionId event)) in E.
  rewrite Hc, Hpart, Hmms in E.
  set (wb := setSplits _ wa) in E.
  assert (Hwb : wellFormed wb).
  { apply (sameButAccounts_wellFormed _ _ F) in Hw. by destruct Hw. }
  assert (Hfr : marketPositions wb = marketPositions w /\
                marketMakers wb = marketMakers w /\
                conditions wb = conditions w /\
                splits wb = <[getEventKey (PositionSplit.event event)
                                := splitOf event]> (splits w)).
  { unfold wb. unfold sameButAccounts in F. rewrite F. by repeat split. }
  destruct Hfr as (Hp & Hm & Hcs & Hs).
  rewrite <- Hm in Hmm.
  destruct (updateMarketPositionsFromSplit_run marketMakerAddress
              marketMaker event wb Hwb Hmm HN)
    as (w' & Hrun & Hw' & Hmm' & Hc' & Hs' & Hin & _).
  exists w'. split.
  { rewrite E. simpl. by rewrite (bind_ok _ _ _ _ _ Hrun). }
  split; [done|]. rewrite Hmm', Hc', Hs'. do 3 (split; [done|]).
  intros i Hi. unfold user. rewrite (Hin i Hi). unfold positionOf.
  by rewrite Hp.
Qed.

(** C5 (amended).  The mappings keep no record of the events already
    applied.  Applying the identical PositionSplit event a second time
    (same event key) overwrites the Split row under that key with an
    equal row, and adds the amount to quantityBought of each affected
    position once more: after the second application quantityBought
    is what it was after the first plus the amount. *)
Theorem replayed_split_counted_twice (event : PositionSplit.t) (w : World) :
  let user := Bytes.toHexString (PositionSplit.stakeholder event) in
  wellFormed w ->
  trackedStakeholder contracts w (PositionSplit.stakeholder event) ->
  conditions w !! Bytes.toHexString (PositionSplit.conditionId event)
    = Some condition ->
  Condition.fixedProductMarketMakers condition = [marketMakerAddress] ->
  partitionCheck (PositionSplit.partition event)
                 (Condition.outcomeSlotCount condition) = true ->
  marketMakers w !! marketMakerAddress = Some marketMaker ->
  1 <= totalSlots ->
  exists w1 w2,
    handlePositionSplit contracts event w = Ok tt w1 /\
    handlePositionSplit contracts event w1 = Ok tt w2 /\
    splits w2 = splits w1 /\
    forall i, 0 <= i < totalSlots ->
      exists p1 p2,
        marketPositions w1 !! positionId user marketMakerAddress i = Some p1 /\
        marketPositions w2 !! positionId user marketMakerAddress i = Some p2 /\
        MarketPosition.quantityBought p1
        = MarketPosition.quantityBought
            (positionOf w user marketMakerAddress i)
          + PositionSplit.amount event /\
        MarketPosition.quantityBought p2
        = MarketPosition.quantityBought p1 + PositionSplit.amount event.
Proof.
  intros user Hw Ht Hc Hmms Hpart Hmm HN.
  destruct (handlePositionSplit_full event w Hw Ht Hc Hmms Hpart Hmm HN)
    as (w1 & Hrun1 & Hw1 & Hmm1 & Hc1 & Hs1 & Hin1).
  assert (Ht1 : trackedStakeholder contracts w1
                  (PositionSplit.stakeholder event)).
  { unfold trackedStakeholder in *. by rewrite Hmm1. }
  rewrite <- Hc1 in Hc. rewrite <- Hmm1 in Hmm.
  destruct (handlePositionSplit_full event w1 Hw1 Ht1 Hc Hmms Hpart Hmm HN)
    as (w2 & Hrun2 & _ & _ & _ & Hs2 & Hin2).
  exists w1, w2. do 2 (split; [done|]). split.
  { by rewrite Hs2, Hs1, insert_insert_eq. }
  intros i Hi. fold user in Hin1, Hin2.
  pose proof (Hin1 i Hi) as H1. pose proof (Hin2 i Hi) as H2.
  unfold positionOf at 1 in H2. rewrite H1 in H2.
  eexists _, _. do 2 (split; [done|]). by split.
Qed.

End Replay.

Lemma sampleWorld_wellFormed : wellFormed sampleWorld.
Proof.
  split; intros key x; simpl.
  - by rewrite lookup_empty.
  - rewrite lookup_singleton. case_decide; [|done]. by intros [= <-].
Qed.

Lemma replayed_split_counted_twice_witness :
  exists w1 w2,
    handlePositionSplit sampleContracts sampleSplit sampleWorld = Ok tt w1 /\
    handlePositionSplit sampleContracts sampleSplit w1 = Ok tt w2 /\
    splits w2 = splits w1 /\
    forall i, 0 <= i < 2 ->
      exists p1 p2,
        marketPositions w1 !! positionId "0x05" "0x01" i = Some p1 /\
        marketPositions w2 !! positionId "0x05" "0x01" i = Some p2 /\
        MarketPosition.quantityBought p1
        = MarketPosition.quantityBought
            (positionOf sampleWorld "0x05" "0x01" i) + 10 /\
        MarketPosition.quantityBought p2
        = MarketPosition.quantityBought p1 + 10.
Proof.
  apply (replayed_split_counted_twice sampleContracts "0x01"
           sampleMarketMaker sampleCondition sampleSplit sampleWorld).
  - split; intros key x; simpl.
    + by rewrite lookup_empty.
    + rewrite lookup_singleton. case_decide; [|done]. by intros [= <-].
  - repeat split; (reflexivity || discriminate).
  - reflexivity.
  - reflexivity.
  - reflexivity.
  - reflexivity.
  - simpl. lia.
Defined.

(** C5, as stated, fails: the second application of the sample split
    takes quantityBought of outcome 0 from 10 to 20. *)
Lemma replayed_split_doubles_quantityBought :
  let w1 := finalWorld
              (handlePositionSplit sampleContracts sampleSplit sampleWorld) in
  let w2 := finalWorld (handlePositionSplit sampleContracts sampleSplit w1) in
  handlePositionSplit sampleContracts sampleSplit sampleWorld = Ok tt w1 /\
  handlePositionSplit sampleContracts sampleSplit w1 = Ok tt w2 /\
  MarketPosition.quantityBought <$> marketPositions w1 !! "0x050x010"
    = Some 10 /\
  MarketPosition.quantityBought <$> marketPositions w2 !! "0x050x010"
    = Some 20.
Proof.
  cbv zeta. split; [vm_compute; reflexivity|].
  split; [vm_compute; reflexivity|]. split; vm_compute; reflexivity.
Qed.

(** ** Redemption *)

Section RedemptionLoop.
Variables (user market : string)
          (payoutNumerators : list BigInt.t) (payoutDenominator : BigInt.t).
Hypothesis denominator_nonzero : payoutDenominator <> 0.

Local Abbreviation keyOf := (fun s => positionId user market (Z.log2_up s)).

Lemma redeemable_fits s : redeemable payoutNumerators s -> I32.fits s.
Proof.
  intros [[H0 H1] _]. unfold I32.fits, I32.min_int, I32.max_int.
  change (2 ^ 30) with 1073741824 in *. change (2 ^ 31) with 2147483648.
  lia.
Qed.

Lemma storedAt_positionOf w i :
  MarketPosition.quantityBought (storedAt w (positionId user market i))
  = MarketPosition.quantityBought (positionOf w user market i) /\
  MarketPosition.quantitySold (storedAt w (positionId user market i))
  = MarketPosition.quantitySold (positionOf w user market i) /\
  MarketPosition.netQuantity (storedAt w (positionId user market i))
  = MarketPosition.netQuantity (positionOf w user market i).
Proof.
  unfold storedAt, positionOf. by destruct (marketPositions w !! _).
Qed.

Lemma redeemLeg_redeemed w i numerator :
  wellFormed w ->
  redeemedFrom w (positionId user market i)
    (withNet (redeemLeg numerator payoutDenominator
                (positionOf w user market i))).
Proof.
  intros Hw.
  destruct (positionOf_wellFormed w user market i Hw) as (_ & Hn & _).
  destruct (storedAt_positionOf w i) as (Eb & Es & En).
  unfold redeemedFrom. rewrite Eb, Es, En.
  unfold BigInt.minus. simpl. unfold BigInt.minus. lia.
Qed.

Lemma redeemLoop (indexSets : list BigInt.t) (w : World) :
  wellFormed w ->
  (forall s, s ∈ indexSets -> redeemable payoutNumerators s) ->
  exists w',
    forEach indexSets
            (redeemIndexSet user market payoutNumerators payoutDenominator) w
    = Ok tt w' /\
    wellFormed w' /\
    (forall key, key ∈ (keyOf <$> indexSets) ->
       exists p, marketPositions w' !! key = Some p /\ redeemedFrom w key p) /\
    (forall key, key ∉ (keyOf <$> indexSets) ->
       marketPositions w' !! key = marketPositions w !! key).
Proof.
  revert w. induction indexSets as [|x l IH]; intros w Hw Hok.
  - exists w. do 2 (split; [done|]). split; [|done].
    intros key Hk. by apply elem_of_nil in Hk.
  - assert (Hx : redeemable payoutNumerators x) by (apply Hok, elem_of_cons; by left).
    destruct (lookup_lt_is_Some_2 _ _ (proj2 Hx)) as [numerator Hnum].
    set (p0 := positionOf w user market (Z.log2_up x)).
    set (p1 := redeemLeg numerator payoutDenominator p0).
    assert (Hstep : redeemIndexSet user market payoutNumerators
                      payoutDenominator x w = Ok tt (savePosition p1 w)).
    { apply redeemIndexSet_run; try done.
      - by apply redeemable_fits.
      - apply Hx. }
    assert (Hid : MarketPosition.id p1 = keyOf x).
    { by apply (positionOf_wellFormed w user market (Z.log2_up x)). }
    assert (Hsaved : marketPositions (savePosition p1 w) !! keyOf x
                     = Some (withNet p1)).
    { by rewrite savePosition_positions, Hid, lookup_insert_eq. }
    assert (Hother : forall key, key <> keyOf x ->
               marketPositions (savePosition p1 w) !! key
               = marketPositions w !! key).
    { intros key Hk.
      by rewrite savePosition_positions, Hid, lookup_insert_ne. }
    destruct (IH (savePosition p1 w) (savePosition_wellFormed _ _ Hw))
      as (w' & Hrun & Hw' & Hin & Hout).
    { intros s Hs. apply Hok, elem_of_cons. by right. }
    exists w'. simpl forEach. rewrite (bind_ok _ _ _ _ _ Hstep).
    do 2 (split; [done|]).
    pose proof (redeemLeg_redeemed w (Z.log2_up x) numerator Hw) as Hred.
    fold p0 p1 in Hred.
    split.
    + intros key Hk. rewrite fmap_cons in Hk.
      destruct (decide (key ∈ keyOf <$> l)) as [Hl|Hl].
      * destruct (Hin key Hl) as (p & Hp & Hr). exists p. split; [done|].
        destruct (decide (key = keyOf x)) as [->|Hne].
        -- destruct Hr as (Hr0 & Hrb & Hrs), Hred as (Hd0 & Hdb & Hds).
           unfold storedAt in Hrb, Hrs. rewrite Hsaved in Hrb, Hrs.
           simpl default in Hrb, Hrs.
           unfold redeemedFrom. rewrite Hrb, Hrs, Hdb, Hds, Hd0.
           repeat split; [done | lia].
        -- unfold redeemedFrom, storedAt in *.
           by rewrite (Hother key Hne) in Hr.
      * apply elem_of_cons in Hk as [->|Hk]; [|done].
        exists (withNet p1). split; [|done].
        by rewrite (Hout _ Hl).
    + intros key Hk. rewrite fmap_cons in Hk.
      apply not_elem_of_cons in Hk as [Hne Hl].
      by rewrite (Hout key Hl), (Hother key Hne).
Qed.

End RedemptionLoop.


Lemma holderWorld_wellFormed : wellFormed holderWorld.
Proof.
  split; intros key x; simpl; rewrite lookup_singleton;
    (case_decide; [|done]); by intros [= <-].
Qed.

Lemma resolvedWorld_wellFormed : wellFormed resolvedWorld.
Proof.
  split; intros key x; simpl; rewrite lookup_singleton;
    (case_decide; [|done]); by intros [= <-].
Qed.


(** ** Resolution *)

Lemma divDecimal_exact (n d : Z) (q : Q) :
  d <> 0 -> (inject_Z n / inject_Z d == q)%Q ->
  BigInt.divDecimal n (BigInt.toBigDecimal d) = Some (Q2Qc q).
Proof.
  intros Hd Hq. unfold BigInt.divDecimal, BigInt.toBigDecimal.
  destruct (decide (Q2Qc (inject_Z d) = Q2Qc 0)) as [E|_].
  - exfalso. apply Q2Qc_eq_iff in E. unfold Qeq in E. simpl in E. lia.
  - f_equal. apply Qc_is_canon. simpl.
    rewrite !Qred_correct. exact Hq.
Qed.

(** C3.  Resolving a known condition with payoutNumerators [3, 1] stores
    payoutDenominator 4, the sum of the numerators, and the payout
    fractions [0.75, 0.25]; a redemption that follows, of a position with
    netQuantity 100 on outcome index 0, adds exactly 75 to valueSold
    (100 * 3 / 4, truncating), adds 100 to quantitySold and leaves net
    quantity 0. *)
Theorem resolution_3_1_then_redemption
    (resolution : ConditionResolution.t) (redemption : PayoutRedemption.t)
    (marketMakerAddress : string) (condition : Condition.t) (w : World) :
  let conditionId :=
    Bytes.toHexString (ConditionResolution.conditionId resolution) in
  let user := Bytes.toHexString (PayoutRedemption.redeemer redemption) in
  let before := positionOf w user marketMakerAddress 0 in
  wellFormed w ->
  conditions w !! conditionId = Some condition ->
  ConditionResolution.payoutNumerators resolution = [3; 1] ->
  PayoutRedemption.conditionId redemption
    = ConditionResolution.conditionId resolution ->
  PayoutRedemption.indexSets redemption = [1] ->
  MarketPosition.netQuantity before = 100 ->
  exists w1 resolved w2 p,
    handleConditionResolution resolution w = Ok tt w1 /\
    conditions w1 !! conditionId = Some resolved /\
    Condition.payoutNumerators resolved = Some [3; 1] /\
    Condition.payoutDenominator resolved = Some 4 /\
    Condition.payouts resolved = Some [Q2Qc (75 # 100); Q2Qc (25 # 100)] /\
    updateMarketPositionsFromRedemption marketMakerAddress redemption w1
      = Ok tt w2 /\
    marketPositions w2 !! positionId user marketMakerAddress 0 = Some p /\
    MarketPosition.valueSold p = MarketPosition.valueSold before + 75 /\
    MarketPosition.quantitySold p = MarketPosition.quantitySold before + 100 /\
    MarketPosition.netQuantity p = 0.
Proof.
  intros conditionId user before Hw Hc Hnum Hcid Hsets Hnet.
  assert (Hid : Condition.id condition = conditionId) by (by apply Hw).
  (* the resolution *)
  assert (Hres : exists w1,
             handleConditionResolution resolution w = Ok tt w1 /\
             marketPositions w1 = marketPositions w /\
             conditions w1
             = <[conditionId :=
                   Condition.mk conditionId (Condition.oracle condition)
                     (Condition.questionId condition)
                     (Condition.fixedProductMarketMakers condition)
                     (Condition.outcomeSlotCount condition)
                     (Some (Event.block_timestamp
                              (ConditionResolution.event resolution)))
                     (Some [Q2Qc (75 # 100); Q2Qc (25 # 100)])
                     (Some [3; 1]) (Some 4)
                     (Some (Event.transaction_hash
                              (ConditionResolution.event resolution)))]>
                 (conditions w)).
  { unfold handleConditionResolution, Condition_load.
    fold conditionId.
    unfold mbind at 1, M_bind at 1, bind at 1. rewrite Hc, Hnum, Hid.
    change (sumNumerators [3; 1]) with 4.
    cbn [mapM].
    rewrite (divDecimal_exact 3 4 (75 # 100)) by done.
    rewrite (divDecimal_exact 1 4 (25 # 100)) by done.
    unfold requireGlobal, Global_load, Global_save, Condition_save, modify,
      require, mbind, M_bind, bind, mret, M_ret, ret.
    destruct (globals w !! "") as [g|]; eexists; (split; [reflexivity|]);
      by split. }
  destruct Hres as (w1 & Hrun1 & Hp1 & Hc1).
  assert (Hw1 : wellFormed w1).
  { destruct Hw as [Hwp Hwc]. split.
    - intros key q. rewrite Hp1. apply Hwp.
    - intros key c. rewrite Hc1, lookup_insert.
      case_decide; [by intros [= <-] | apply Hwc]. }
  assert (Hbefore : positionOf w1 user marketMakerAddress 0 = before).
  { unfold before, positionOf. by rewrite Hp1. }
  (* the redemption: one index set, 1, that is outcome index 0 *)
  assert (Hstep : redeemIndexSet user marketMakerAddress [3; 1] 4 1 w1
                  = Ok tt (savePosition (redeemLeg 3 4 before) w1)).
  { rewrite <- Hbefore.
    apply (redeemIndexSet_run user marketMakerAddress [3; 1] 4 1 3 w1);
      try done.
    all: unfold I32.fits, I32.min_int, I32.max_int; lia. }
  exists w1. eexists. exists (savePosition (redeemLeg 3 4 before) w1).
  exists (withNet (redeemLeg 3 4 before)).
  split; [done|]. split; [by rewrite Hc1, lookup_insert_eq|].
  do 3 (split; [done|]). split.
  { unfold updateMarketPositionsFromRedemption, Condition_load.
    rewrite Hcid. fold conditionId user.
    unfold mbind at 1, M_bind at 1, bind at 1.
    rewrite Hc1, lookup_insert_eq. unfold deref, require.
    do 3 (unfold mbind at 1, M_bind at 1, bind at 1, ret at 1;
          cbn [Condition.payoutNumerators Condition.payoutDenominator]).
    rewrite Hsets. cbn [forEach].
    by rewrite (bind_ok _ _ _ _ _ Hstep). }
  destruct (positionOf_wellFormed w1 user marketMakerAddress 0 Hw1)
    as (Hkey & Hn & _).
  rewrite Hbefore in Hkey, Hn.
  split.
  { rewrite savePosition_positions.
    change (MarketPosition.id (redeemLeg 3 4 before))
      with (MarketPosition.id before).
    by rewrite Hkey, lookup_insert_eq. }
  cbn [withNet redeemLeg withValueSold withQuantitySold
       MarketPosition.valueSold MarketPosition.quantitySold
       MarketPosition.netQuantity MarketPosition.quantityBought].
  unfold BigInt.minus. rewrite Hnet in *.
  change ((100 * 3) ÷ 4) with 75. repeat split; lia.
Qed.

Lemma resolution_3_1_then_redemption_witness :
  exists w1 resolved w2 p,
    handleConditionResolution sampleResolution holderWorld = Ok tt w1 /\
    conditions w1 !! "0xc0" = Some resolved /\
    Condition.payoutNumerators resolved = Some [3; 1] /\
    Condition.payoutDenominator resolved = Some 4 /\
    Condition.payouts resolved = Some [Q2Qc (75 # 100); Q2Qc (25 # 100)] /\
    updateMarketPositionsFromRedemption "0x01" sampleRedemption w1
      = Ok tt w2 /\
    marketPositions w2 !! positionId "0x05" "0x01" 0 = Some p /\
    MarketPosition.valueSold p = MarketPosition.valueSold heldPosition + 75 /\
    MarketPosition.quantitySold p
    = MarketPosition.quantitySold heldPosition + 100 /\
    MarketPosition.netQuantity p = 0.
Proof.
  apply (resolution_3_1_then_redemption sampleResolution sampleRedemption
           "0x01" sampleCondition holderWorld).
  - apply holderWorld_wellFormed.
  - reflexivity.
  - reflexivity.
  - reflexivity.
  - reflexivity.
  - reflexivity.
Defined.

(** * Further properties of the ledger *)

(** ** Loops over outcome indices *)

Section IndexedLoops.
Variables (user market : string).

Lemma onlyLedgerChanged_refl w : onlyLedgerChanged w w.
Proof. by repeat split. Qed.

Lemma onlyLedgerChanged_trans w1 w2 w3 :
onlyLedgerChanged w1 w2 -> onlyLedgerChanged w2 w3 ->
onlyLedgerChanged w1 w3.
Proof.
intros (A1 & A2 & A3 & A4 & A5 & A6 & A7 & A8)
       (B1 & B2 & B3 & B4 & B5 & B6 & B7 & B8).
unfold onlyLedgerChanged. by rewrite B1, B2, B3, B4, B5, B6, B7, B8.
Qed.

Lemma savePosition_onlyLedgerChanged p w :
onlyLedgerChanged w (savePosition p w).
Proof. unfold savePosition. destruct (BigInt.lt _ _); by repeat split. Qed.

Lemma savePosition_logs p w :
logs (savePosition p w) = logs w ++ reportIfNegative p.
Proof.
unfold savePosition, reportIfNegative.
destruct (BigInt.lt _ _); simpl; [done | by rewrite app_nil_r].
Qed.

Lemma indexedStep_onlyLedgerChanged leg i w :
onlyLedgerChanged w (indexedStep leg user market i w).
Proof.
unfold indexedStep. destruct (legAt _ _ _ _ _);
  [apply savePosition_onlyLedgerChanged | apply onlyLedgerChanged_refl].
Qed.

(** A loop over distinct outcome indices whose pass for [i] saves
  [leg i] of the position, or leaves it alone: every position of the
  loop is written at most once, no other key is written, and the log
  grows by the reports of the written records, in order. *)
Lemma forEach_indexed (body : Z -> M unit)
  (leg : Z -> option (MarketPosition.t -> MarketPosition.t))
  (indices : list Z) :
(forall i change p, leg i = Some change ->
                    MarketPosition.id (change p) = MarketPosition.id p) ->
forall w,
  (forall i w0, i ∈ indices ->
                body i w0 = Ok tt (indexedStep leg user market i w0)) ->
  NoDup indices -> wellFormed w ->
  exists w',
    forEach indices body w = Ok tt w' /\
    wellFormed w' /\
    onlyLedgerChanged w w' /\
    (forall i, i ∈ indices ->
       marketPositions w' !! positionId user market i
       = match legAt leg user market w i with
         | Some p => Some (withNet p)
         | None => marketPositions w !! positionId user market i
         end) /\
    (forall key,
       (forall i, i ∈ indices -> leg i <> None ->
                  key <> positionId user market i) ->
       marketPositions w' !! key = marketPositions w !! key) /\
    logs w' = logs w ++
      concat ((fun i => match legAt leg user market w i with
                        | Some p => reportIfNegative p
                        | None => []
                        end) <$> indices).
Proof.
intros Hid. induction indices as [|x l IH]; intros w Hbody Hnd Hw.
- exists w. split; [done|]. split; [done|].
  split; [apply onlyLedgerChanged_refl|].
  split; [intros i Hi; by apply elem_of_nil in Hi|].
  split; [done|]. simpl. by rewrite app_nil_r.
- apply NoDup_cons in Hnd as [Hx Hnd].
  set (w1 := indexedStep leg user market x w).
  assert (Hw1 : wellFormed w1).
  { unfold w1, indexedStep. destruct (legAt _ _ _ _ _); [|done].
    by apply savePosition_wellFormed. }
  (* what the pass for [x] does to the keys *)
  assert (Hkeep : forall i, i <> x ->
             marketPositions w1 !! positionId user market i
             = marketPositions w !! positionId user market i).
  { intros i Hi. unfold w1, indexedStep, legAt.
    destruct (leg x) as [change|] eqn:El; [|done].
    rewrite savePosition_positions, lookup_insert_ne; [done|].
    rewrite (Hid _ _ _ El).
    destruct (positionOf_wellFormed w user market x Hw) as [-> _].
    intros Heq. apply positionId_inj in Heq. by subst. }
  assert (Hleg : forall i, i <> x ->
             legAt leg user market w1 i = legAt leg user market w i).
  { intros i Hi. unfold legAt, positionOf. by rewrite (Hkeep i Hi). }
  destruct (IH w1) as (w' & Hrun & Hw' & Hfr & Hin & Hout & Hlog);
    [| done | done |].
  { intros i w0 Hi. apply Hbody, elem_of_cons. by right. }
  exists w'. split.
  { simpl. rewrite (bind_ok _ _ _ _ _ (Hbody x w ltac:(apply elem_of_cons; by left))).
    exact Hrun. }
  split; [done|].
  split; [eapply onlyLedgerChanged_trans;
          [apply indexedStep_onlyLedgerChanged | exact Hfr]|].
  split; [|split].
  + intros i [->|Hi]%elem_of_cons.
    * rewrite Hout.
      -- unfold w1, indexedStep. destruct (legAt leg user market w x) as [p|] eqn:El; [|done].
         rewrite savePosition_positions.
         unfold legAt in El. destruct (leg x) as [change|] eqn:Ec; [|done].
         injection El as <-. rewrite (Hid _ _ _ Ec).
         destruct (positionOf_wellFormed w user market x Hw) as [-> _].
         by rewrite lookup_insert_eq.
      -- intros j Hj _ Heq. apply positionId_inj in Heq. by subst.
    * assert (i <> x) by (intros ->; done).
      rewrite (Hin i Hi), (Hleg i) by done.
      destruct (legAt leg user market w i); [done | by apply Hkeep].
  + intros key Hk. rewrite Hout.
    * unfold w1, indexedStep, legAt.
      destruct (leg x) as [change|] eqn:El; [|done].
      rewrite savePosition_positions, lookup_insert_ne; [done|].
      rewrite (Hid _ _ _ El).
      destruct (positionOf_wellFormed w user market x Hw) as [-> _].
      intros <-. apply (Hk x); [apply elem_of_cons; by left | by rewrite El | done].
    * intros i Hi. apply Hk, elem_of_cons. by right.
  + rewrite Hlog. simpl. rewrite app_assoc. f_equal.
    * unfold w1, indexedStep.
      destruct (legAt leg user market w x);
        [apply savePosition_logs | by rewrite app_nil_r].
    * f_equal. apply list_fmap_ext. intros k i Hi.
      rewrite Hleg; [done|]. intros ->.
      apply Hx. by apply list_elem_of_lookup_2 in Hi.
Qed.

End IndexedLoops.

(** ** Trades *)

(** X1.  A trade whose transaction record is found changes exactly one
    position, the one of the record's user, market and outcome index: a
    record of type "Buy" adds its token amount to quantityBought and its
    trade amount to valueBought; a record of any other type, whatever it
    is, is booked as a sale, on quantitySold and valueSold. *)
Theorem trade_books_buy_or_sale
    (event : Event.t) (transaction : Transaction.t) (w : World) :
  let key := positionId (Transaction.user transaction)
                        (Transaction.market transaction)
                        (Transaction.outcomeIndex transaction) in
  let before := positionOf w (Transaction.user transaction)
                           (Transaction.market transaction)
                           (Transaction.outcomeIndex transaction) in
  wellFormed w ->
  transactions w !! Bytes.toHexString (Event.transaction_hash event)
    = Some transaction ->
  exists w' p,
    updateMarketPositionFromTrade event w = Ok tt w' /\
    marketPositions w' = <[key := p]> (marketPositions w) /\
    onlyLedgerChanged w w' /\
    MarketPosition.netQuantity p
    = MarketPosition.quantityBought p - MarketPosition.quantitySold p /\
    (Transaction.type transaction = "Buy" ->
     p = withNet (buyLeg (Transaction.outcomeTokensAmount transaction)
                         (Transaction.tradeAmount transaction) before)) /\
    (Transaction.type transaction <> "Buy" ->
     p = withNet (sellLeg (Transaction.outcomeTokensAmount transaction)
                          (Transaction.tradeAmount transaction) before)).
Proof.
  intros key before Hw Ht.
  destruct (positionOf_wellFormed w (Transaction.user transaction)
              (Transaction.market transaction)
              (Transaction.outcomeIndex transaction) Hw) as (Hid & _).
  fold before key in Hid.
  unfold updateMarketPositionFromTrade, Transaction_load.
  unfold mbind at 1, M_bind at 1, bind at 1. rewrite Ht.
  rewrite (bind_ok _ _ _ _ _ (getMarketPosition_run _ _ _ _)).
  fold before. rewrite updateNetPositionAndSave_run.
  destruct (String.eqb_spec (Transaction.type transaction) "Buy") as [E|E].
  - eexists _, _. split; [reflexivity|].
    split; [by rewrite savePosition_positions; simpl; rewrite Hid|].
    split; [apply savePosition_onlyLedgerChanged|].
    split; [done|]. by split.
  - eexists _, _. split; [reflexivity|].
    split; [by rewrite savePosition_positions; simpl; rewrite Hid|].
    split; [apply savePosition_onlyLedgerChanged|].
    split; [done|]. by split.
Qed.

(** ** The invariant check, when it passes *)

(** X2.  When the position handed to the recomputation step has
    quantitySold at most quantityBought, the step writes nothing to the
    log: it only stores the position, with a non-negative netQuantity,
    and changes no other entity. *)
Theorem no_report_when_net_quantity_is_not_negative
    (p : MarketPosition.t) (w : World) :
  MarketPosition.quantitySold p <= MarketPosition.quantityBought p ->
  exists w',
    updateNetPositionAndSave p w = Ok tt w' /\
    logs w' = logs w /\
    marketPositions w'
    = <[MarketPosition.id p := withNet p]> (marketPositions w) /\
    0 <= MarketPosition.netQuantity (withNet p) /\
    onlyLedgerChanged w w'.
Proof.
  intros Hle. exists (savePosition p w).
  split; [apply updateNetPositionAndSave_run|].
  rewrite savePosition_logs, savePosition_positions.
  assert (Hnet : 0 <= MarketPosition.netQuantity (withNet p)).
  { simpl. unfold BigInt.minus. lia. }
  split.
  { unfold reportIfNegative, BigInt.lt, bigZero.
    destruct (Z.ltb_spec (MarketPosition.netQuantity (withNet p)) 0);
      [lia | by rewrite app_nil_r]. }
  do 2 (split; [done|]). apply savePosition_onlyLedgerChanged.
Qed.

Lemma tradeWorld_wellFormed : wellFormed tradeWorld.
Proof.
  split; intros key x; simpl.
  - by rewrite lookup_empty.
  - rewrite lookup_singleton. case_decide; [|done]. by intros [= <-].
Qed.

Lemma trade_books_buy_or_sale_witness :
  exists w' p,
    updateMarketPositionFromTrade sampleEvent tradeWorld = Ok tt w' /\
    marketPositions w'
    = <[positionId "0x05" "0x01" 0 := p]> (marketPositions tradeWorld) /\
    onlyLedgerChanged tradeWorld w' /\
    MarketPosition.netQuantity p
    = MarketPosition.quantityBought p - MarketPosition.quantitySold p /\
    (Transaction.type sampleTransaction = "Buy" ->
     p = withNet (buyLeg 7 3 (positionOf tradeWorld "0x05" "0x01" 0))) /\
    (Transaction.type sampleTransaction <> "Buy" ->
     p = withNet (sellLeg 7 3 (positionOf tradeWorld "0x05" "0x01" 0))).
Proof.
  apply (trade_books_buy_or_sale sampleEvent sampleTransaction tradeWorld).
  - apply tradeWorld_wellFormed.
  - reflexivity.
Defined.

Lemma no_report_when_net_quantity_is_not_negative_witness :
  exists w',
    updateNetPositionAndSave heldPosition emptyWorld = Ok tt w' /\
    logs w' = logs emptyWorld /\
    marketPositions w'
    = <[MarketPosition.id heldPosition := withNet heldPosition]>
        (marketPositions emptyWorld) /\
    0 <= MarketPosition.netQuantity (withNet heldPosition) /\
    onlyLedgerChanged emptyWorld w'.
Proof.
  apply (no_report_when_net_quantity_is_not_negative heldPosition emptyWorld).
  simpl. lia.
Defined.

(** ** Split and merge, beyond the positions they change *)

Section SplitMergeFrame.
Variables (marketMakerAddress : string)
        (marketMaker : FixedProductMarketMaker.t).

Local Abbreviation totalSlots :=
(FixedProductMarketMaker.outcomeSlotCount marketMaker).

Lemma updateMarketPositionsFromSplit_indexed (event : PositionSplit.t) w :
let user := Bytes.toHexString (PositionSplit.stakeholder event) in
let leg := fun _ : Z =>
  Some (splitLeg (PositionSplit.amount event) totalSlots) in
wellFormed w ->
marketMakers w !! marketMakerAddress = Some marketMaker ->
exists w',
  updateMarketPositionsFromSplit marketMakerAddress event w = Ok tt w' /\
  wellFormed w' /\
  onlyLedgerChanged w w' /\
  (forall i, 0 <= i < totalSlots ->
     marketPositions w' !! positionId user marketMakerAddress i
     = Some (withNet (splitLeg (PositionSplit.amount event) totalSlots
                        (positionOf w user marketMakerAddress i)))) /\
  (forall key,
     (forall i, 0 <= i < totalSlots ->
                key <> positionId user marketMakerAddress i) ->
     marketPositions w' !! key = marketPositions w !! key) /\
  logs w' = logs w ++
    concat ((fun i => match legAt leg user marketMakerAddress w i with
                      | Some p => reportIfNegative p
                      | None => []
                      end) <$> seqZ 0 totalSlots).
Proof.
intros user leg Hw Hmm.
destruct (forEach_indexed user marketMakerAddress
            (splitOutcome user marketMakerAddress
                          (PositionSplit.amount event) totalSlots)
            leg (seqZ 0 totalSlots) ltac:(by intros i c p [= <-]) w)
  as (w' & Hrun & Hw' & Hfr & Hin & Hout & Hlog); [| apply NoDup_seqZ | done |].
{ intros i w0 Hi. apply elem_of_seqZ in Hi. apply splitOutcome_run. lia. }
exists w'. split.
{ unfold updateMarketPositionsFromSplit, FixedProductMarketMaker_load.
  unfold mbind at 1, M_bind at 1, bind at 1. rewrite Hmm.
  unfold deref, require.
  unfold mbind at 1, M_bind at 1, bind at 1, ret at 1. exact Hrun. }
do 2 (split; [done|]). split; [|split; [|done]].
- intros i Hi. apply (Hin i). apply elem_of_seqZ. lia.
- intros key Hk. apply Hout. intros i Hi _. apply Hk.
  apply elem_of_seqZ in Hi. lia.
Qed.

Lemma updateMarketPositionsFromMerge_indexed (event : PositionsMerge.t) w :
let user := Bytes.toHexString (PositionsMerge.stakeholder event) in
let leg := fun _ : Z =>
  Some (mergeLeg (PositionsMerge.amount event) totalSlots) in
wellFormed w ->
marketMakers w !! marketMakerAddress = Some marketMaker ->
exists w',
  updateMarketPositionsFromMerge marketMakerAddress event w = Ok tt w' /\
  wellFormed w' /\
  onlyLedgerChanged w w' /\
  (forall i, 0 <= i < totalSlots ->
     marketPositions w' !! positionId user marketMakerAddress i
     = Some (withNet (mergeLeg (PositionsMerge.amount event) totalSlots
                        (positionOf w user marketMakerAddress i)))) /\
  (forall key,
     (forall i, 0 <= i < totalSlots ->
                key <> positionId user marketMakerAddress i) ->
     marketPositions w' !! key = marketPositions w !! key) /\
  logs w' = logs w ++
    concat ((fun i => match legAt leg user marketMakerAddress w i with
                      | Some p => reportIfNegative p
                      | None => []
                      end) <$> seqZ 0 totalSlots).
Proof.
intros user leg Hw Hmm.
destruct (forEach_indexed user marketMakerAddress
            (mergeOutcome user marketMakerAddress
                          (PositionsMerge.amount event) totalSlots)
            leg (seqZ 0 totalSlots) ltac:(by intros i c p [= <-]) w)
  as (w' & Hrun & Hw' & Hfr & Hin & Hout & Hlog); [| apply NoDup_seqZ | done |].
{ intros i w0 Hi. apply elem_of_seqZ in Hi. apply mergeOutcome_run. lia. }
exists w'. split.
{ unfold updateMarketPositionsFromMerge, FixedProductMarketMaker_load.
  unfold mbind at 1, M_bind at 1, bind at 1. rewrite Hmm.
  unfold deref, require.
  unfold mbind at 1, M_bind at 1, bind at 1, ret at 1. exact Hrun. }
do 2 (split; [done|]). split; [|split; [|done]].
- intros i Hi. apply (Hin i). apply elem_of_seqZ. lia.
- intros key Hk. apply Hout. intros i Hi _. apply Hk.
  apply elem_of_seqZ in Hi. lia.
Qed.

(** X3.  A split for a known market maker always finishes, and writes
  nothing but the positions of the stakeholder on that market maker for
  the outcome indices below its outcomeSlotCount: every other position
  and every other entity is left as it was.  With an outcomeSlotCount
  of zero or less nothing at all is written, and the division by the
  slot count is never reached. *)
Theorem split_changes_only_its_positions (event : PositionSplit.t) (w : World) :
let user := Bytes.toHexString (PositionSplit.stakeholder event) in
wellFormed w ->
marketMakers w !! marketMakerAddress = Some marketMaker ->
exists w',
  updateMarketPositionsFromSplit marketMakerAddress event w = Ok tt w' /\
  onlyLedgerChanged w w' /\
  (forall key,
     (forall i, 0 <= i < totalSlots ->
                key <> positionId user marketMakerAddress i) ->
     marketPositions w' !! key = marketPositions w !! key) /\
  (totalSlots <= 0 ->
   marketPositions w' = marketPositions w /\ logs w' = logs w).
Proof.
intros user Hw Hmm.
destruct (updateMarketPositionsFromSplit_indexed event w Hw Hmm)
  as (w' & Hrun & _ & Hfr & _ & Hout & Hlog).
exists w'. do 3 (split; [done|]). intros HN. split.
- apply map_eq. intros key. apply Hout. intros i Hi. lia.
- rewrite Hlog, seqZ_nil by lia. simpl. by rewrite app_nil_r.
Qed.



Lemma concat_fmap_singleton {A B} (f : A -> list B) (g : A -> B)
  (l : list A) :
(forall x, x ∈ l -> f x = [g x]) -> concat (f <$> l) = g <$> l.
Proof.
induction l as [|x l IH]; intros H; [done|].
cbn [fmap list_fmap concat].
rewrite (H x) by (apply elem_of_cons; by left). simpl. f_equal.
apply IH. intros y Hy. apply H, elem_of_cons. by right.
Qed.

(** X5.  A merge of a positive amount by an account that holds none of
  the N >= 1 positions is still booked: each of the N positions is
  created with quantitySold equal to the amount and a negative
  netQuantity, and the log receives one invariant report per outcome,
  in the order of the outcome indices. *)
Theorem merge_without_holdings_reports_each_outcome
  (event : PositionsMerge.t) (w : World) :
let user := Bytes.toHexString (PositionsMerge.stakeholder event) in
let A := PositionsMerge.amount event in
wellFormed w ->
marketMakers w !! marketMakerAddress = Some marketMaker ->
1 <= totalSlots ->
0 < A ->
(forall i, 0 <= i < totalSlots ->
           marketPositions w !! positionId user marketMakerAddress i
           = None) ->
exists w',
  updateMarketPositionsFromMerge marketMakerAddress event w = Ok tt w' /\
  (forall i, 0 <= i < totalSlots ->
     exists p,
       marketPositions w' !! positionId user marketMakerAddress i = Some p /\
       MarketPosition.quantityBought p = 0 /\
       MarketPosition.quantitySold p = A /\
       MarketPosition.netQuantity p = - A) /\
  logs w' = logs w ++
    ((fun i =>
        Log.mk Log.Error
          "Invalid position: user {} has negative netQuantity on outcome {} on market {}"
          [user; BigInt.toString i; marketMakerAddress])
       <$> seqZ 0 totalSlots).
Proof.
intros user A Hw Hmm HN HA Hnone.
destruct (updateMarketPositionsFromMerge_indexed event w Hw Hmm)
  as (w' & Hrun & _ & _ & Hin & _ & Hlog).
fold user A in Hin, Hlog.
assert (Hfresh : forall i, 0 <= i < totalSlots ->
          positionOf w user marketMakerAddress i
          = freshPosition user marketMakerAddress i).
{ intros i Hi. unfold positionOf. by rewrite (Hnone i Hi). }
exists w'. split; [done|]. split.
- intros i Hi. eexists. split; [apply (Hin i Hi)|].
  rewrite (Hfresh i Hi). simpl. unfold BigInt.minus, bigZero.
  repeat split; lia.
- rewrite Hlog. f_equal. apply concat_fmap_singleton.
  intros i Hi. apply elem_of_seqZ in Hi. unfold legAt.
  rewrite Hfresh by lia. unfold reportIfNegative.
  assert (Hlt : BigInt.lt
            (MarketPosition.netQuantity
               (withNet (mergeLeg A totalSlots
                           (freshPosition user marketMakerAddress i))))
            bigZero = true).
  { simpl. unfold BigInt.lt, BigInt.minus, bigZero. apply Z.ltb_lt. lia. }
  by rewrite Hlt.
Qed.

End SplitMergeFrame.

Lemma split_changes_only_its_positions_witness :
  exists w',
    updateMarketPositionsFromSplit "0x01" sampleSplit sampleWorld = Ok tt w' /\
    onlyLedgerChanged sampleWorld w' /\
    (forall key,
       (forall i, 0 <= i < 2 -> key <> positionId "0x05" "0x01" i) ->
       marketPositions w' !! key = marketPositions sampleWorld !! key) /\
    (2 <= 0 ->
     marketPositions w' = marketPositions sampleWorld /\
     logs w' = logs sampleWorld).
Proof.
  apply (split_changes_only_its_positions "0x01" sampleMarketMaker
           sampleSplit sampleWorld).
  - apply sampleWorld_wellFormed.
  - reflexivity.
Defined.


Lemma merge_without_holdings_reports_each_outcome_witness :
  exists w',
    updateMarketPositionsFromMerge "0x01" sampleMerge sampleWorld = Ok tt w' /\
    (forall i, 0 <= i < 2 ->
       exists p,
         marketPositions w' !! positionId "0x05" "0x01" i = Some p /\
         MarketPosition.quantityBought p = 0 /\
         MarketPosition.quantitySold p = 10 /\
         MarketPosition.netQuantity p = - 10) /\
    logs w' = logs sampleWorld ++
      ((fun i =>
          Log.mk Log.Error
            "Invalid position: user {} has negative netQuantity on outcome {} on market {}"
            ["0x05"; BigInt.toString i; "0x01"])
         <$> seqZ 0 2).
Proof.
  apply (merge_without_holdings_reports_each_outcome "0x01" sampleMarketMaker
           sampleMerge sampleWorld).
  - apply sampleWorld_wellFormed.
  - reflexivity.
  - simpl. lia.
  - simpl. lia.
  - intros i Hi. simpl. apply lookup_empty.
Defined.

(** ** Redemption: bounds, replay, failure *)

Lemma wrap_range (x : Z) : I32.fits (I32.wrap x).
Proof.
  unfold I32.fits, I32.wrap, I32.min_int, I32.max_int.
  pose proof (Z.mod_pos_bound (x + 2 ^ 31) (2 ^ 32) eq_refl). lia.
Qed.

Lemma wrap_high (x : Z) : 2 ^ 31 <= x < 2 ^ 32 -> I32.wrap x = x - 2 ^ 32.
Proof.
  intros H. unfold I32.wrap.
  replace (x + 2 ^ 31) with (x - 2 ^ 31 + 1 * 2 ^ 32) by lia.
  rewrite Z.mod_add by done. rewrite Z.mod_small; lia.
Qed.

(** X6.  Whatever index set the redemption decoder is given, when it
    returns an outcome index the store is not touched and the index lies
    between 0 and 30: outcome slots 31 and above are out of its reach.
    The index is the least [k] with [x <= 2^k] for the number [x] that
    [toI32] hands to the loop, which is the index set wrapped to 32
    bits and need not be the index set itself: an index set from [2^31]
    to [2^32 - 1] is read as a negative number and decoded to index 0. *)
Theorem outcome_index_is_at_most_30
    (indexSet : BigInt.t) (w w' : World) (k : Z) :
  outcomeIndexOf indexSet w = Ok k w' ->
  w' = w /\ 0 <= k <= 30 /\
  - 2 ^ 32 <= indexSet < 2 ^ 32 /\
  I32.wrap indexSet <= 2 ^ k /\
  (0 < k -> 2 ^ (k - 1) < I32.wrap indexSet) /\
  (2 ^ 31 <= indexSet -> k = 0).
Proof.
  unfold outcomeIndexOf, require, mbind, M_bind, bind, ret, fail.
  destruct (BigInt.toI32 indexSet) as [x|] eqn:Efit; [|done].
  assert (x = I32.wrap indexSet /\ - 2 ^ 32 <= indexSet < 2 ^ 32)
    as [Hx Hrange].
  { unfold BigInt.toI32 in Efit.
    destruct (Z.leb_spec (- 2 ^ 32) indexSet),
             (Z.ltb_spec indexSet (2 ^ 32)); simpl in Efit; try done.
    injection Efit as <-. by split. }
  destruct (outcomeIndexLoop outcomeIndexFuel x 0) as [k'|] eqn:El;
    [|done].
  intros [= -> ->]. split; [done|]. rewrite <- Hx.
  assert (Hhigh : 2 ^ 31 <= indexSet -> x <= 1).
  { intros H. rewrite Hx, wrap_high by lia. lia. }
  destruct (Z.le_gt_cases x (2 ^ 30)) as [Hs|Hs];
    [|by rewrite outcomeIndexLoop_diverges in El].
  destruct (Z.le_gt_cases x 1) as [H1|H1].
  - pose proof (outcomeIndexLoop_le_zero 31 x H1) as E.
    change (S 31) with outcomeIndexFuel in E. rewrite E in El.
    injection El as <-. change (2 ^ 0) with 1.
    split; [lia|]. split; [done|]. split; [done|]. split; [lia | done].
  - rewrite outcomeIndexLoop_log2_up in El by lia. injection El as <-.
    pose proof (log2_up_bound x Hs).
    pose proof (Z.log2_up_nonneg x).
    pose proof (Z.log2_up_spec x H1) as [Hlo Hhi].
    rewrite <- Z.sub_1_r in Hlo.
    split; [lia|]. split; [done|]. split; [done|]. split; [done|].
    intros Hge. apply Hhigh in Hge. lia.
Qed.

Lemma outcome_index_is_at_most_30_witness :
  emptyWorld = emptyWorld /\ 0 <= 0 <= 30 /\
  - 2 ^ 32 <= 4294967295 < 2 ^ 32 /\
  I32.wrap 4294967295 <= 2 ^ 0 /\
  (0 < 0 -> 2 ^ (0 - 1) < I32.wrap 4294967295) /\
  (2 ^ 31 <= 4294967295 -> 0 = 0).
Proof.
  apply (outcome_index_is_at_most_30 4294967295 emptyWorld emptyWorld 0).
  reflexivity.
Defined.

Lemma outcome_index_frame s w k w' : outcomeIndexOf s w = Ok k w' -> w' = w.
Proof.
  unfold outcomeIndexOf, require, mbind, M_bind, bind, ret, fail.
  destruct (BigInt.toI32 s); [|done].
  destruct (outcomeIndexLoop outcomeIndexFuel _ 0); [|done].
  by intros [= _ ->].
Qed.

Section RedemptionRuns.
Variables (marketMakerAddress : string) (condition : Condition.t)
        (payoutNumerators : list BigInt.t) (payoutDenominator : BigInt.t).

Lemma updateMarketPositionsFromRedemption_resolved
  (event : PayoutRedemption.t) (w : World) :
conditions w !! Bytes.toHexString (PayoutRedemption.conditionId event)
  = Some condition ->
Condition.payoutNumerators condition = Some payoutNumerators ->
Condition.payoutDenominator condition = Some payoutDenominator ->
updateMarketPositionsFromRedemption marketMakerAddress event w
= forEach (PayoutRedemption.indexSets event)
          (redeemIndexSet
             (Bytes.toHexString (PayoutRedemption.redeemer event))
             marketMakerAddress payoutNumerators payoutDenominator) w.
Proof.
intros Hc Hpn Hpd.
unfold updateMarketPositionsFromRedemption, Condition_load.
unfold mbind at 1, M_bind at 1, bind at 1. rewrite Hc.
unfold deref, require.
unfold mbind at 1, M_bind at 1, bind at 1, ret at 1.
by rewrite Hpn, Hpd.
Qed.

(** A redemption pass over a position whose net quantity is already 0
  writes back the record it read. *)
Lemma redeemLeg_settled numerator (p : MarketPosition.t) key :
positionWellFormed key p ->
MarketPosition.netQuantity p = 0 ->
withNet (redeemLeg numerator payoutDenominator p) = p.
Proof.
intros (_ & Hn & Hv) H0. destruct p as [id m u oi qb qs nq vb vs nv].
simpl in *. unfold withNet, redeemLeg, withValueSold, withQuantitySold,
  BigInt.minus. simpl. rewrite H0 in *.
change ((0 * numerator) ÷ payoutDenominator) with 0.
rewrite !Z.add_0_r. f_equal; lia.
Qed.

Lemma redeemLoop_settled (user : string) (indexSets : list BigInt.t)
  (w : World) :
payoutDenominator <> 0 ->
wellFormed w ->
(forall s, s ∈ indexSets -> redeemable payoutNumerators s) ->
(forall s, s ∈ indexSets ->
   exists p,
     marketPositions w !! positionId user marketMakerAddress (Z.log2_up s)
     = Some p /\ MarketPosition.netQuantity p = 0) ->
forEach indexSets
        (redeemIndexSet user marketMakerAddress payoutNumerators
                        payoutDenominator) w
= Ok tt w.
Proof.
intros Hd Hw. induction indexSets as [|x l IH]; intros Hok Hzero; [done|].
assert (Hx : redeemable payoutNumerators x)
  by (apply Hok, elem_of_cons; by left).
destruct (lookup_lt_is_Some_2 _ _ (proj2 Hx)) as [numerator Hnum].
destruct (Hzero x) as (p & Hp & Hp0); [apply elem_of_cons; by left|].
assert (Hpos : positionOf w user marketMakerAddress (Z.log2_up x) = p).
{ unfold positionOf. by rewrite Hp. }
pose proof (proj1 Hw _ _ Hp) as Hwf.
cbn [forEach].
rewrite (bind_ok _ _ _ _ _
           (redeemIndexSet_run user marketMakerAddress payoutNumerators
              payoutDenominator x numerator w
              (redeemable_fits _ _ Hx) (proj2 (proj1 Hx)) Hnum Hd)).
rewrite Hpos.
assert (Hsame : savePosition (redeemLeg numerator payoutDenominator p) w = w).
{ pose proof (redeemLeg_settled numerator p _ Hwf Hp0) as Hfix.
  unfold savePosition.
  change (MarketPosition.id (redeemLeg numerator payoutDenominator p))
    with (MarketPosition.id p).
  rewrite Hfix. destruct Hwf as (Hid & _). rewrite Hid.
  unfold BigInt.lt, bigZero. rewrite Hp0. simpl.
  destruct w. unfold setMarketPositions. simpl in *. f_equal.
  by apply insert_id. }
rewrite Hsame. apply IH.
- intros s Hs. apply Hok, elem_of_cons. by right.
- intros s Hs. apply Hzero, elem_of_cons. by right.
Qed.

(** X7.  A redemption that has gone through can be applied again without
  effect: the second run of the same event on the resulting store
  finishes and leaves the store, log included, exactly as the first
  run left it. *)
Theorem redemption_replay_changes_nothing
  (event : PayoutRedemption.t) (w : World) :
wellFormed w ->
conditions w !! Bytes.toHexString (PayoutRedemption.conditionId event)
  = Some condition ->
Condition.payoutNumerators condition = Some payoutNumerators ->
Condition.payoutDenominator condition = Some payoutDenominator ->
payoutDenominator <> 0 ->
(forall s, s ∈ PayoutRedemption.indexSets event ->
           redeemable payoutNumerators s) ->
exists w',
  updateMarketPositionsFromRedemption marketMakerAddress event w
    = Ok tt w' /\
  updateMarketPositionsFromRedemption marketMakerAddress event w'
    = Ok tt w'.
Proof.
intros Hw Hc Hpn Hpd Hd Hok.
destruct (redeemLoop (Bytes.toHexString (PayoutRedemption.redeemer event))
            marketMakerAddress payoutNumerators payoutDenominator Hd
            (PayoutRedemption.indexSets event) w Hw Hok)
  as (w' & Hrun & Hw' & Hin & Hout).
assert (Hc' : conditions w' = conditions w).
{ clear -Hrun. revert w Hrun.
  induction (PayoutRedemption.indexSets event) as [|x l IH]; intros w Hrun.
  - by injection Hrun as <-.
  - cbn [forEach] in Hrun. unfold mbind, M_bind, bind in Hrun.
    destruct (redeemIndexSet _ _ _ _ x w) as [[] w1|] eqn:E; [|done].
    rewrite (IH w1 Hrun). clear -E.
    unfold redeemIndexSet in E.
    unfold mbind, M_bind, bind in E.
    destruct (outcomeIndexOf x w) as [k w0|] eqn:Ek; [|done].
    apply outcome_index_frame in Ek as ->.
    rewrite getMarketPosition_run in E.
    unfold arrayGet, require in E.
    destruct (if k <? 0 then None else payoutNumerators !! Z.to_nat k);
      [|done].
    unfold ret in E. destruct (BigInt.div _ _); [|done].
    rewrite updateNetPositionAndSave_run in E. injection E as <-.
    apply savePosition_conditions. }
exists w'. split.
{ by rewrite (updateMarketPositionsFromRedemption_resolved event w Hc Hpn Hpd). }
rewrite <- Hc' in Hc.
rewrite (updateMarketPositionsFromRedemption_resolved event w' Hc Hpn Hpd).
apply redeemLoop_settled; try done.
intros s Hs.
destruct (Hin (positionId
                 (Bytes.toHexString (PayoutRedemption.redeemer event))
                 marketMakerAddress (Z.log2_up s)))
  as (p & Hp & Hn & _).
{ apply list_elem_of_fmap. by exists s. }
by exists p.
Qed.

End RedemptionRuns.

Lemma redemption_replay_changes_nothing_witness :
  exists w',
    updateMarketPositionsFromRedemption "0x01" sampleRedemption resolvedWorld
      = Ok tt w' /\
    updateMarketPositionsFromRedemption "0x01" sampleRedemption w' = Ok tt w'.
Proof.
  apply (redemption_replay_changes_nothing "0x01" resolvedCondition [3; 1] 4
           sampleRedemption resolvedWorld).
  - apply resolvedWorld_wellFormed.
  - reflexivity.
  - reflexivity.
  - reflexivity.
  - lia.
  - intros s Hs. apply list_elem_of_singleton in Hs. subst s.
    split; [lia | vm_compute; lia].
Defined.

Section RedemptionEdges.
Variables (marketMakerAddress : string) (condition : Condition.t)
        (payoutNumerators : list BigInt.t) (payoutDenominator : BigInt.t).

(** X8.  When the first index set of a redemption decodes to an outcome
  index that is not inside the payout vector of the resolved condition
  (mask 5 or 6 on three outcomes decodes to index 3), reading the
  numerator aborts the handler, and nothing has been written. *)
Theorem redemption_index_outside_payout_vector_aborts
  (event : PayoutRedemption.t) (s : BigInt.t) (rest : list BigInt.t)
  (w : World) :
conditions w !! Bytes.toHexString (PayoutRedemption.conditionId event)
  = Some condition ->
Condition.payoutNumerators condition = Some payoutNumerators ->
Condition.payoutDenominator condition = Some payoutDenominator ->
PayoutRedemption.indexSets event = s :: rest ->
0 <= s <= 2 ^ 30 ->
(length payoutNumerators <= Z.to_nat (Z.log2_up s))%nat ->
updateMarketPositionsFromRedemption marketMakerAddress event w
= Abort IndexOutOfRange w.
Proof.
intros Hc Hpn Hpd Hsets Hs Hlen.
rewrite (updateMarketPositionsFromRedemption_resolved marketMakerAddress
           condition payoutNumerators payoutDenominator event w Hc Hpn Hpd).
rewrite Hsets. cbn [forEach]. unfold redeemIndexSet.
assert (Hfit : I32.fits s).
{ unfold I32.fits, I32.min_int, I32.max_int.
  change (2 ^ 30) with 1073741824 in *. change (2 ^ 31) with 2147483648.
  lia. }
unfold mbind at 1, M_bind at 1, bind at 1.
unfold mbind at 1, M_bind at 1, bind at 1.
rewrite (outcomeIndexOf_run s w Hfit (proj2 Hs)).
unfold mbind at 1, M_bind at 1, bind at 1.
rewrite getMarketPosition_run.
unfold arrayGet. pose proof (Z.log2_up_nonneg s).
destruct (Z.ltb_spec (Z.log2_up s) 0); [lia|].
rewrite (lookup_ge_None_2 payoutNumerators _ Hlen).
reflexivity.
Qed.

(** X9.  On a resolved condition whose numerator for the redeemed
  outcome lies between 0 and the positive denominator, a redemption of
  one index set credits to valueSold at least 0 and at most the
  position's non-negative net quantity: all of it when the numerator
  equals the denominator, nothing when the numerator is 0. *)
Theorem redemption_value_is_bounded
  (event : PayoutRedemption.t) (s numerator : BigInt.t) (w : World) :
let user := Bytes.toHexString (PayoutRedemption.redeemer event) in
let before := positionOf w user marketMakerAddress (Z.log2_up s) in
wellFormed w ->
conditions w !! Bytes.toHexString (PayoutRedemption.conditionId event)
  = Some condition ->
Condition.payoutNumerators condition = Some payoutNumerators ->
Condition.payoutDenominator condition = Some payoutDenominator ->
PayoutRedemption.indexSets event = [s] ->
0 <= s <= 2 ^ 30 ->
payoutNumerators !! Z.to_nat (Z.log2_up s) = Some numerator ->
0 <= numerator <= payoutDenominator ->
0 < payoutDenominator ->
0 <= MarketPosition.netQuantity before ->
exists w' p,
  updateMarketPositionsFromRedemption marketMakerAddress event w
    = Ok tt w' /\
  marketPositions w' !! positionId user marketMakerAddress (Z.log2_up s)
    = Some p /\
  MarketPosition.valueSold before <= MarketPosition.valueSold p
    <= MarketPosition.valueSold before + MarketPosition.netQuantity before /\
  (numerator = payoutDenominator ->
   MarketPosition.valueSold p
   = MarketPosition.valueSold before + MarketPosition.netQuantity before) /\
  (numerator = 0 ->
   MarketPosition.valueSold p = MarketPosition.valueSold before).
Proof.
intros user before Hw Hc Hpn Hpd Hsets Hs Hnum Hrange Hd Hnet.
assert (Hfit : I32.fits s).
{ unfold I32.fits, I32.min_int, I32.max_int.
  change (2 ^ 30) with 1073741824 in *. change (2 ^ 31) with 2147483648.
  lia. }
exists (savePosition (redeemLeg numerator payoutDenominator before) w).
exists (withNet (redeemLeg numerator payoutDenominator before)).
split.
{ rewrite (updateMarketPositionsFromRedemption_resolved marketMakerAddress
             condition payoutNumerators payoutDenominator event w Hc Hpn Hpd).
  rewrite Hsets. cbn [forEach]. fold user.
  rewrite (bind_ok _ _ _ _ _
             (redeemIndexSet_run user marketMakerAddress payoutNumerators
                payoutDenominator s numerator w Hfit (proj2 Hs) Hnum
                ltac:(lia))).
  done. }
destruct (positionOf_wellFormed w user marketMakerAddress (Z.log2_up s) Hw)
  as (Hid & _). fold before in Hid.
split.
{ rewrite savePosition_positions.
  change (MarketPosition.id (redeemLeg numerator payoutDenominator before))
    with (MarketPosition.id before).
  by rewrite Hid, lookup_insert_eq. }
cbn [withNet redeemLeg withValueSold withQuantitySold
     MarketPosition.valueSold].
set (n := MarketPosition.netQuantity before) in *.
assert (Hq : 0 <= (n * numerator) ÷ payoutDenominator <= n).
{ split.
  - apply Z.quot_pos; nia.
  - apply Z.quot_le_upper_bound; nia. }
split; [lia|]. split.
- intros ->. rewrite Z.quot_mul by lia. done.
- intros ->. rewrite Z.mul_0_r. change (0 ÷ payoutDenominator) with 0. lia.
Qed.

End RedemptionEdges.

Lemma redemption_index_outside_payout_vector_aborts_witness :
  updateMarketPositionsFromRedemption "0x01" maskFiveRedemption threeWayWorld
  = Abort IndexOutOfRange threeWayWorld.
Proof.
  apply (redemption_index_outside_payout_vector_aborts "0x01"
           threeWayCondition [1; 0; 0] 1 maskFiveRedemption 5 []
           threeWayWorld).
  - reflexivity.
  - reflexivity.
  - reflexivity.
  - reflexivity.
  - lia.
  - vm_compute. lia.
Defined.

Lemma redemption_value_is_bounded_witness :
  exists w' p,
    updateMarketPositionsFromRedemption "0x01" sampleRedemption resolvedWorld
      = Ok tt w' /\
    marketPositions w' !! positionId "0x05" "0x01" (Z.log2_up 1) = Some p /\
    MarketPosition.valueSold heldPosition <= MarketPosition.valueSold p
      <= MarketPosition.valueSold heldPosition
         + MarketPosition.netQuantity heldPosition /\
    (3 = 4 ->
     MarketPosition.valueSold p
     = MarketPosition.valueSold heldPosition
       + MarketPosition.netQuantity heldPosition) /\
    (3 = 0 ->
     MarketPosition.valueSold p = MarketPosition.valueSold heldPosition).
Proof.
  apply (redemption_value_is_bounded "0x01" resolvedCondition [3; 1] 4
           sampleRedemption 1 3 resolvedWorld).
  - apply resolvedWorld_wellFormed.
  - reflexivity.
  - reflexivity.
  - reflexivity.
  - reflexivity.
  - lia.
  - reflexivity.
  - lia.
  - lia.
  - vm_compute. discriminate.
Defined.

(** ** Liquidity *)

Lemma fold_left_max_ge (xs : list Z) (a : Z) :
  a <= fold_left Z.max xs a /\
  (forall x, x ∈ xs -> x <= fold_left Z.max xs a) /\
  fold_left Z.max xs a ∈ a :: xs.
Proof.
  revert a. induction xs as [|y xs IH]; intros a; simpl.
  - split; [lia|]. split; [intros x Hx; by apply elem_of_nil in Hx|].
    apply elem_of_cons. by left.
  - destruct (IH (Z.max a y)) as (H1 & H2 & H3). split; [lia|]. split.
    + intros x [->|Hx]%elem_of_cons; [lia | by apply H2].
    + apply elem_of_cons in H3 as [H3|H3].
      * rewrite H3. destruct (Z.max_spec a y) as [[_ ->]|[_ ->]].
        -- apply elem_of_cons. right. apply elem_of_cons. by left.
        -- apply elem_of_cons. by left.
      * apply elem_of_cons. right. apply elem_of_cons. by right.
Qed.

Lemma max_upper_bound (array : list BigInt.t) (x : BigInt.t) :
  x ∈ array -> x <= max array.
Proof.
  destruct array as [|a xs]; [intros H; by apply elem_of_nil in H|].
  simpl. destruct (fold_left_max_ge xs a) as (H1 & H2 & _).
  intros [->|Hx]%elem_of_cons; [done | by apply H2].
Qed.

Lemma max_attained (array : list BigInt.t) :
  array <> [] -> max array ∈ array.
Proof.
  destruct array as [|a xs]; [done|]. intros _. simpl.
  apply fold_left_max_ge.
Qed.

Lemma seqZ_length_lookup {A} (xs : list A) (i : Z) :
  i ∈ seqZ 0 (Z.of_nat (length xs)) ->
  0 <= i /\ exists x, xs !! Z.to_nat i = Some x.
Proof.
  intros Hi. apply elem_of_seqZ in Hi. split; [lia|].
  apply lookup_lt_is_Some_2. lia.
Qed.

Section LiquidityRemoved.
Variables (event : FPMMFundingRemoved.t).

Local Abbreviation fpmmAddress :=
(Bytes.toHexString (Event.address (FPMMFundingRemoved.event event))).
Local Abbreviation funder :=
(Bytes.toHexString (FPMMFundingRemoved.funder event)).
Local Abbreviation amountsRemoved := (FPMMFundingRemoved.amountsRemoved event).
Local Abbreviation outcomes := (Z.of_nat (length amountsRemoved)).

(** X10.  A liquidity removal that lists no outcome amounts aborts on
  the division of sharesBurnt by the number of outcomes, before
  anything is read or written. *)
Theorem liquidity_removed_without_outcomes_aborts (w : World) :
amountsRemoved = [] ->
updateMarketPositionFromLiquidityRemoved event w = Abort DivisionByZero w.
Proof.
intros H. unfold updateMarketPositionFromLiquidityRemoved. by rewrite H.
Qed.

(** X11.  A liquidity removal that lists n >= 1 outcome amounts always
  finishes, whether or not a market-maker entity exists for the emitting
  address: for each outcome index i below n the funder's position gets
  amountsRemoved[i] added to quantityBought and the truncating quotient
  sharesBurnt / n added to valueBought, and nothing else is written. *)
Theorem liquidity_removed_books_each_outcome (w : World) :
wellFormed w ->
amountsRemoved <> [] ->
exists w',
  updateMarketPositionFromLiquidityRemoved event w = Ok tt w' /\
  onlyLedgerChanged w w' /\
  (forall i amount,
     0 <= i -> amountsRemoved !! Z.to_nat i = Some amount ->
     marketPositions w' !! positionId funder fpmmAddress i
     = Some (withNet
               (buyLeg amount
                  (FPMMFundingRemoved.sharesBurnt event ÷ outcomes)
                  (positionOf w funder fpmmAddress i)))) /\
  (forall key,
     (forall i, 0 <= i < outcomes -> key <> positionId funder fpmmAddress i) ->
     marketPositions w' !! key = marketPositions w !! key).
Proof.
intros Hw Hne.
assert (Hn : outcomes <> 0) by (destruct amountsRemoved; [done | simpl; lia]).
set (price := FPMMFundingRemoved.sharesBurnt event ÷ outcomes).
set (leg := fun i : Z =>
       if i <? 0 then None
       else match amountsRemoved !! Z.to_nat i with
            | Some amount => Some (buyLeg amount price)
            | None => None
            end).
destruct (forEach_indexed funder fpmmAddress
            (liquidityRemovedOutcome funder fpmmAddress amountsRemoved price)
            leg (seqZ 0 outcomes)) with (w := w)
  as (w' & Hrun & _ & Hfr & Hin & Hout & _); [| | apply NoDup_seqZ | done |].
{ intros i c p. unfold leg. destruct (i <? 0); [done|].
  destruct (amountsRemoved !! Z.to_nat i); [|done]. by intros [= <-]. }
{ intros i w0 Hi. apply seqZ_length_lookup in Hi as (Hi0 & a & Ha).
  unfold liquidityRemovedOutcome.
  rewrite (bind_ok _ _ _ _ _ (getMarketPosition_run _ _ _ _)).
  rewrite (bind_ok _ _ _ _ _ (arrayGet_run _ _ _ _ Hi0 Ha)).
  rewrite updateNetPositionAndSave_run.
  unfold indexedStep, legAt, leg.
  destruct (Z.ltb_spec i 0); [lia|]. unfold BigInt.t in *.
  by rewrite Ha. }
exists w'. split.
{ unfold updateMarketPositionFromLiquidityRemoved, BigInt.div,
    BigInt.fromI32.
  destruct (Z.eqb_spec outcomes 0) as [|_]; [done|].
  unfold require. unfold mbind at 1, M_bind at 1, bind at 1, ret at 1.
  exact Hrun. }
split; [done|]. split.
- intros i amount Hi Ha.
  rewrite (Hin i).
  + unfold legAt, leg. destruct (Z.ltb_spec i 0); [lia|].
    unfold BigInt.t in *. by rewrite Ha.
  + apply elem_of_seqZ. apply lookup_lt_Some in Ha.
    unfold BigInt.t in *. lia.
- intros key Hk. apply Hout. intros i Hi _. apply Hk.
  apply elem_of_seqZ in Hi. lia.
Qed.

End LiquidityRemoved.

Lemma liquidity_removed_without_outcomes_aborts_witness :
  updateMarketPositionFromLiquidityRemoved emptyFundingRemoved emptyWorld
  = Abort DivisionByZero emptyWorld.
Proof.
  apply (liquidity_removed_without_outcomes_aborts emptyFundingRemoved
           emptyWorld).
  reflexivity.
Defined.

Lemma liquidity_removed_books_each_outcome_witness :
  exists w',
    updateMarketPositionFromLiquidityRemoved sampleFundingRemoved emptyWorld
      = Ok tt w' /\
    onlyLedgerChanged emptyWorld w' /\
    (forall i amount,
       0 <= i -> [6; 2] !! Z.to_nat i = Some amount ->
       marketPositions w' !! positionId "0x05" "0xc7" i
       = Some (withNet (buyLeg amount (9 ÷ 2)
                          (positionOf emptyWorld "0x05" "0xc7" i)))) /\
    (forall key,
       (forall i, 0 <= i < 2 -> key <> positionId "0x05" "0xc7" i) ->
       marketPositions w' !! key = marketPositions emptyWorld !! key).
Proof.
  apply (liquidity_removed_books_each_outcome sampleFundingRemoved emptyWorld).
  - apply emptyWorld_wellFormed.
  - discriminate.
Defined.

Lemma forEach_noop {A} (xs : list A) (body : A -> M unit) (w : World) :
  (forall x, x ∈ xs -> body x w = Ok tt w) -> forEach xs body w = Ok tt w.
Proof.
  induction xs as [|x xs IH]; intros H; [done|]. cbn [forEach].
  rewrite (bind_ok _ _ _ _ _ (H x ltac:(apply elem_of_cons; by left))).
  apply IH. intros y Hy. apply H, elem_of_cons. by right.
Qed.

Section LiquidityAddedRuns.
Variable refundValueOf : BigInt.t -> Qc -> BigInt.t.
Variables (event : FPMMFundingAdded.t)
        (marketMaker : FixedProductMarketMaker.t).

Local Abbreviation fpmmAddress :=
(Bytes.toHexString (Event.address (FPMMFundingAdded.event event))).
Local Abbreviation funder :=
(Bytes.toHexString (FPMMFundingAdded.funder event)).
Local Abbreviation amountsAdded := (FPMMFundingAdded.amountsAdded event).
Local Abbreviation prices :=
(FixedProductMarketMaker.outcomeTokenPrices marketMaker).
Local Abbreviation outcomes := (Z.of_nat (length amountsAdded)).

Lemma updateMarketPositionFromLiquidityAdded_loop (w : World) :
marketMakers w !! fpmmAddress = Some marketMaker ->
updateMarketPositionFromLiquidityAdded refundValueOf event w
= forEach (seqZ 0 outcomes)
          (liquidityAddedOutcome refundValueOf funder fpmmAddress
             amountsAdded (max amountsAdded) prices) w.
Proof.
intros Hmm.
unfold updateMarketPositionFromLiquidityAdded, FixedProductMarketMaker_load.
unfold mbind at 1, M_bind at 1, bind at 1. rewrite Hmm.
unfold deref, require.
by unfold mbind at 1, M_bind at 1, bind at 1, ret at 1.
Qed.

(** X12.  A funding whose outcome amounts are all equal (the first
  funding of a market, or none listed at all) refunds nothing and
  leaves the store exactly as it was, log included.  Whether the
  handler finishes depends on the market maker alone: its entity is
  loaded and cast for its prices before the loop, needed or not, so
  the handler finishes when the entity exists and aborts at the cast
  when it does not. *)
Theorem liquidity_added_in_balance_writes_nothing (w : World) :
(forall x y, x ∈ amountsAdded -> y ∈ amountsAdded -> x = y) ->
updateMarketPositionFromLiquidityAdded refundValueOf event w
= if marketMakers w !! fpmmAddress is Some _
  then Ok tt w else Abort NullReference w.
Proof.
intros Heq.
unfold updateMarketPositionFromLiquidityAdded, FixedProductMarketMaker_load.
unfold mbind at 1, M_bind at 1, bind at 1.
destruct (marketMakers w !! fpmmAddress) as [mm|]; [|done].
unfold deref, require.
unfold mbind at 1, M_bind at 1, bind at 1, ret at 1.
apply forEach_noop. intros i Hi.
apply seqZ_length_lookup in Hi as (Hi0 & a & Ha).
unfold liquidityAddedOutcome.
rewrite (bind_ok _ _ _ _ _ (arrayGet_run _ _ _ _ Hi0 Ha)).
assert (Hin : a ∈ amountsAdded) by (by eapply list_elem_of_lookup_2).
assert (Hmax : max amountsAdded = a).
{ apply Heq; [|done]. apply max_attained. intros E.
  unfold BigInt.t in *. rewrite E in Hin. by apply elem_of_nil in Hin. }
unfold BigInt.t in *. rewrite Hmax.
unfold BigInt.gt, BigInt.minus, bigZero. rewrite Z.sub_diag. done.
Qed.

(** X13.  A funding for a known market maker whose price list covers the
  listed outcomes always finishes.  For each outcome whose amount is
  below the largest amount, the funder's position gets the shortfall
  (largest amount minus its own) added to quantityBought, and the
  value computed from the shortfall and the outcome's price added to
  valueBought; the position of an outcome with the largest amount is
  not written, and there is always such an outcome. *)
Theorem liquidity_added_refunds_the_shortfall (w : World) :
let largest := max amountsAdded in
wellFormed w ->
marketMakers w !! fpmmAddress = Some marketMaker ->
(length amountsAdded <= length prices)%nat ->
exists w',
  updateMarketPositionFromLiquidityAdded refundValueOf event w = Ok tt w' /\
  onlyLedgerChanged w w' /\
  (forall i amount price,
     0 <= i -> amountsAdded !! Z.to_nat i = Some amount ->
     prices !! Z.to_nat i = Some price ->
     marketPositions w' !! positionId funder fpmmAddress i
     = if amount <? largest
       then Some (withNet
                    (buyLeg (largest - amount)
                            (refundValueOf (largest - amount) price)
                            (positionOf w funder fpmmAddress i)))
       else marketPositions w !! positionId funder fpmmAddress i) /\
  (forall key,
     (forall i, 0 <= i < outcomes -> key <> positionId funder fpmmAddress i) ->
     marketPositions w' !! key = marketPositions w !! key) /\
  (amountsAdded <> [] ->
   exists i, 0 <= i < outcomes /\
             amountsAdded !! Z.to_nat i = Some largest /\
             marketPositions w' !! positionId funder fpmmAddress i
             = marketPositions w !! positionId funder fpmmAddress i).
Proof.
intros largest Hw Hmm Hlen.
set (leg := fun i : Z =>
       if i <? 0 then None
       else match amountsAdded !! Z.to_nat i, prices !! Z.to_nat i with
            | Some amount, Some price =>
                if amount <? largest
                then Some (buyLeg (largest - amount)
                             (refundValueOf (largest - amount) price))
                else None
            | _, _ => None
            end).
destruct (forEach_indexed funder fpmmAddress
            (liquidityAddedOutcome refundValueOf funder fpmmAddress
               amountsAdded largest prices)
            leg (seqZ 0 outcomes)) with (w := w)
  as (w' & Hrun & _ & Hfr & Hin & Hout & _); [| | apply NoDup_seqZ | done |].
{ intros i c p. unfold leg. destruct (i <? 0); [done|].
  destruct (amountsAdded !! Z.to_nat i); [|done].
  destruct (prices !! Z.to_nat i); [|done].
  destruct (_ <? _); [|done]. by intros [= <-]. }
{ intros i w0 Hi. apply seqZ_length_lookup in Hi as (Hi0 & a & Ha).
  destruct (lookup_lt_is_Some_2 prices (Z.to_nat i)) as [price Hprice].
  { apply lookup_lt_Some in Ha. unfold BigInt.t in *. lia. }
  unfold liquidityAddedOutcome.
  rewrite (bind_ok _ _ _ _ _ (arrayGet_run _ _ _ _ Hi0 Ha)).
  unfold indexedStep, legAt, leg.
  destruct (Z.ltb_spec i 0); [lia|]. unfold BigInt.t in *.
  rewrite Ha, Hprice.
  unfold BigInt.gt, BigInt.minus, bigZero.
  destruct (Z.ltb_spec a largest), (Z.ltb_spec 0 (largest - a)); try lia;
    [|done].
  rewrite (bind_ok _ _ _ _ _ (getMarketPosition_run _ _ _ _)).
  rewrite (bind_ok _ _ _ _ _ (arrayGet_run _ _ _ _ Hi0 Hprice)).
  by rewrite updateNetPositionAndSave_run. }
assert (Hat : forall i amount price,
          0 <= i -> amountsAdded !! Z.to_nat i = Some amount ->
          prices !! Z.to_nat i = Some price ->
          marketPositions w' !! positionId funder fpmmAddress i
          = if amount <? largest
            then Some (withNet
                         (buyLeg (largest - amount)
                                 (refundValueOf (largest - amount) price)
                                 (positionOf w funder fpmmAddress i)))
            else marketPositions w !! positionId funder fpmmAddress i).
{ intros i amount price Hi Ha Hp. rewrite (Hin i).
  - unfold legAt, leg. destruct (Z.ltb_spec i 0); [lia|].
    unfold BigInt.t in *. rewrite Ha, Hp. by destruct (amount <? largest).
  - apply elem_of_seqZ. apply lookup_lt_Some in Ha.
    unfold BigInt.t in *. lia. }
exists w'. split; [by rewrite updateMarketPositionFromLiquidityAdded_loop|].
split; [done|]. split; [exact Hat|]. split.
- intros key Hk. apply Hout. intros i Hi _. apply Hk.
  apply elem_of_seqZ in Hi. lia.
- intros Hne. pose proof (max_attained amountsAdded Hne) as Hmax.
  apply list_elem_of_lookup_1 in Hmax as [n Hn].
  pose proof (lookup_lt_Some _ _ _ Hn) as Hlt.
  destruct (lookup_lt_is_Some_2 prices n) as [price Hprice];
    [unfold BigInt.t in *; lia|].
  exists (Z.of_nat n). rewrite Nat2Z.id.
  split; [unfold BigInt.t in *; lia|]. split; [done|].
  rewrite (Hat (Z.of_nat n) largest price); rewrite ?Nat2Z.id; try done;
    [|lia].
  by rewrite Z.ltb_irrefl.
Qed.

End LiquidityAddedRuns.

Lemma balancedFundingAdded_in_balance x y :
  x ∈ FPMMFundingAdded.amountsAdded balancedFundingAdded ->
  y ∈ FPMMFundingAdded.amountsAdded balancedFundingAdded -> x = y.
Proof.
  intros Hx Hy. simpl in Hx, Hy.
  apply elem_of_cons in Hx as [->|Hx]; apply elem_of_cons in Hy as [->|Hy];
    try done;
    repeat match goal with
           | H : _ ∈ [_] |- _ => apply list_elem_of_singleton in H; subst
           end; done.
Qed.

Lemma liquidity_added_in_balance_writes_nothing_witness :
  updateMarketPositionFromLiquidityAdded sampleRefundValue
    balancedFundingAdded fundingWorld = Ok tt fundingWorld /\
  updateMarketPositionFromLiquidityAdded sampleRefundValue
    balancedFundingAdded emptyWorld = Abort NullReference emptyWorld.
Proof.
  split.
  - apply (liquidity_added_in_balance_writes_nothing sampleRefundValue
             balancedFundingAdded fundingWorld).
    apply balancedFundingAdded_in_balance.
  - apply (liquidity_added_in_balance_writes_nothing sampleRefundValue
             balancedFundingAdded emptyWorld).
    apply balancedFundingAdded_in_balance.
Defined.

Lemma fundingWorld_wellFormed : wellFormed fundingWorld.
Proof. split; intros key x; simpl; by rewrite lookup_empty. Qed.

Lemma liquidity_added_refunds_the_shortfall_witness :
  exists w',
    updateMarketPositionFromLiquidityAdded sampleRefundValue
      sampleFundingAdded fundingWorld = Ok tt w' /\
    onlyLedgerChanged fundingWorld w' /\
    (forall i amount price,
       0 <= i -> [10; 4] !! Z.to_nat i = Some amount ->
       [Q2Qc (1 # 2); Q2Qc (1 # 2)] !! Z.to_nat i = Some price ->
       marketPositions w' !! positionId "0x05" "0xc7" i
       = if amount <? 10
         then Some (withNet
                      (buyLeg (10 - amount)
                              (sampleRefundValue (10 - amount) price)
                              (positionOf fundingWorld "0x05" "0xc7" i)))
         else marketPositions fundingWorld !! positionId "0x05" "0xc7" i) /\
    (forall key,
       (forall i, 0 <= i < 2 -> key <> positionId "0x05" "0xc7" i) ->
       marketPositions w' !! key = marketPositions fundingWorld !! key) /\
    ([10; 4] <> [] ->
     exists i, 0 <= i < 2 /\
               [10; 4] !! Z.to_nat i = Some 10 /\
               marketPositions w' !! positionId "0x05" "0xc7" i
               = marketPositions fundingWorld !! positionId "0x05" "0xc7" i).
Proof.
  apply (liquidity_added_refunds_the_shortfall sampleRefundValue
           sampleFundingAdded pricedMarketMaker fundingWorld).
  - apply fundingWorld_wellFormed.
  - reflexivity.
  - simpl. lia.
Defined.

(** ** The aggregate *)

Section GlobalRuns.
Variable constants : Constants.

Lemma requireGlobal_run w : requireGlobal w = Ok (globalOf w) w.
Proof.
unfold requireGlobal, Global_load, globalOf, mbind, M_bind, bind, mret,
  M_ret, ret.
by destruct (globals w !! "").
Qed.

Lemma globalOf_id w : globalKeyed w -> Global.id (globalOf w) = "".
Proof.
intros H. unfold globalOf. destruct (globals w !! "") as [g|] eqn:E; [|done].
by apply H.
Qed.

Lemma globalOf_saved g w :
Global.id g = "" -> globalOf (setGlobals (insert (Global.id g) g) w) = g.
Proof.
intros Hid. unfold globalOf. simpl. by rewrite Hid, lookup_insert_eq.
Qed.

Lemma globalOf_at_key g w : globalOf (setGlobals (insert "" g) w) = g.
Proof. unfold globalOf. simpl. by rewrite lookup_insert_eq. Qed.

Lemma globalKeyed_saved g w :
Global.id g = "" -> globalKeyed (setGlobals (insert (Global.id g) g) w).
Proof.
intros Hid g'. simpl. rewrite Hid, lookup_insert_eq. by intros [= <-].
Qed.

Lemma updateGlobalOpenInterest_up amount transactionType w :
String.eqb transactionType (TRADE_TYPE_BUY constants)
|| String.eqb transactionType (SPLIT_SHARES constants)
|| String.eqb transactionType (ADD_FUNDING constants) = true ->
updateGlobalOpenInterest constants amount transactionType w
= Ok tt (setGlobals
           (insert (Global.id (globalOf w))
              (withOpenInterest
                 (Global.openInterest (globalOf w) + amount)
                 (Global.scaledOpenInterest (globalOf w)
                  + BigInt.toBigDecimal amount)%Qc
                 (globalOf w))) w).
Proof.
intros H. unfold updateGlobalOpenInterest.
rewrite (bind_ok _ _ _ _ _ (requireGlobal_run w)). by rewrite H.
Qed.

Lemma updateGlobalOpenInterest_down amount transactionType w :
String.eqb transactionType (TRADE_TYPE_BUY constants)
|| String.eqb transactionType (SPLIT_SHARES constants)
|| String.eqb transactionType (ADD_FUNDING constants) = false ->
String.eqb transactionType (TRADE_TYPE_SELL constants)
|| String.eqb transactionType (MERGE_SHARES constants)
|| String.eqb transactionType (PAYOUT_REDEMPTION constants) = true ->
updateGlobalOpenInterest constants amount transactionType w
= Ok tt (setGlobals
           (insert (Global.id (globalOf w))
              (withOpenInterest
                 (Global.openInterest (globalOf w) - amount)
                 (Global.scaledOpenInterest (globalOf w)
                  - BigInt.toBigDecimal amount)%Qc
                 (globalOf w))) w).
Proof.
intros H1 H2. unfold updateGlobalOpenInterest.
rewrite (bind_ok _ _ _ _ _ (requireGlobal_run w)). by rewrite H1, H2.
Qed.

Lemma eqb_in3 (s a b c : string) :
String.eqb s a || String.eqb s b || String.eqb s c = true
<-> s = a \/ s = b \/ s = c.
Proof.
rewrite !orb_true_iff, !String.eqb_eq. tauto.
Qed.

Lemma eqb_notin3 (s a b c : string) :
String.eqb s a || String.eqb s b || String.eqb s c = false
<-> s <> a /\ s <> b /\ s <> c.
Proof.
rewrite !orb_false_iff, !String.eqb_neq. tauto.
Qed.

(** X14.  Open interest moves by the amount, up for the buy, split and
  add-funding types and down for the sell, merge and redemption types:
  an increase followed by a decrease of the same amount brings
  openInterest back to what it was, also when no Global record existed
  before (it is created, with openInterest 0).  The increase types are
  tested first: a type constant listed on both sides counts as an
  increase, so the decreasing type must not be one of them. *)
Theorem open_interest_round_trip
  (amount : BigInt.t) (up down : string) (w : World) :
globalKeyed w ->
up = TRADE_TYPE_BUY constants \/ up = SPLIT_SHARES constants \/
  up = ADD_FUNDING constants ->
down = TRADE_TYPE_SELL constants \/ down = MERGE_SHARES constants \/
  down = PAYOUT_REDEMPTION constants ->
down <> TRADE_TYPE_BUY constants /\ down <> SPLIT_SHARES constants /\
  down <> ADD_FUNDING constants ->
exists w1 w2,
  updateGlobalOpenInterest constants amount up w = Ok tt w1 /\
  updateGlobalOpenInterest constants amount down w1 = Ok tt w2 /\
  Global.openInterest (globalOf w1)
  = Global.openInterest (globalOf w) + amount /\
  Global.openInterest (globalOf w2) = Global.openInterest (globalOf w) /\
  marketPositions w2 = marketPositions w /\
  conditions w2 = conditions w.
Proof.
intros Hk Hup Hdown Hnot.
apply eqb_in3 in Hup, Hdown. apply eqb_notin3 in Hnot.
pose proof (globalOf_id w Hk) as Hid.
pose proof (updateGlobalOpenInterest_up amount up w Hup) as Hrun1.
rewrite Hid in Hrun1.
set (g1 := withOpenInterest _ _ (globalOf w)) in Hrun1.
set (w1 := setGlobals (insert "" g1) w) in Hrun1.
assert (Hg1 : globalOf w1 = g1) by apply globalOf_at_key.
pose proof (updateGlobalOpenInterest_down amount down w1 Hnot Hdown)
  as Hrun2.
rewrite Hg1 in Hrun2. change (Global.id g1) with (Global.id (globalOf w))
  in Hrun2. rewrite Hid in Hrun2.
eexists _, _. split; [exact Hrun1|]. split; [exact Hrun2|].
rewrite Hg1, globalOf_at_key. simpl.
unfold BigInt.plus, BigInt.minus. repeat split; lia.
Qed.

Lemma divDecimal_some (a : BigInt.t) (d : Qc) :
d <> Q2Qc 0 ->
BigInt.divDecimal a d = Some (BigInt.toBigDecimal a / d)%Qc.
Proof. intros H. unfold BigInt.divDecimal. by destruct (decide _). Qed.





Lemma volume_run_zero tradeAmount feesAmount scale tradeType w :
scale = Q2Qc 0 ->
updateGlobalVolume constants tradeAmount feesAmount scale tradeType w
= Abort DivisionByZero w.
Proof.
intros ->. unfold updateGlobalVolume.
rewrite (bind_ok _ _ _ _ _ (requireGlobal_run w)).
unfold BigInt.divDecimal. by destruct (decide (Q2Qc 0 = Q2Qc 0)).
Qed.

(** X17.  With a collateral scale of zero the first scaled division
  aborts [updateGlobalVolume]; nothing has been saved by then, so the
  store is as it was, and a Global record that did not exist has not
  been created. *)
Theorem volume_with_zero_scale_aborts
  (tradeAmount feesAmount : BigInt.t) (scale : Qc) (tradeType : string)
  (w : World) :
scale = Q2Qc 0 ->
updateGlobalVolume constants tradeAmount feesAmount scale tradeType w
= Abort DivisionByZero w.
Proof.
apply volume_run_zero.
Qed.


End GlobalRuns.

Lemma open_interest_round_trip_witness :
  exists w1 w2,
    updateGlobalOpenInterest sampleConstants 25 "Split" emptyWorld = Ok tt w1 /\
    updateGlobalOpenInterest sampleConstants 25 "Merge" w1 = Ok tt w2 /\
    Global.openInterest (globalOf w1)
    = Global.openInterest (globalOf emptyWorld) + 25 /\
    Global.openInterest (globalOf w2)
    = Global.openInterest (globalOf emptyWorld) /\
    marketPositions w2 = marketPositions emptyWorld /\
    conditions w2 = conditions emptyWorld.
Proof.
  apply (open_interest_round_trip sampleConstants 25 "Split" "Merge"
           emptyWorld).
  - intros g. simpl. by rewrite lookup_empty.
  - right. left. reflexivity.
  - right. left. reflexivity.
  - repeat split; discriminate.
Defined.





Lemma volume_with_zero_scale_aborts_witness :
  updateGlobalVolume sampleConstants 40 2 (Q2Qc 0) "Buy" emptyWorld
  = Abort DivisionByZero emptyWorld.
Proof.
  apply (volume_with_zero_scale_aborts sampleConstants 40 2 (Q2Qc 0) "Buy"
           emptyWorld).
  reflexivity.
Defined.


(** ** Resolution *)

Lemma toBigDecimal_nonzero (z : Z) :
  z <> 0 -> BigInt.toBigDecimal z <> Q2Qc 0.
Proof.
  intros Hz E. unfold BigInt.toBigDecimal in E. apply Q2Qc_eq_iff in E.
  unfold Qeq in E. simpl in E. lia.
Qed.

Lemma mapM_divDecimal (numerators : list BigInt.t) (d : Qc) (w : World) :
  d <> Q2Qc 0 ->
  mapM (fun numerator =>
          require DivisionByZero (BigInt.divDecimal numerator d))
       numerators w
  = Ok ((fun numerator => (BigInt.toBigDecimal numerator / d)%Qc)
          <$> numerators) w.
Proof.
  intros Hd. induction numerators as [|n l IH]; [done|].
  cbn [mapM]. unfold mbind, M_bind, bind.
  rewrite divDecimal_some by done. cbn [require]. unfold ret at 1.
  by rewrite IH.
Qed.

Section ResolutionRuns.
Variables (event : ConditionResolution.t) (condition : Condition.t).

Local Abbreviation conditionId :=
(Bytes.toHexString (ConditionResolution.conditionId event)).
Local Abbreviation numerators := (ConditionResolution.payoutNumerators event).

Lemma handleConditionResolution_run (w : World) :
conditions w !! conditionId = Some condition ->
sumNumerators numerators <> 0 ->
handleConditionResolution event w
= Ok tt
    (setConditions
       (insert (Condition.id condition)
          (resolvedAs condition event
             ((fun numerator =>
                 (BigInt.toBigDecimal numerator
                  / BigInt.toBigDecimal (sumNumerators numerators))%Qc)
                <$> numerators)))
       (setGlobals
          (insert (Global.id (globalOf w)) (oneConditionClosed (globalOf w)))
          w)).
Proof.
intros Hc Hsum. unfold handleConditionResolution, Condition_load.
unfold mbind at 1, M_bind at 1, bind at 1. rewrite Hc.
rewrite (bind_ok _ _ _ _ _ (requireGlobal_run w)).
unfold Global_save, modify.
unfold mbind at 1, M_bind at 1, bind at 1.
rewrite (bind_ok _ _ _ _ _
           (mapM_divDecimal numerators _ _ (toBigDecimal_nonzero _ Hsum))).
reflexivity.
Qed.

(** X19.  A resolution whose numerators are not empty and add up to zero
  aborts on the first payout fraction, a decimal division by zero: the
  condition is left as it was, unresolved if it was, and no position is
  changed. *)
Theorem resolution_with_zero_sum_aborts
  (first : BigInt.t) (rest : list BigInt.t) (w : World) :
conditions w !! conditionId = Some condition ->
numerators = first :: rest ->
sumNumerators numerators = 0 ->
exists w',
  handleConditionResolution event w = Abort DivisionByZero w' /\
  conditions w' = conditions w /\
  marketPositions w' = marketPositions w.
Proof.
intros Hc Hnum Hsum. unfold handleConditionResolution, Condition_load.
unfold mbind at 1, M_bind at 1, bind at 1. rewrite Hc.
rewrite (bind_ok _ _ _ _ _ (requireGlobal_run w)).
unfold Global_save, modify.
unfold mbind at 1, M_bind at 1, bind at 1.
rewrite Hsum. unfold BigInt.t in *. rewrite Hnum. cbn [mapM].
unfold BigInt.divDecimal.
destruct (decide (BigInt.toBigDecimal 0 = Q2Qc 0)) as [_|Hne];
  [|by destruct Hne].
eexists. split; [reflexivity|]. by split.
Qed.

(** X20.  A resolution of a known condition whose numerators do not add
  up to zero always goes through, and stores the vector as it is given:
  the numerators, their sum as the denominator, and one payout fraction
  per numerator, whether or not their number equals the condition's
  outcomeSlotCount.  The condition keeps its oracle, question, market
  makers and slot count; every other condition and every position is
  left alone. *)
Theorem resolution_stores_vector_as_given (w : World) :
wellFormed w ->
conditions w !! conditionId = Some condition ->
sumNumerators numerators <> 0 ->
exists w' resolved payouts,
  handleConditionResolution event w = Ok tt w' /\
  conditions w' = <[conditionId := resolved]> (conditions w) /\
  marketPositions w' = marketPositions w /\
  Condition.payoutNumerators resolved = Some numerators /\
  Condition.payoutDenominator resolved = Some (sumNumerators numerators) /\
  Condition.payouts resolved = Some payouts /\
  length payouts = length numerators /\
  Condition.oracle resolved = Condition.oracle condition /\
  Condition.questionId resolved = Condition.questionId condition /\
  Condition.fixedProductMarketMakers resolved
  = Condition.fixedProductMarketMakers condition /\
  Condition.outcomeSlotCount resolved = Condition.outcomeSlotCount condition.
Proof.
intros Hw Hc Hsum.
assert (Hid : Condition.id condition = conditionId) by (by apply Hw).
eexists _, _, _.
split; [by apply handleConditionResolution_run|].
simpl. rewrite Hid. split; [done|]. split; [done|].
do 3 (split; [done|]). split; [by rewrite length_fmap|]. by repeat split.
Qed.

End ResolutionRuns.

Lemma sub_twice (x : Z) :
  I32.min_int + 2 <= x <= I32.max_int -> I32.sub (I32.sub x 1) 1 = x - 2.
Proof.
  unfold I32.min_int, I32.max_int. change (2 ^ 31) with 2147483648.
  intros H. unfold I32.sub.
  rewrite (wrap_fits (x - 1)), wrap_fits;
    unfold I32.fits, I32.min_int, I32.max_int;
    change (2 ^ 31) with 2147483648; lia.
Qed.

Lemma add_twice (x : Z) :
  I32.min_int <= x <= I32.max_int - 2 -> I32.add (I32.add x 1) 1 = x + 2.
Proof.
  unfold I32.min_int, I32.max_int. change (2 ^ 31) with 2147483648.
  intros H. unfold I32.add.
  rewrite (wrap_fits (x + 1)), wrap_fits;
    unfold I32.fits, I32.min_int, I32.max_int;
    change (2 ^ 31) with 2147483648; lia.
Qed.

(** X21.  Nothing guards a condition against a second resolution.  Two
    resolutions of the same condition both go through: the condition
    ends with the payout vector of the second, and the Global counters
    have moved twice, numOpenConditions down by 2 and numClosedConditions
    up by 2. *)
Theorem resolution_twice_counts_twice
    (first second : ConditionResolution.t) (condition : Condition.t)
    (w : World) :
  let conditionId :=
    Bytes.toHexString (ConditionResolution.conditionId first) in
  wellFormed w ->
  globalKeyed w ->
  conditions w !! conditionId = Some condition ->
  ConditionResolution.conditionId second
    = ConditionResolution.conditionId first ->
  sumNumerators (ConditionResolution.payoutNumerators first) <> 0 ->
  sumNumerators (ConditionResolution.payoutNumerators second) <> 0 ->
  I32.min_int + 2 <= Global.numOpenConditions (globalOf w) <= I32.max_int ->
  I32.min_int <= Global.numClosedConditions (globalOf w) <= I32.max_int - 2 ->
  exists w1 w2 resolved,
    handleConditionResolution first w = Ok tt w1 /\
    handleConditionResolution second w1 = Ok tt w2 /\
    conditions w2 !! conditionId = Some resolved /\
    Condition.payoutNumerators resolved
    = Some (ConditionResolution.payoutNumerators second) /\
    Global.numOpenConditions (globalOf w2)
    = Global.numOpenConditions (globalOf w) - 2 /\
    Global.numClosedConditions (globalOf w2)
    = Global.numClosedConditions (globalOf w) + 2 /\
    Global.numConditions (globalOf w2) = Global.numConditions (globalOf w).
Proof.
  intros conditionId Hw Hk Hc Hsame Hs1 Hs2 Hopen Hclosed.
  assert (Hid : Condition.id condition = conditionId) by (by apply Hw).
  pose proof (globalOf_id w Hk) as Hg.
  pose proof (handleConditionResolution_run first condition w Hc Hs1) as Hrun1.
  rewrite Hid, Hg in Hrun1.
  set (c1 := resolvedAs condition first _) in Hrun1.
  set (w1 := setConditions _ _) in Hrun1.
  assert (Hc1 : conditions w1
                  !! Bytes.toHexString (ConditionResolution.conditionId second)
                = Some c1).
  { rewrite Hsame. unfold w1. simpl. by rewrite lookup_insert_eq. }
  assert (Hg1 : globalOf w1 = oneConditionClosed (globalOf w)).
  { unfold w1, globalOf. simpl. by rewrite lookup_insert_eq. }
  pose proof (handleConditionResolution_run second c1 w1 Hc1 Hs2) as Hrun2.
  rewrite Hg1 in Hrun2.
  change (Condition.id c1) with (Condition.id condition) in Hrun2.
  change (Global.id (oneConditionClosed (globalOf w)))
    with (Global.id (globalOf w)) in Hrun2.
  rewrite Hid, Hg in Hrun2.
  eexists _, _, _. split; [exact Hrun1|]. split; [exact Hrun2|].
  split; [simpl; by rewrite lookup_insert_eq|]. split; [done|].
  set (g := globalOf w) in *.
  unfold globalOf. simpl. rewrite lookup_insert_eq. simpl.
  split; [by apply sub_twice|]. split; [by apply add_twice | done].
Qed.

Lemma resolution_with_zero_sum_aborts_witness :
  exists w',
    handleConditionResolution zeroResolution holderWorld
      = Abort DivisionByZero w' /\
    conditions w' = conditions holderWorld /\
    marketPositions w' = marketPositions holderWorld.
Proof.
  apply (resolution_with_zero_sum_aborts zeroResolution sampleCondition 0 [0]
           holderWorld); reflexivity.
Defined.

Lemma resolution_stores_vector_as_given_witness :
  exists w' resolved payouts,
    handleConditionResolution sampleResolution holderWorld = Ok tt w' /\
    conditions w' = <["0xc0" := resolved]> (conditions holderWorld) /\
    marketPositions w' = marketPositions holderWorld /\
    Condition.payoutNumerators resolved = Some [3; 1] /\
    Condition.payoutDenominator resolved = Some (sumNumerators [3; 1]) /\
    Condition.payouts resolved = Some payouts /\
    length payouts = length [3; 1] /\
    Condition.oracle resolved = Condition.oracle sampleCondition /\
    Condition.questionId resolved = Condition.questionId sampleCondition /\
    Condition.fixedProductMarketMakers resolved
    = Condition.fixedProductMarketMakers sampleCondition /\
    Condition.outcomeSlotCount resolved
    = Condition.outcomeSlotCount sampleCondition.
Proof.
  apply (resolution_stores_vector_as_given sampleResolution sampleCondition
           holderWorld).
  - apply holderWorld_wellFormed.
  - reflexivity.
  - discriminate.
Defined.

Lemma resolution_twice_counts_twice_witness :
  exists w1 w2 resolved,
    handleConditionResolution sampleResolution holderWorld = Ok tt w1 /\
    handleConditionResolution secondResolution w1 = Ok tt w2 /\
    conditions w2 !! "0xc0" = Some resolved /\
    Condition.payoutNumerators resolved = Some [1; 3] /\
    Global.numOpenConditions (globalOf w2)
    = Global.numOpenConditions (globalOf holderWorld) - 2 /\
    Global.numClosedConditions (globalOf w2)
    = Global.numClosedConditions (globalOf holderWorld) + 2 /\
    Global.numConditions (globalOf w2)
    = Global.numConditions (globalOf holderWorld).
Proof.
  apply (resolution_twice_counts_twice sampleResolution secondResolution
           sampleCondition holderWorld).
  - apply holderWorld_wellFormed.
  - intros g. simpl. by rewrite lookup_empty.
  - reflexivity.
  - reflexivity.
  - discriminate.
  - discriminate.
  - vm_compute. split; discriminate.
  - vm_compute. split; discriminate.
Defined.

(** ** What the ledger operations leave alone *)

Section Frames.

Lemma ledgerOnly_bind {A B} (c : M A) (k : A -> M B) :
ledgerOnly c -> (forall a, ledgerOnly (k a)) -> ledgerOnly (c ≫= k).
Proof.
intros Hc Hk w. specialize (Hc w). unfold mbind, M_bind, bind.
destruct (c w) as [a w1|f w1]; simpl in *; [|done].
eapply onlyLedgerChanged_trans; [exact Hc | apply Hk].
Qed.

Lemma ledgerOnly_still {A} (c : M A) :
(forall w, finalWorld (c w) = w) -> ledgerOnly c.
Proof. intros H w. rewrite H. apply onlyLedgerChanged_refl. Qed.

Lemma ledgerOnly_require {A} f (o : option A) : ledgerOnly (require f o).
Proof. apply ledgerOnly_still. intros w. by destruct o. Qed.

Lemma ledgerOnly_arrayGet {A} (xs : list A) i : ledgerOnly (arrayGet xs i).
Proof. apply ledgerOnly_require. Qed.

Lemma ledgerOnly_ret {A} (a : A) : ledgerOnly (mret a).
Proof. by apply ledgerOnly_still. Qed.

Lemma ledgerOnly_getMarketPosition u m i :
ledgerOnly (getMarketPosition u m i).
Proof. apply ledgerOnly_still. intros w. by rewrite getMarketPosition_run. Qed.

Lemma ledgerOnly_updateNetPositionAndSave p :
ledgerOnly (updateNetPositionAndSave p).
Proof.
intros w. rewrite updateNetPositionAndSave_run.
apply savePosition_onlyLedgerChanged.
Qed.

Lemma ledgerOnly_log_error msg args : ledgerOnly (log_error msg args).
Proof. intros w. by repeat split. Qed.

Lemma ledgerOnly_forEach {A} (xs : list A) (body : A -> M unit) :
(forall x, ledgerOnly (body x)) -> ledgerOnly (forEach xs body).
Proof.
intros Hb. induction xs as [|x xs IH]; [apply ledgerOnly_ret|].
cbn [forEach]. apply ledgerOnly_bind; [apply Hb | done].
Qed.

Lemma ledgerOnly_load_marketMaker a :
ledgerOnly (FixedProductMarketMaker_load a).
Proof. by apply ledgerOnly_still. Qed.

Lemma ledgerOnly_outcomeIndexOf s : ledgerOnly (outcomeIndexOf s).
Proof. apply ledgerOnly_still. apply outcomeIndexOf_world. Qed.

Lemma updateMarketPositionsFromSplit_ledgerOnly mm ev :
ledgerOnly (updateMarketPositionsFromSplit mm ev).
Proof.
unfold updateMarketPositionsFromSplit.
apply ledgerOnly_bind; [apply ledgerOnly_load_marketMaker|]. intros o.
apply ledgerOnly_bind; [apply ledgerOnly_require|]. intros marketMaker.
apply ledgerOnly_forEach. intros i. unfold splitOutcome.
apply ledgerOnly_bind; [apply ledgerOnly_getMarketPosition|]. intros p.
apply ledgerOnly_bind; [apply ledgerOnly_require|]. intros v.
apply ledgerOnly_updateNetPositionAndSave.
Qed.

Lemma updateMarketPositionsFromMerge_ledgerOnly mm ev :
ledgerOnly (updateMarketPositionsFromMerge mm ev).
Proof.
unfold updateMarketPositionsFromMerge.
apply ledgerOnly_bind; [apply ledgerOnly_load_marketMaker|]. intros o.
apply ledgerOnly_bind; [apply ledgerOnly_require|]. intros marketMaker.
apply ledgerOnly_forEach. intros i. unfold mergeOutcome.
apply ledgerOnly_bind; [apply ledgerOnly_getMarketPosition|]. intros p.
apply ledgerOnly_bind; [apply ledgerOnly_require|]. intros v.
apply ledgerOnly_updateNetPositionAndSave.
Qed.

Lemma updateMarketPositionsFromRedemption_ledgerOnly mm ev :
ledgerOnly (updateMarketPositionsFromRedemption mm ev).
Proof.
unfold updateMarketPositionsFromRedemption.
apply ledgerOnly_bind; [by apply ledgerOnly_still|]. intros o.
apply ledgerOnly_bind; [apply ledgerOnly_require|]. intros c.
apply ledgerOnly_bind; [apply ledgerOnly_require|]. intros payoutNumerators.
apply ledgerOnly_bind; [apply ledgerOnly_require|]. intros payoutDenominator.
apply ledgerOnly_forEach. intros s. unfold redeemIndexSet.
apply ledgerOnly_bind; [apply ledgerOnly_outcomeIndexOf|]. intros k.
apply ledgerOnly_bind; [apply ledgerOnly_getMarketPosition|]. intros p.
apply ledgerOnly_bind; [apply ledgerOnly_arrayGet|]. intros n.
apply ledgerOnly_bind; [apply ledgerOnly_require|]. intros v.
apply ledgerOnly_updateNetPositionAndSave.
Qed.

Lemma updateMarketPositionFromTrade_ledgerOnly ev :
ledgerOnly (updateMarketPositionFromTrade ev).
Proof.
unfold updateMarketPositionFromTrade.
apply ledgerOnly_bind; [by apply ledgerOnly_still|]. intros [t|].
- apply ledgerOnly_bind; [apply ledgerOnly_getMarketPosition|]. intros p.
  apply ledgerOnly_updateNetPositionAndSave.
- apply ledgerOnly_bind; [apply ledgerOnly_log_error|]. intros _.
  by apply ledgerOnly_still.
Qed.

Lemma updateMarketPositionFromLiquidityAdded_ledgerOnly refund ev :
ledgerOnly (updateMarketPositionFromLiquidityAdded refund ev).
Proof.
unfold updateMarketPositionFromLiquidityAdded.
apply ledgerOnly_bind; [apply ledgerOnly_load_marketMaker|]. intros o.
apply ledgerOnly_bind; [apply ledgerOnly_require|]. intros marketMaker.
apply ledgerOnly_forEach. intros i. unfold liquidityAddedOutcome.
apply ledgerOnly_bind; [apply ledgerOnly_arrayGet|]. intros a.
destruct (BigInt.gt _ _); [|apply ledgerOnly_ret].
apply ledgerOnly_bind; [apply ledgerOnly_getMarketPosition|]. intros p.
apply ledgerOnly_bind; [apply ledgerOnly_arrayGet|]. intros price.
apply ledgerOnly_updateNetPositionAndSave.
Qed.

Lemma updateMarketPositionFromLiquidityRemoved_ledgerOnly ev :
ledgerOnly (updateMarketPositionFromLiquidityRemoved ev).
Proof.
unfold updateMarketPositionFromLiquidityRemoved.
apply ledgerOnly_bind; [apply ledgerOnly_require|]. intros price.
apply ledgerOnly_forEach. intros i. unfold liquidityRemovedOutcome.
apply ledgerOnly_bind; [apply ledgerOnly_getMarketPosition|]. intros p.
apply ledgerOnly_bind; [apply ledgerOnly_arrayGet|]. intros a.
apply ledgerOnly_updateNetPositionAndSave.
Qed.

(** X22.  The six operations of the position ledger (trade, split,
  merge, redemption, liquidity added, liquidity removed) write
  positions and log entries and nothing else: however a run ends,
  finished or aborted half way, the conditions, the market makers, the
  transactions, the audit rows, the accounts and the Global record are
  what they were before it. *)
Theorem ledger_operations_write_positions_and_log_only
  (refundValueOf : BigInt.t -> Qc -> BigInt.t) (marketMaker : string)
  (trade : Event.t) (split : PositionSplit.t) (merge : PositionsMerge.t)
  (redemption : PayoutRedemption.t) (added : FPMMFundingAdded.t)
  (removed : FPMMFundingRemoved.t) (w : World) :
onlyLedgerChanged w (finalWorld (updateMarketPositionFromTrade trade w)) /\
onlyLedgerChanged w
  (finalWorld (updateMarketPositionsFromSplit marketMaker split w)) /\
onlyLedgerChanged w
  (finalWorld (updateMarketPositionsFromMerge marketMaker merge w)) /\
onlyLedgerChanged w
  (finalWorld (updateMarketPositionsFromRedemption marketMaker redemption w))
/\
onlyLedgerChanged w
  (finalWorld
     (updateMarketPositionFromLiquidityAdded refundValueOf added w)) /\
onlyLedgerChanged w
  (finalWorld (updateMarketPositionFromLiquidityRemoved removed w)).
Proof.
split; [apply updateMarketPositionFromTrade_ledgerOnly|].
split; [apply updateMarketPositionsFromSplit_ledgerOnly|].
split; [apply updateMarketPositionsFromMerge_ledgerOnly|].
split; [apply updateMarketPositionsFromRedemption_ledgerOnly|].
split; [apply updateMarketPositionFromLiquidityAdded_ledgerOnly|].
apply updateMarketPositionFromLiquidityRemoved_ledgerOnly.
Qed.

Lemma updateMarketPositionFromLiquidityAdded_preserves refund ev :
preserves (updateMarketPositionFromLiquidityAdded refund ev).
Proof.
unfold updateMarketPositionFromLiquidityAdded.
apply preserves_bind; [by intros w Hw|]. intros o.
apply preserves_require. intros marketMaker.
apply preserves_forEach. intros i. unfold liquidityAddedOutcome.
apply preserves_require. intros a.
destruct (BigInt.gt _ _); [|apply preserves_ret].
apply preserves_getMarketPosition. intros p.
apply preserves_require. intros price.
apply preserves_updateNetPositionAndSave.
Qed.

Lemma updateMarketPositionFromLiquidityRemoved_preserves ev :
preserves (updateMarketPositionFromLiquidityRemoved ev).
Proof.
unfold updateMarketPositionFromLiquidityRemoved.
apply preserves_require. intros price.
apply preserves_forEach. intros i. unfold liquidityRemovedOutcome.
apply preserves_getMarketPosition. intros p.
apply preserves_require. intros a.
apply preserves_updateNetPositionAndSave.
Qed.

(** X23.  The derived fields are never stale.  If every stored position
  sits under its own id with netQuantity = quantityBought -
  quantitySold and netValue = valueBought - valueSold, and every
  condition sits under its own id, then the same holds after any
  handler or ledger operation, however it ends: each write of a
  position goes through the recomputation step. *)
Theorem derived_fields_stay_fresh
  (contracts : Contracts) (refundValueOf : BigInt.t -> Qc -> BigInt.t)
  (trade : Event.t) (split : PositionSplit.t) (merge : PositionsMerge.t)
  (redemption : PayoutRedemption.t) (resolution : ConditionResolution.t)
  (added : FPMMFundingAdded.t) (removed : FPMMFundingRemoved.t)
  (w : World) :
wellFormed w ->
wellFormed (finalWorld (handlePositionSplit contracts split w)) /\
wellFormed (finalWorld (handlePositionsMerge contracts merge w)) /\
wellFormed (finalWorld (handlePayoutRedemption contracts redemption w)) /\
wellFormed (finalWorld (handleConditionResolution resolution w)) /\
wellFormed (finalWorld (updateMarketPositionFromTrade trade w)) /\
wellFormed
  (finalWorld
     (updateMarketPositionFromLiquidityAdded refundValueOf added w)) /\
wellFormed (finalWorld (updateMarketPositionFromLiquidityRemoved removed w)).
Proof.
intros Hw.
split; [by apply handlePositionSplit_preserves|].
split; [by apply handlePositionsMerge_preserves|].
split; [by apply handlePayoutRedemption_preserves|].
split; [by apply handleConditionResolution_preserves|].
split; [by apply updateMarketPositionFromTrade_preserves|].
split; [by apply updateMarketPositionFromLiquidityAdded_preserves|].
by apply updateMarketPositionFromLiquidityRemoved_preserves.
Qed.

End Frames.

Lemma derived_fields_stay_fresh_witness :
  wellFormed
    (finalWorld (handlePositionSplit sampleContracts sampleSplit sampleWorld))
  /\
  wellFormed
    (finalWorld (handlePositionsMerge sampleContracts sampleMerge sampleWorld))
  /\
  wellFormed
    (finalWorld
       (handlePayoutRedemption sampleContracts sampleRedemption sampleWorld))
  /\
  wellFormed
    (finalWorld (handleConditionResolution sampleResolution sampleWorld)) /\
  wellFormed (finalWorld (updateMarketPositionFromTrade sampleEvent sampleWorld))
  /\
  wellFormed
    (finalWorld
       (updateMarketPositionFromLiquidityAdded sampleRefundValue
          sampleFundingAdded sampleWorld)) /\
  wellFormed
    (finalWorld
       (updateMarketPositionFromLiquidityRemoved sampleFundingRemoved
          sampleWorld)).
Proof.
  apply (derived_fields_stay_fresh sampleContracts sampleRefundValue
           sampleEvent sampleSplit sampleMerge sampleRedemption
           sampleResolution sampleFundingAdded sampleFundingRemoved
           sampleWorld).
  apply sampleWorld_wellFormed.
Defined.

(** ** The handlers around the ledger *)

Section HandlerEdges.
Variable contracts : Contracts.

(** X24.  A split or merge of a tracked account over a known condition
    touches positions only for a full partition and only through the
    condition's market makers: when the partition check fails, or the
    condition lists no market maker, the handler finishes, the audit
    row of the event is stored, and positions, conditions and log are
    what they were. *)
Theorem partial_partition_is_audit_only
    (split : PositionSplit.t) (merge : PositionsMerge.t)
    (cs cm : Condition.t) (w : World) :
  trackedStakeholder contracts w (PositionSplit.stakeholder split) ->
  trackedStakeholder contracts w (PositionsMerge.stakeholder merge) ->
  conditions w !! Bytes.toHexString (PositionSplit.conditionId split)
    = Some cs ->
  conditions w !! Bytes.toHexString (PositionsMerge.conditionId merge)
    = Some cm ->
  partitionCheck (PositionSplit.partition split)
                 (Condition.outcomeSlotCount cs) = false \/
  Condition.fixedProductMarketMakers cs = [] ->
  partitionCheck (PositionsMerge.partition merge)
                 (Condition.outcomeSlotCount cm) = false \/
  Condition.fixedProductMarketMakers cm = [] ->
  (exists w',
      handlePositionSplit contracts split w = Ok tt w' /\
      splits w' = <[getEventKey (PositionSplit.event split) := splitOf split]>
                    (splits w) /\
      marketPositions w' = marketPositions w /\
      conditions w' = conditions w /\ logs w' = logs w) /\
  (exists w',
      handlePositionsMerge contracts merge w = Ok tt w' /\
      merges w' = <[getEventKey (PositionsMerge.event merge) := mergeOf merge]>
                    (merges w) /\
      marketPositions w' = marketPositions w /\
      conditions w' = conditions w /\ logs w' = logs w).
Proof.
  intros Hts Htm Hcs Hcm Hs Hm. split.
  - destruct (handlePositionSplit_run contracts split w Hts) as (w1 & F & E).
    cbv zeta in E.
    change (Split.condition (splitOf split))
      with (Bytes.toHexString (PositionSplit.conditionId split)) in E.
    rewrite Hcs in E.
    eexists. split.
    { rewrite E.
      destruct Hs as [Hs|Hs]; [by rewrite Hs|]. rewrite Hs.
      by destruct (partitionCheck (PositionSplit.partition split) _). }
    unfold sameButAccounts in F. rewrite F. by repeat split.
  - destruct (handlePositionsMerge_run contracts merge w Htm) as (w1 & F & E).
    cbv zeta in E.
    change (Merge.condition (mergeOf merge))
      with (Bytes.toHexString (PositionsMerge.conditionId merge)) in E.
    rewrite Hcm in E.
    eexists. split.
    { rewrite E.
      destruct Hm as [Hm|Hm]; [by rewrite Hm|]. rewrite Hm.
      by destruct (partitionCheck (PositionsMerge.partition merge) _). }
    unfold sameButAccounts in F. rewrite F. by repeat split.
Qed.

Lemma forEach_ledgerOnly_redemptions (mms : list string)
    (event : PayoutRedemption.t) (w : World) :
  redemptions
    (finalWorld
       (forEach mms
          (fun marketMaker =>
             updateMarketPositionsFromRedemption marketMaker event) w))
  = redemptions w.
Proof.
  assert (H : ledgerOnly
                (forEach mms
                   (fun marketMaker =>
                      updateMarketPositionsFromRedemption marketMaker event))).
  { apply ledgerOnly_forEach. intros mm.
    apply updateMarketPositionsFromRedemption_ledgerOnly. }
  by destruct (H w) as (_ & _ & _ & _ & _ & Hr & _).
Qed.

(** X25.  The redemption handler has a narrower filter than the split
    and merge handlers: it skips one address only.  A redemption by
    that address leaves the whole store as it was.  A redemption by any
    other address, a tracked market maker or one of the two contracts
    that splits and merges skip included, is recorded: however the
    position update ends, the Redemption row of the event is in the
    store under the event key. *)
Theorem redemption_filter_is_one_address
    (event : PayoutRedemption.t) (w : World) :
  (Bytes.toHexString (PayoutRedemption.redeemer event)
     = NegativeRiskAdapter_address contracts ->
   handlePayoutRedemption contracts event w = Ok tt w) /\
  (Bytes.toHexString (PayoutRedemption.redeemer event)
     <> NegativeRiskAdapter_address contracts ->
   redemptions (finalWorld (handlePayoutRedemption contracts event w))
     !! getEventKey (PayoutRedemption.event event)
   = Some (redemptionOf event)).
Proof.
  split.
  - intros H. unfold handlePayoutRedemption.
    apply String.eqb_eq in H. by rewrite H.
  - intros H.
    destruct (handlePayoutRedemption_run contracts event w H)
      as (w1 & F & E).
    cbv zeta in E. rewrite E.
    destruct (conditions w !! _) as [c|].
    + rewrite forEach_ledgerOnly_redemptions. simpl.
      apply lookup_insert_eq.
    + simpl. apply lookup_insert_eq.
Qed.

Lemma updateMarketPositionsFromRedemption_unresolved
    (marketMaker : string) (event : PayoutRedemption.t) (c : Condition.t)
    (w : World) :
  conditions w !! Bytes.toHexString (PayoutRedemption.conditionId event)
    = Some c ->
  Condition.payoutNumerators c = None \/
  Condition.payoutDenominator c = None ->
  updateMarketPositionsFromRedemption marketMaker event w
  = Abort NullReference w.
Proof.
  intros Hc Hu. unfold updateMarketPositionsFromRedemption.
  unfold Condition_load, deref, require, mbind, M_bind, bind, ret, fail.
  rewrite Hc.
  destruct Hu as [Hu|Hu]; rewrite Hu; [done|].
  by destruct (Condition.payoutNumerators c).
Qed.

(** X26.  A redemption that arrives before its condition is resolved
    (the condition is stored, but has no payout vector or no payout
    denominator yet) never gets to the "has not resolved" report: the
    position update aborts at the cast of the missing payout field,
    for every market maker.  The handler has stored the Redemption row
    by then and aborts at the first market maker the condition lists;
    it finishes only when the condition lists none.  Either way no
    position is changed and nothing is written to the log. *)
Theorem redemption_before_resolution_aborts
    (event : PayoutRedemption.t) (c : Condition.t) (w : World) :
  Bytes.toHexString (PayoutRedemption.redeemer event)
    <> NegativeRiskAdapter_address contracts ->
  conditions w !! Bytes.toHexString (PayoutRedemption.conditionId event)
    = Some c ->
  Condition.payoutNumerators c = None \/
  Condition.payoutDenominator c = None ->
  (forall marketMaker,
      updateMarketPositionsFromRedemption marketMaker event w
      = Abort NullReference w) /\
  exists w',
    handlePayoutRedemption contracts event w
    = (if Condition.fixedProductMarketMakers c is [] then Ok tt w'
       else Abort NullReference w') /\
    marketPositions w' = marketPositions w /\
    conditions w' = conditions w /\
    redemptions w'
    = <[getEventKey (PayoutRedemption.event event) := redemptionOf event]>
        (redemptions w) /\
    logs w' = logs w.
Proof.
  intros Hn Hc Hu. split.
  { intros mm. by eapply updateMarketPositionsFromRedemption_unresolved. }
  destruct (handlePayoutRedemption_run contracts event w Hn) as (w1 & F & E).
  cbv zeta in E.
  change (Redemption.condition (redemptionOf event))
    with (Bytes.toHexString (PayoutRedemption.conditionId event)) in E.
  rewrite Hc in E.
  set (w2 := setRedemptions _ w1) in E.
  assert (Hfr : marketPositions w2 = marketPositions w /\
                conditions w2 = conditions w /\
                redemptions w2
                = <[getEventKey (PayoutRedemption.event event)
                      := redemptionOf event]> (redemptions w) /\
                logs w2 = logs w).
  { unfold w2. unfold sameButAccounts in F. rewrite F. by repeat split. }
  exists w2. split; [|done]. rewrite E.
  destruct (Condition.fixedProductMarketMakers c) as [|mm mms]; [done|].
  cbn [forEach]. apply bind_abort.
  eapply updateMarketPositionsFromRedemption_unresolved; [|done].
  destruct Hfr as (_ & -> & _). done.
Qed.

Lemma adapter_split_run
    (event : NegRiskAdapterMapping.PositionSplit.t) (w : World) :
  exists w1,
    sameButAccounts w w1 /\
    NegRiskAdapterMapping.handlePositionSplit contracts event w
    = Ok tt (setSplits
               (insert (Split.id (adapterSplitOf contracts event))
                       (adapterSplitOf contracts event)) w1).
Proof.
  unfold NegRiskAdapterMapping.handlePositionSplit.
  destruct (requireAccount_run
              (Bytes.toHexString
                 (NegRiskAdapterMapping.PositionSplit.stakeholder event))
              (Event.block_timestamp
                 (NegRiskAdapterMapping.PositionSplit.event event)) w)
    as (acc & wa & Ea & Fa & _).
  destruct (markAccountAsSeen_run
              (Bytes.toHexString
                 (NegRiskAdapterMapping.PositionSplit.stakeholder event))
              (Event.block_timestamp
                 (NegRiskAdapterMapping.PositionSplit.event event)) wa)
    as (w1 & E1 & F1).
  rewrite (bind_ok _ _ _ _ _ Ea), (bind_ok _ _ _ _ _ E1).
  exists w1. split; [by eapply sameButAccounts_trans | reflexivity].
Qed.

Lemma adapter_merge_run
    (event : NegRiskAdapterMapping.PositionsMerge.t) (w : World) :
  exists w1,
    sameButAccounts w w1 /\
    NegRiskAdapterMapping.handlePositionsMerge contracts event w
    = Ok tt (setMerges
               (insert (Merge.id (adapterMergeOf contracts event))
                       (adapterMergeOf contracts event)) w1).
Proof.
  unfold NegRiskAdapterMapping.handlePositionsMerge.
  destruct (requireAccount_run
              (Bytes.toHexString
                 (NegRiskAdapterMapping.PositionsMerge.stakeholder event))
              (Event.block_timestamp
                 (NegRiskAdapterMapping.PositionsMerge.event event)) w)
    as (acc & wa & Ea & Fa & _).
  destruct (markAccountAsSeen_run
              (Bytes.toHexString
                 (NegRiskAdapterMapping.PositionsMerge.stakeholder event))
              (Event.block_timestamp
                 (NegRiskAdapterMapping.PositionsMerge.event event)) wa)
    as (w1 & E1 & F1).
  rewrite (bind_ok _ _ _ _ _ Ea), (bind_ok _ _ _ _ _ E1).
  exists w1. split; [by eapply sameButAccounts_trans | reflexivity].
Qed.

(** X27.  The NegRiskAdapter handlers key their audit rows by the
    transaction hash alone, without the log index.  Of two splits (or
    two merges) through the adapter in one transaction only the later
    one is left: after both handlers have run, the table holds the
    later event's row under the hash and is otherwise as before the
    first; the earlier event's row is overwritten.  No position is
    touched by either. *)
Theorem adapter_rows_of_one_transaction_overwrite
    (s1 s2 : NegRiskAdapterMapping.PositionSplit.t)
    (m1 m2 : NegRiskAdapterMapping.PositionsMerge.t) (w : World) :
  Event.transaction_hash (NegRiskAdapterMapping.PositionSplit.event s1)
  = Event.transaction_hash (NegRiskAdapterMapping.PositionSplit.event s2) ->
  Event.transaction_hash (NegRiskAdapterMapping.PositionsMerge.event m1)
  = Event.transaction_hash (NegRiskAdapterMapping.PositionsMerge.event m2) ->
  (exists w',
      (NegRiskAdapterMapping.handlePositionSplit contracts s1;;
       NegRiskAdapterMapping.handlePositionSplit contracts s2) w = Ok tt w' /\
      splits w'
      = <[Split.id (adapterSplitOf contracts s2)
            := adapterSplitOf contracts s2]> (splits w) /\
      marketPositions w' = marketPositions w) /\
  (exists w',
      (NegRiskAdapterMapping.handlePositionsMerge contracts m1;;
       NegRiskAdapterMapping.handlePositionsMerge contracts m2) w = Ok tt w' /\
      merges w'
      = <[Merge.id (adapterMergeOf contracts m2)
            := adapterMergeOf contracts m2]> (merges w) /\
      marketPositions w' = marketPositions w).
Proof.
  intros Hs Hm. split.
  - destruct (adapter_split_run s1 w) as (w1 & F1 & E1).
    set (wa := setSplits _ w1) in E1.
    destruct (adapter_split_run s2 wa) as (w2 & F2 & E2).
    eexists. split; [by rewrite (bind_ok _ _ _ _ _ E1)|].
    unfold sameButAccounts in F1, F2. rewrite F2. unfold wa. rewrite F1.
    simpl. rewrite Hs. split; [apply insert_insert_eq | done].
  - destruct (adapter_merge_run m1 w) as (w1 & F1 & E1).
    set (wa := setMerges _ w1) in E1.
    destruct (adapter_merge_run m2 wa) as (w2 & F2 & E2).
    eexists. split; [by rewrite (bind_ok _ _ _ _ _ E1)|].
    unfold sameButAccounts in F1, F2. rewrite F2. unfold wa. rewrite F1.
    simpl. rewrite Hm. split; [apply insert_insert_eq | done].
Qed.

End HandlerEdges.

Lemma sampleWorld_tracks_account :
  trackedStakeholder sampleContracts sampleWorld [Byte.x05].
Proof. split; [reflexivity|]. split; by vm_compute. Qed.

Lemma partial_partition_is_audit_only_witness :
  (exists w',
      handlePositionSplit sampleContracts partialSplit sampleWorld = Ok tt w' /\
      splits w'
      = <[getEventKey (PositionSplit.event partialSplit)
            := splitOf partialSplit]> (splits sampleWorld) /\
      marketPositions w' = marketPositions sampleWorld /\
      conditions w' = conditions sampleWorld /\ logs w' = logs sampleWorld) /\
  (exists w',
      handlePositionsMerge sampleContracts partialMerge sampleWorld = Ok tt w' /\
      merges w'
      = <[getEventKey (PositionsMerge.event partialMerge)
            := mergeOf partialMerge]> (merges sampleWorld) /\
      marketPositions w' = marketPositions sampleWorld /\
      conditions w' = conditions sampleWorld /\ logs w' = logs sampleWorld).
Proof.
  apply (partial_partition_is_audit_only sampleContracts partialSplit
           partialMerge sampleCondition sampleCondition sampleWorld).
  - apply sampleWorld_tracks_account.
  - apply sampleWorld_tracks_account.
  - reflexivity.
  - reflexivity.
  - left. vm_compute. reflexivity.
  - left. vm_compute. reflexivity.
Defined.

Lemma redemption_filter_is_one_address_witness :
  handlePayoutRedemption sampleContracts adapterRedemption sampleWorld
  = Ok tt sampleWorld /\
  redemptions
    (finalWorld
       (handlePayoutRedemption sampleContracts marketMakerRedemption
          sampleWorld))
    !! getEventKey (PayoutRedemption.event marketMakerRedemption)
  = Some (redemptionOf marketMakerRedemption).
Proof.
  split.
  - apply (proj1 (redemption_filter_is_one_address sampleContracts
                    adapterRedemption sampleWorld)).
    vm_compute. reflexivity.
  - apply (proj2 (redemption_filter_is_one_address sampleContracts
                    marketMakerRedemption sampleWorld)).
    by vm_compute.
Defined.

Lemma redemption_before_resolution_aborts_witness :
  (forall marketMaker,
      updateMarketPositionsFromRedemption marketMaker sampleRedemption
        holderWorld
      = Abort NullReference holderWorld) /\
  exists w',
    handlePayoutRedemption sampleContracts sampleRedemption holderWorld
    = (if Condition.fixedProductMarketMakers sampleCondition is []
       then Ok tt w' else Abort NullReference w') /\
    marketPositions w' = marketPositions holderWorld /\
    conditions w' = conditions holderWorld /\
    redemptions w'
    = <[getEventKey (PayoutRedemption.event sampleRedemption)
          := redemptionOf sampleRedemption]> (redemptions holderWorld) /\
    logs w' = logs holderWorld.
Proof.
  apply (redemption_before_resolution_aborts sampleContracts
           sampleRedemption sampleCondition holderWorld).
  - by vm_compute.
  - reflexivity.
  - left. reflexivity.
Defined.

Lemma adapter_rows_of_one_transaction_overwrite_witness :
  (exists w',
      (NegRiskAdapterMapping.handlePositionSplit sampleContracts adapterSplit;;
       NegRiskAdapterMapping.handlePositionSplit sampleContracts
         laterAdapterSplit) sampleWorld = Ok tt w' /\
      splits w'
      = <[Split.id (adapterSplitOf sampleContracts laterAdapterSplit)
            := adapterSplitOf sampleContracts laterAdapterSplit]>
          (splits sampleWorld) /\
      marketPositions w' = marketPositions sampleWorld) /\
  (exists w',
      (NegRiskAdapterMapping.handlePositionsMerge sampleContracts adapterMerge;;
       NegRiskAdapterMapping.handlePositionsMerge sampleContracts
         laterAdapterMerge) sampleWorld = Ok tt w' /\
      merges w'
      = <[Merge.id (adapterMergeOf sampleContracts laterAdapterMerge)
            := adapterMergeOf sampleContracts laterAdapterMerge]>
          (merges sampleWorld) /\
      marketPositions w' = marketPositions sampleWorld).
Proof.
  apply (adapter_rows_of_one_transaction_overwrite sampleContracts
           adapterSplit laterAdapterSplit adapterMerge laterAdapterMerge
           sampleWorld); reflexivity.
Defined.

(** ** Position keys of addresses of one length *)

Lemma append_inj_length (a1 a2 b1 b2 : string) :
  String.length a1 = String.length a2 ->
  a1 +:+ b1 = a2 +:+ b2 -> a1 = a2 /\ b1 = b2.
Proof.
  revert a2. induction a1 as [|c a1 IH]; intros [|d a2] Hl H;
    simpl in *; try discriminate.
  - done.
  - injection H as -> H. destruct (IH a2) as [-> ->]; [lia | done | done].
Qed.

Lemma append_length (a b : string) :
  String.length (a +:+ b) = (String.length a + String.length b)%nat.
Proof. induction a as [|c a IH]; simpl; [done | by rewrite IH]. Qed.

Lemma positionId_inj_length (u1 m1 u2 m2 : string) (i1 i2 : BigInt.t) :
  String.length u1 = String.length u2 ->
  String.length m1 = String.length m2 ->
  positionId u1 m1 i1 = positionId u2 m2 i2 ->
  u1 = u2 /\ m1 = m2 /\ i1 = i2.
Proof.
  intros Hu Hm H. unfold positionId, BigInt.toString in H.
  apply append_inj_length in H as [H Hi].
  2: { rewrite !append_length. lia. }
  apply append_inj_length in H as [-> ->]; [|done].
  apply (inj pretty) in Hi. done.
Qed.

(** X28.  Among users of one address length and markets of one address
    length (as the hex strings of 20-byte addresses are) the position
    key is injective: two different (user, market, outcome) triples have
    different keys, and saving the position of one leaves what
    [getMarketPosition] returns for the other as it was. *)
Theorem position_keys_of_equal_length_addresses_are_separate
    (u1 m1 u2 m2 : string) (i1 i2 : BigInt.t) (p : MarketPosition.t)
    (w : World) :
  String.length u1 = String.length u2 ->
  String.length m1 = String.length m2 ->
  (u1, m1, i1) <> (u2, m2, i2) ->
  MarketPosition.id p = positionId u2 m2 i2 ->
  positionId u1 m1 i1 <> positionId u2 m2 i2 /\
  let w' := finalWorld (updateNetPositionAndSave p w) in
  getMarketPosition u1 m1 i1 w' = Ok (positionOf w u1 m1 i1) w'.
Proof.
  intros Hu Hm Hne Hid.
  assert (Hk : positionId u1 m1 i1 <> positionId u2 m2 i2).
  { intros H. apply Hne.
    by destruct (positionId_inj_length _ _ _ _ _ _ Hu Hm H) as (-> & -> & ->). }
  split; [done|]. intros w'. unfold w'.
  rewrite updateNetPositionAndSave_run, getMarketPosition_run. simpl.
  rewrite positionOf_savePosition_ne; [done|]. by rewrite Hid.
Qed.

Lemma position_keys_of_equal_length_addresses_are_separate_witness :
  positionId "0x05" "0x01" 0 <> positionId "0x05" "0x01" 1 /\
  let w' := finalWorld (updateNetPositionAndSave
                          (freshPosition "0x05" "0x01" 1) holderWorld) in
  getMarketPosition "0x05" "0x01" 0 w'
  = Ok (positionOf holderWorld "0x05" "0x01" 0) w'.
Proof.
  apply (position_keys_of_equal_length_addresses_are_separate
           "0x05" "0x01" "0x05" "0x01" 0 1 (freshPosition "0x05" "0x01" 1)
           holderWorld).
  - reflexivity.
  - reflexivity.
  - intros H. discriminate H.
  - reflexivity.
Defined.
